(** * pint.utils: a shallow embedding of src/pint/utils.py

    The development follows the Python module function by function.

    - Python [str] values are [string]s; one [ascii] is one code point in
      the range 0..255 (the Latin-1 part of Unicode).
    - Python [float] and numpy [float64] values are IEEE-754 binary64
      numbers, i.e. the primitive [float]s, with the rounding the hardware
      does.
    - Python [int] values are [Z]; numpy [int64] values are [Z] with the
      wrap-around written out.
    - A call that can raise returns a [result]; the exception carries the
      message the source builds.
    - [log.warning] appends to an explicit list of messages. *)

From Stdlib Require Import ZArith List Bool Ascii String Floats Lia.
From Stdlib Require Import DecimalString.
Import ListNotations.

Local Open Scope string_scope.
Local Open Scope Z_scope.

(** ** Exceptions and results *)

Inductive exn : Type :=
| ValueError (msg : string)
| PrefixError (msg : string)      (* class PrefixError(ValueError) *)
| RuntimeError (msg : string)
| IndexError (msg : string)
| OverflowError (msg : string)
| ZeroDivisionError (msg : string)
| AssertionError
| AttributeError (msg : string)
| TypeError (msg : string).

Inductive result (A : Type) : Type :=
| Ok (a : A)
| Raise (e : exn).

Arguments Ok {A} a.
Arguments Raise {A} e.

Definition bind {A B : Type} (c : result A) (k : A -> result B) : result B :=
  match c with
  | Ok a => k a
  | Raise e => Raise e
  end.

Notation "x <- c ;; k" := (bind c (fun x => k))
  (at level 61, c at next level, right associativity).
Notation "' p <- c ;; k" := (bind c (fun x => let 'p := x in k))
  (at level 61, p pattern, c at next level, right associativity).

(** ** Strings *)

(** [str(n)] for an integer. *)
Definition str_of_Z (z : Z) : string :=
  NilZero.string_of_int (Z.to_int z).

Definition str_of_nat (n : nat) : string := str_of_Z (Z.of_nat n).

(** [c in s] for a one-character [c]. *)
Fixpoint contains (c : ascii) (s : string) : bool :=
  match s with
  | EmptyString => false
  | String a s' => Ascii.eqb a c || contains c s'
  end.

(** [s.startswith(p)]. *)
Fixpoint startswith (s p : string) {struct p} : bool :=
  match p, s with
  | EmptyString, _ => true
  | String b p', String a s' => Ascii.eqb a b && startswith s' p'
  | String _ _, EmptyString => false
  end.

(** ** PosVel *)

Module PosVel.

(** The attributes an instance holds.  [None] in [obj] or [origin] is
    Python's [None]; labels are strings. *)
Record t : Type := mk {
  pos : list float;
  vel : list float;
  obj : option string;
  origin : option string
}.

(** "%s" % label *)
Definition label_str (l : option string) : string :=
  match l with
  | Some s => s
  | None => "None"
  end.

Definition label_eqb (a b : option string) : bool :=
  match a, b with
  | Some x, Some y => String.eqb x y
  | None, None => true
  | _, _ => false
  end.

(** The second message also prints [len(pos)], as the source does. *)
Definition __init__ (pos vel : list float) (obj origin : option string)
  : result t :=
  if negb (Nat.eqb (List.length pos) 3) then
    Raise (ValueError ("Position vector has length "
                       ++ str_of_nat (List.length pos) ++ " instead of 3"))
  else if negb (Nat.eqb (List.length vel) 3) then
    Raise (ValueError ("Position vector has length "
                       ++ str_of_nat (List.length pos) ++ " instead of 3"))
  else Ok (mk pos vel obj origin).

Definition _has_labels (self : t) : bool :=
  match obj self, origin self with
  | Some _, Some _ => true
  | _, _ => false
  end.

(** numpy's unary minus and [+] on one-dimensional arrays of equal
    length, element by element. *)
Definition vneg (a : list float) : list float := map PrimFloat.opp a.

Definition vadd (a b : list float) : list float :=
  map (fun xy => PrimFloat.add (fst xy) (snd xy)) (combine a b).

Definition __neg__ (self : t) : result t :=
  __init__ (vneg (pos self)) (vneg (vel self)) (origin self) (obj self).

Definition __add__ (self other : t) : result t :=
  '(obj', origin') <-
    (if _has_labels self && _has_labels other then
       if label_eqb (obj self) (origin other) then
         Ok (obj other, origin self)
       else if label_eqb (origin self) (obj other) then
         Ok (obj self, origin other)
       else
         Raise (RuntimeError
                  ("Attempting to add incompatible vectors: "
                   ++ label_str (origin self) ++ "->" ++ label_str (obj self)
                   ++ " + "
                   ++ label_str (origin other) ++ "->" ++ label_str (obj other)))
     else Ok (None, None)) ;;
  __init__ (vadd (pos self) (pos other)) (vadd (vel self) (vel other))
           obj' origin'.

Definition __sub__ (self other : t) : result t :=
  other' <- __neg__ other ;;
  __add__ self other'.

(** What [__init__] establishes and every operation keeps. *)
Definition valid (self : t) : Prop :=
  List.length (pos self) = 3%nat /\ List.length (vel self) = 3%nat.

End PosVel.

(** ** PosVel over arrays and quantities

    [PosVel] above is the class on two arrays of shape (n,) of floats.
    The class takes more: [len(pos)] is the first dimension of an array
    of any shape ([__getitem__] slices arrays of shape (3, N)), and an
    astropy Quantity is kept as it is.  Here [pos] and [vel] are arrays of
    one or two dimensions, bare or in a Quantity. *)

Module PosVelArrays.

Inductive ndarray : Type :=
| Arr1 (v : list float)                        (* shape (n,) *)
| Arr2 (m : nat) (rows : list (list float)).   (* shape (n, m) *)

Inductive value : Type :=
| Plain (a : ndarray)
| Quantity (a : ndarray) (unit : string).

Definition array_len (a : ndarray) : nat :=
  match a with
  | Arr1 v => List.length v
  | Arr2 _ rows => List.length rows
  end.

(** [len(x)] *)
Definition len (x : value) : nat :=
  match x with
  | Plain a | Quantity a _ => array_len a
  end.


(** The shape as numpy prints it in its messages. *)
Definition shape_str (a : ndarray) : string :=
  match a with
  | Arr1 v => "(" ++ str_of_nat (List.length v) ++ ",)"
  | Arr2 m rows =>
      "(" ++ str_of_nat (List.length rows) ++ "," ++ str_of_nat m ++ ")"
  end.

(** numpy's broadcasting of one dimension against another: equal, or
    one of them 1. *)
Definition broadcast_dim (n m : nat) : option nat :=
  if Nat.eqb n m then Some n
  else if Nat.eqb n 1 then Some m
  else if Nat.eqb m 1 then Some n
  else None.

(** A dimension of 1 repeated to [n]. *)
Definition stretch {A : Type} (n : nat) (l : list A) : list A :=
  match l with
  | [x] => repeat x n
  | _ => l
  end.

Definition add_vectors (x y : list float) (n : nat) : list float :=
  PosVel.vadd (stretch n x) (stretch n y).

Definition cannot_broadcast (a b : ndarray) : exn :=
  ValueError ("operands could not be broadcast together with shapes "
              ++ shape_str a ++ " " ++ shape_str b ++ " ").

(** [a + b] on arrays: the shapes are aligned at their last dimension. *)
Definition array_add (a b : ndarray) : result ndarray :=
  match a, b with
  | Arr1 x, Arr1 y =>
      match broadcast_dim (List.length x) (List.length y) with
      | Some n => Ok (Arr1 (add_vectors x y n))
      | None => Raise (cannot_broadcast a b)
      end
  | Arr2 m X, Arr2 m' Y =>
      match broadcast_dim (List.length X) (List.length Y), broadcast_dim m m' with
      | Some n, Some k =>
          Ok (Arr2 k (map (fun rr => add_vectors (fst rr) (snd rr) k)
                          (combine (stretch n X) (stretch n Y))))
      | _, _ => Raise (cannot_broadcast a b)
      end
  | Arr1 x, Arr2 m Y =>
      match broadcast_dim (List.length x) m with
      | Some k => Ok (Arr2 k (map (fun r => add_vectors x r k) Y))
      | None => Raise (cannot_broadcast a b)
      end
  | Arr2 m X, Arr1 y =>
      match broadcast_dim m (List.length y) with
      | Some k => Ok (Arr2 k (map (fun r => add_vectors r y k) X))
      | None => Raise (cannot_broadcast a b)
      end
  end.

Definition array_neg (a : ndarray) : ndarray :=
  match a with
  | Arr1 v => Arr1 (PosVel.vneg v)
  | Arr2 m rows => Arr2 m (map PosVel.vneg rows)
  end.

(** [-x]: a Quantity keeps its unit. *)
Definition value_neg (x : value) : value :=
  match x with
  | Plain a => Plain (array_neg a)
  | Quantity a unit => Quantity (array_neg a) unit
  end.

Record t : Type := mk {
  pos : value;
  vel : value;
  obj : option string;
  origin : option string
}.

(** [np.asarray] leaves an array as it is. *)
Definition __init__ (pos vel : value) (obj origin : option string) : result t :=
  if negb (Nat.eqb (len pos) 3) then
    Raise (ValueError ("Position vector has length "
                       ++ str_of_nat (len pos) ++ " instead of 3"))
  else if negb (Nat.eqb (len vel) 3) then
    Raise (ValueError ("Position vector has length "
                       ++ str_of_nat (len pos) ++ " instead of 3"))
  else Ok (mk pos vel obj origin).

Definition _has_labels (self : t) : bool :=
  match obj self, origin self with
  | Some _, Some _ => true
  | _, _ => false
  end.

Definition __neg__ (self : t) : result t :=
  __init__ (value_neg (pos self)) (value_neg (vel self)) (origin self) (obj self).

Section Astropy.

(** The sum where an operand is a Quantity is astropy's: it converts the
    units, and raises where they do not agree. *)
Variable quantity_add : value -> value -> result value.

(** [x + y] *)
Definition value_add (x y : value) : result value :=
  match x, y with
  | Plain a, Plain b => r <- array_add a b ;; Ok (Plain r)
  | _, _ => quantity_add x y
  end.

Definition __add__ (self other : t) : result t :=
  '(obj', origin') <-
    (if _has_labels self && _has_labels other then
       if PosVel.label_eqb (obj self) (origin other) then
         Ok (obj other, origin self)
       else if PosVel.label_eqb (origin self) (obj other) then
         Ok (obj self, origin other)
       else
         Raise (RuntimeError
                  ("Attempting to add incompatible vectors: "
                   ++ PosVel.label_str (origin self) ++ "->"
                   ++ PosVel.label_str (obj self)
                   ++ " + "
                   ++ PosVel.label_str (origin other) ++ "->"
                   ++ PosVel.label_str (obj other)))
     else Ok (None, None)) ;;
  p <- value_add (pos self) (pos other) ;;
  v <- value_add (vel self) (vel other) ;;
  __init__ p v obj' origin'.

Definition __sub__ (self other : t) : result t :=
  other' <- __neg__ other ;;
  __add__ self other'.

End Astropy.

(** What [__init__] establishes. *)
Definition valid (self : t) : Prop :=
  len (pos self) = 3%nat /\ len (vel self) = 3%nat.

(** A PosVel on two arrays of shape (n,), among these. *)
Definition of_vectors (A : PosVel.t) : t :=
  mk (Plain (Arr1 (PosVel.pos A))) (Plain (Arr1 (PosVel.vel A)))
     (PosVel.obj A) (PosVel.origin A).

End PosVelArrays.

(** ** More of [str] *)

Definition code (a : ascii) : Z := Z.of_N (N_of_ascii a).

Definition is_digit (a : ascii) : bool := (48 <=? code a) && (code a <=? 57).

Definition is_alpha (a : ascii) : bool :=
  ((65 <=? code a) && (code a <=? 90)) || ((97 <=? code a) && (code a <=? 122)).

(** The code points below 256 that [str.isspace] accepts: these are what
    [str.strip()] removes. *)
Definition is_space (a : ascii) : bool :=
  ((9 <=? code a) && (code a <=? 13)) || ((28 <=? code a) && (code a <=? 32))
  || (code a =? 133) || (code a =? 160).

(** [str.lower] on one code point below 256: the ASCII capitals and the
    Latin-1 capitals 0xC0..0xDE other than the multiplication sign. *)
Definition lower_char (a : ascii) : ascii :=
  let c := code a in
  if ((65 <=? c) && (c <=? 90))
     || ((192 <=? c) && (c <=? 222) && negb (c =? 215))
  then ascii_of_N (Z.to_N (c + 32))
  else a.

Fixpoint map_str (f : ascii -> ascii) (s : string) : string :=
  match s with
  | EmptyString => EmptyString
  | String a s' => String (f a) (map_str f s')
  end.

Definition lower (s : string) : string := map_str lower_char s.

(** [s.translate(maketrans(a, b))] for one-character [a] and [b]. *)
Definition translate1 (a b : ascii) (s : string) : string :=
  map_str (fun c => if Ascii.eqb c a then b else c) s.

(** [s.split(sep)] for a one-character separator. *)
Fixpoint split (sep : ascii) (s : string) : list string :=
  match s with
  | EmptyString => [EmptyString]
  | String a s' =>
      if Ascii.eqb a sep then EmptyString :: split sep s'
      else match split sep s' with
           | hd :: tl => String a hd :: tl
           | [] => [String a EmptyString]
           end
  end.

Fixpoint lstrip (s : string) : string :=
  match s with
  | EmptyString => EmptyString
  | String a s' => if is_space a then lstrip s' else s
  end.

Fixpoint rstrip (s : string) : string :=
  match s with
  | EmptyString => EmptyString
  | String a s' =>
      match rstrip s' with
      | EmptyString => if is_space a then EmptyString else String a EmptyString
      | r => String a r
      end
  end.

Definition strip (s : string) : string := rstrip (lstrip s).

(** [s[:n]] and [s[n:]] for [n >= 0]. *)
Fixpoint take (n : nat) (s : string) : string :=
  match n, s with
  | S n', String a s' => String a (take n' s')
  | _, _ => EmptyString
  end.

Fixpoint drop (n : nat) (s : string) : string :=
  match n, s with
  | S n', String _ s' => drop n' s'
  | _, _ => s
  end.

Fixpoint filter_str (p : ascii -> bool) (s : string) : string :=
  match s with
  | EmptyString => EmptyString
  | String a s' => if p a then String a (filter_str p s') else filter_str p s'
  end.

Fixpoint all_str (p : ascii -> bool) (s : string) : bool :=
  match s with
  | EmptyString => true
  | String a s' => p a && all_str p s'
  end.

(** ** [repr] *)

Definition hex_digit (n : Z) : ascii :=
  ascii_of_N (Z.to_N (if n <? 10 then 48 + n else 87 + n)).

(** [repr] of a string of code points below 256. *)
Definition repr_char (quote a : ascii) : string :=
  let c := code a in
  if Ascii.eqb a quote || (c =? 92) then String (ascii_of_N 92) (String a EmptyString)
  else if c =? 10 then String (ascii_of_N 92) "n"
  else if c =? 13 then String (ascii_of_N 92) "r"
  else if c =? 9 then String (ascii_of_N 92) "t"
  else if (c <? 32) || ((127 <=? c) && (c <=? 160)) || (c =? 173) then
    String (ascii_of_N 92)
      (String "x" (String (hex_digit (c / 16)) (String (hex_digit (c mod 16)) EmptyString)))
  else String a EmptyString.

Fixpoint concat_map (f : ascii -> string) (s : string) : string :=
  match s with
  | EmptyString => EmptyString
  | String a s' => f a ++ concat_map f s'
  end.

Definition repr (s : string) : string :=
  let quote : ascii :=
    if contains "'" s && negb (contains (ascii_of_N 34) s) then ascii_of_N 34 else "'"%char in
  String quote (concat_map (repr_char quote) s) ++ String quote EmptyString.

(** ** [int(str)] *)

(** The blanks [int] and [float] skip around a number.  They are fewer
    than those of [str.strip]: the separators 0x1c to 0x1f are not among
    them. *)
Definition is_blank (a : ascii) : bool :=
  ((9 <=? code a) && (code a <=? 13)) || (code a =? 32)
  || (code a =? 133) || (code a =? 160).

Fixpoint lskip (s : string) : string :=
  match s with
  | EmptyString => EmptyString
  | String a s' => if is_blank a then lskip s' else s
  end.

Fixpoint rskip (s : string) : string :=
  match s with
  | EmptyString => EmptyString
  | String a s' =>
      match rskip s' with
      | EmptyString => if is_blank a then EmptyString else String a EmptyString
      | r => String a r
      end
  end.

Definition trim (s : string) : string := rskip (lskip s).

Definition digit_val (a : ascii) : Z := code a - 48.

(** The number a string of decimal digits writes, most significant first. *)
Fixpoint digits_value_from (acc : Z) (s : string) : Z :=
  match s with
  | EmptyString => acc
  | String a s' => digits_value_from (10 * acc + digit_val a) s'
  end.

Definition digits_value (s : string) : Z := digits_value_from 0 s.

(** Python's [digitpart]: digits, with single underscores allowed between
    two digits.  [prev] says that the previous character was a digit. *)
Fixpoint digitpart_from (prev : bool) (s : string) : bool :=
  match s with
  | EmptyString => prev
  | String a s' =>
      if is_digit a then digitpart_from true s'
      else if Ascii.eqb a "_" then prev && digitpart_from false s'
      else false
  end.

Definition digitpart (s : string) : bool := digitpart_from false s.

Definition digitpart_value (s : string) : Z :=
  digits_value (filter_str is_digit s).

(** An optional sign in front: [(negative, rest)]. *)
Definition take_sign (s : string) : bool * string :=
  match s with
  | String a s' =>
      if Ascii.eqb a "-" then (true, s')
      else if Ascii.eqb a "+" then (false, s')
      else (false, s)
  | EmptyString => (false, s)
  end.

(** [int(s)] in base 10: blanks around, a sign, a digitpart.  (The limit
    that recent interpreters put on the number of digits is left out.) *)
Definition pyint (s : string) : result Z :=
  let '(negative, body) := take_sign (trim s) in
  if digitpart body then
    Ok (if negative then - digitpart_value body else digitpart_value body)
  else
    Raise (ValueError ("invalid literal for int() with base 10: " ++ repr s)).

(** ** [float] *)

(** [float(n)] for an integer that is in range: the nearest binary64
    number, ties to even. *)
Definition SF_of_Z (z : Z) : spec_float := binary_normalize prec emax z 0 false.

Definition float_of_Z (z : Z) : float := SF2Prim (SF_of_Z z).

(** [float(n)] raises when the integer is beyond the largest float. *)
Definition pyfloat_of_int (z : Z) : result float :=
  match SF_of_Z z with
  | S754_infinity _ => Raise (OverflowError "int too large to convert to float")
  | sf => Ok (SF2Prim sf)
  end.

(** The binary64 number nearest to [m * 10^e10] for [m > 0], ties to even
    (with the sign [negative]).  For a negative exponent the quotient is
    taken with more than 64 significant bits and one more bit that records
    a non-zero remainder, so that the one rounding [binary_normalize] does
    is the rounding of the exact value. *)
Definition round_decimal (negative : bool) (m e10 : Z) : spec_float :=
  let sgn := if negative then (-1) else 1 in
  if m =? 0 then S754_zero negative
  else if 0 <=? e10 then binary_normalize prec emax (sgn * (m * 10 ^ e10)) 0 false
  else
    let d := 10 ^ (- e10) in
    let k := Z.max 0 (Z.log2 d - Z.log2 m + 64) in
    let q := (m * 2 ^ k) / d in
    let sticky := if (m * 2 ^ k) mod d =? 0 then 0 else 1 in
    binary_normalize prec emax (sgn * (2 * q + sticky)) (- k - 1) false.

(** [s] cut at the first character that satisfies [p]: what is before it,
    and what is after it when there is one. *)
Fixpoint cut (p : ascii -> bool) (s : string) : string * option string :=
  match s with
  | EmptyString => (EmptyString, None)
  | String a s' =>
      if p a then (EmptyString, Some s')
      else let '(before, after) := cut p s' in (String a before, after)
  end.

Definition is_e (a : ascii) : bool := Ascii.eqb a "e" || Ascii.eqb a "E".
Definition is_dot (a : ascii) : bool := Ascii.eqb a ".".

(** [number ::= [digitpart] "." digitpart | digitpart ["."]]: the digits
    before and after the point. *)
Definition parse_number (s : string) : option (string * string) :=
  match cut is_dot s with
  | (ip, None) => if digitpart ip then Some (ip, EmptyString) else None
  | (ip, Some fp) =>
      if (digitpart fp && (digitpart ip || String.eqb ip ""))
         || (digitpart ip && String.eqb fp "")
      then Some (ip, fp) else None
  end.

(** [exponent ::= ("e" | "E") [sign] digitpart], after the letter. *)
Definition parse_exponent (s : option string) : option Z :=
  match s with
  | None => Some 0
  | Some e =>
      let '(negative, body) := take_sign e in
      if digitpart body then
        Some (if negative then - digitpart_value body else digitpart_value body)
      else None
  end.

(** [float(s)]: blanks around, a sign, then [inf], [infinity], [nan] in
    any case, or a decimal number with an optional exponent.  A number too
    large for binary64 gives an infinity (no exception). *)
Definition pyfloat (s : string) : result float :=
  let '(negative, body) := take_sign (trim s) in
  let lbody := lower body in
  if String.eqb lbody "inf" || String.eqb lbody "infinity" then
    Ok (if negative then neg_infinity else infinity)
  else if String.eqb lbody "nan" then Ok nan
  else
    let '(number, exponent) := cut is_e body in
    match parse_number number, parse_exponent exponent with
    | Some (ip, fp), Some e =>
        let frac := filter_str is_digit fp in
        let m := digits_value (filter_str is_digit ip ++ frac) in
        Ok (SF2Prim (round_decimal negative m (e - Z.of_nat (String.length frac))))
    | _, _ => Raise (ValueError ("could not convert string to float: " ++ repr s))
    end.

(** ** Logging

    A computation that may call [log.warning] and may raise: the messages
    logged, in order, and the outcome. *)

Definition logged (A : Type) : Type := (list string * result A)%type.

Definition lift {A : Type} (r : result A) : logged A := ([], r).

Definition log_warning (msg : string) : logged unit := ([msg], Ok tt).

Definition bindL {A B : Type} (c : logged A) (k : A -> logged B) : logged B :=
  match c with
  | (l1, Ok a) => let '(l2, r) := k a in ((l1 ++ l2)%list, r)
  | (l1, Raise e) => (l1, Raise e)
  end.

Notation "x <~ c ;; k" := (bindL c (fun x => k))
  (at level 61, c at next level, right associativity).
Notation "' p <~ c ;; k" := (bindL c (fun x => let 'p := x in k))
  (at level 61, p pattern, c at next level, right associativity).

(** ** time_from_mjd_string *)

(** The arguments [astropy.time.Time] is called with; the library builds
    the time object from them. *)
Record AstropyTime : Type := mkTime {
  val1 : Z;
  val2 : float;
  scale : string;
  format : string;
  precision : Z
}.

(** [a, b = l] *)
Definition unpack2 (l : list string) : result (string * string) :=
  match l with
  | [a; b] => Ok (a, b)
  | [] | [_] =>
      Raise (ValueError ("not enough values to unpack (expected 2, got "
                         ++ str_of_nat (List.length l) ++ ")"))
  | _ => Raise (ValueError "too many values to unpack (expected 2)")
  end.

Definition time_from_mjd_string (s scale : string) : logged AstropyTime :=
  let ss := lower s in
  '(imjd, fmjd) <~
    (if contains "e" ss || contains "d" ss then
       let ss := translate1 "d" "e" ss in
       '(num, expon) <~ lift (unpack2 (split "e" ss)) ;;
       expon <~ lift (pyint expon) ;;
       if expon <? 0 then
         _ <~ log_warning ("Likely bogus sci notation input in "
                           ++ "time_from_mjd_string ('" ++ s ++ "')!") ;;
         fmjd <~ lift (pyfloat ss) ;;
         lift (Ok (0, fmjd))
       else
         '(imjd_s, fmjd_s) <~ lift (unpack2 (split "." num)) ;;
         imjd <~ lift (pyint (imjd_s ++ take (Z.to_nat expon) fmjd_s)) ;;
         fmjd <~ lift (pyfloat ("0." ++ drop (Z.to_nat expon) fmjd_s)) ;;
         lift (Ok (imjd, fmjd))
     else
       let mjd_s := split "." ss in
       (* If input was given as an integer, add floating "0" *)
       let mjd_s := if Nat.eqb (List.length mjd_s) 1 then (mjd_s ++ ["0"])%list else mjd_s in
       '(imjd_s, fmjd_s) <~ lift (unpack2 mjd_s) ;;
       imjd <~ lift (pyint imjd_s) ;;
       fmjd <~ lift (pyfloat ("0." ++ fmjd_s)) ;;
       lift (Ok (imjd, fmjd))) ;;
  lift (Ok (mkTime imjd fmjd scale "pulsar_mjd" 9)).

(** The number a scientific-notation string [ip.fp e ex] writes is
    [ip.fp * 10^ex]; for [ex >= 0] its integer part is this quotient. *)
Definition sci_integer_part (ip fp : string) (ex : Z) : Z :=
  (digits_value (ip ++ fp) * 10 ^ ex) / 10 ^ Z.of_nat (String.length fp).

(** ** "%.<prec>f" % x *)

Fixpoint zeros (n : nat) : string :=
  match n with
  | O => EmptyString
  | S n' => String "0" (zeros n')
  end.

(** [n / d] rounded to the nearest integer, ties to even ([n >= 0], [d > 0]). *)
Definition round_half_even (n d : Z) : Z :=
  let q := n / d in
  let r := n mod d in
  if 2 * r <? d then q
  else if d <? 2 * r then q + 1
  else if Z.even q then q else q + 1.

(** The digits of [n / 10^prec] with [prec] of them after the point. *)
Definition fixed (n : Z) (prec : nat) : string :=
  let p := 10 ^ Z.of_nat prec in
  let frac := str_of_Z (n mod p) in
  str_of_Z (n / p) ++
  match prec with
  | O => EmptyString
  | _ => "." ++ zeros (prec - String.length frac) ++ frac
  end.

(** The exact value of the float, rounded to [prec] decimals, ties to even. *)
Definition format_f (prec : nat) (x : float) : string :=
  match Prim2SF x with
  | S754_nan => "nan"
  | S754_infinity s => if s then "-inf" else "inf"
  | S754_zero s => (if s then "-" else "") ++ fixed 0 prec
  | S754_finite s m e =>
      let n := Z.pos m * 10 ^ Z.of_nat prec in
      let r := if 0 <=? e then n * 2 ^ e else round_half_even n (2 ^ (- e)) in
      (if s then "-" else "") ++ fixed r prec
  end.

(** [fmt = "%." + "%sf" % prec; fmt % x]: a negative precision is not a
    format, and a precision that does not fit a C [int] is refused. *)
Definition percent_f (prec : Z) (x : float) : result string :=
  if prec <? 0 then
    Raise (ValueError "unsupported format character '-' (0x2d) at index 2")
  else if 2147483648 <=? prec then Raise (ValueError "precision too big")
  else Ok (format_f (Z.to_nat prec) x).

(** ** time_to_mjd_string, time_to_mjd_string_array *)

(** erfa's DJM0, the Julian date of the MJD origin. *)
Definition DJM0 : float := 2400000.5%float.

(** The integer a finite float truncates to. *)
Definition truncate (x : spec_float) : option Z :=
  match x with
  | S754_zero _ => Some 0
  | S754_finite s m e =>
      let a := if 0 <=? e then Z.pos m * 2 ^ e else Z.pos m / 2 ^ (- e) in
      Some (if s then - a else a)
  | _ => None
  end.

(** [int(x)] for a float. *)
Definition pyint_of_float (x : float) : result Z :=
  match Prim2SF x with
  | S754_nan => Raise (ValueError "cannot convert float NaN to integer")
  | S754_infinity _ => Raise (OverflowError "cannot convert float infinity to integer")
  | sf => match truncate sf with
          | Some z => Ok z
          | None => Raise (ValueError "cannot convert float NaN to integer")
          end
  end.

(** [s[1:]] *)
Definition tail_str (s : string) : string := drop 1 s.

(** The two [if]s of the generic branch: [(imjd, fmjd)] as they are when
    the string is formatted. *)
Definition renormalize (imjd : Z) (fmjd : float) : Z * float :=
  let '(imjd, fmjd) :=
    if PrimFloat.leb 1 fmjd then (imjd + 1, PrimFloat.sub fmjd 1)
    else (imjd, fmjd) in
  if PrimFloat.ltb fmjd 0 then (imjd - 1, PrimFloat.add fmjd 1)
  else (imjd, fmjd).

Section TimeToMjdString.

(** astropy's [day_frac] and erfa's [d2dtf] (its hour, minute, second and
    fraction fields) are library functions. *)
Variable day_frac : float -> float -> float * float.
Variable d2dtf : string -> Z -> float -> float -> Z * Z * Z * Z.

Record TimeValue : Type := mkTimeValue {
  tv_format : string;
  jd1 : float;
  jd2 : float
}.

Definition time_to_mjd_string (t : TimeValue) (prec : Z) : result string :=
  '(imjd, fmjd) <-
    (if String.eqb (tv_format t) "pulsar_mjd" then
       let '(imjd, fmjd) := day_frac (PrimFloat.sub (jd1 t) DJM0) (jd2 t) in
       imjd <- pyint_of_float imjd ;;
       let imjd := if PrimFloat.ltb fmjd 0 then imjd - 1 else imjd in
       let '(h, m, s, f) := d2dtf "UTC" 9 (jd1 t) (jd2 t) in
       h <- pyfloat_of_int h ;;
       m <- pyfloat_of_int m ;;
       s <- pyfloat_of_int s ;;
       f <- pyfloat_of_int f ;;
       Ok (imjd, (h / 24 + m / 1440 + s / 86400 + f / 86400e9)%float)
     else
       let '(imjd, fmjd) := day_frac (PrimFloat.sub (jd1 t) DJM0) (jd2 t) in
       imjd <- pyint_of_float imjd ;;
       if negb (PrimFloat.ltb (PrimFloat.abs fmjd) 2) then Raise AssertionError
       else Ok (renormalize imjd fmjd)) ;;
  frac <- percent_f prec fmjd ;;
  Ok (str_of_Z imjd ++ tail_str frac).

End TimeToMjdString.

(** numpy [int64]: the integer with the same low 64 bits. *)
Definition wrap64 (z : Z) : Z := (z + 2 ^ 63) mod 2 ^ 64 - 2 ^ 63.

(** [astype(int)] on a float64: truncation; a value that has no int64 gives
    the smallest int64 (what the conversion instruction of x86-64 returns). *)
Definition astype_int (x : float) : Z :=
  match truncate (Prim2SF x) with
  | Some z => if (- 2 ^ 63 <=? z) && (z <? 2 ^ 63) then z else - 2 ^ 63
  | None => - 2 ^ 63
  end.

(** One turn of the loop: the pair that is formatted. *)
Definition renormalize64 (i : Z) (f : float) : Z * float :=
  let '(i, f) :=
    if PrimFloat.leb 1 f then (wrap64 (i + 1), PrimFloat.sub f 1)
    else (i, f) in
  if PrimFloat.ltb f 0 then (wrap64 (i - 1), PrimFloat.add f 1)
  else (i, f).

(** The arrays the function computes before its loop: [imjd] and [fmjd]. *)
Definition split_jd (t : list (float * float)) : list (Z * float) :=
  map (fun jd =>
         let jd1 := PrimFloat.sub (fst jd) DJM0 in
         let imjd := astype_int jd1 in
         let fjd1 := PrimFloat.sub jd1 (float_of_Z imjd) in
         (imjd, PrimFloat.add (snd jd) fjd1)) t.

Fixpoint mapM {A B : Type} (f : A -> result B) (l : list A) : result (list B) :=
  match l with
  | [] => Ok []
  | a :: l' => b <- f a ;; bs <- mapM f l' ;; Ok (b :: bs)
  end.

(** [t] is the array of pairs [(jd1, jd2)]. *)
Definition time_to_mjd_string_array (t : list (float * float)) (prec : Z)
  : result (list string) :=
  let parts := split_jd t in
  match parts with
  | [] => Raise (ValueError "zero-size array to reduction operation maximum which has no identity")
  | _ =>
      if negb (forallb (fun p => PrimFloat.ltb (PrimFloat.abs (snd p)) 2) parts)
      then Raise AssertionError
      else
        mapM (fun p =>
                let '(i, f) := renormalize64 (fst p) (snd p) in
                frac <- percent_f prec f ;;
                Ok (str_of_Z i ++ tail_str frac)) parts
  end.

(** ** split_prefixed_name *)

(** The three patterns have one shape, [^(group1)(group2)$], and their
    groups are sequences of a character class under [*] or [+], or one
    literal character. *)
Inductive charclass : Type :=
| Alpha        (* [a-zA-Z] *)
| Digit        (* \d *)
| AlphaNum.    (* [a-zA-Z0-9] *)

Definition in_class (c : charclass) (a : ascii) : bool :=
  match c with
  | Alpha => is_alpha a
  | Digit => is_digit a
  | AlphaNum => is_alpha a || is_digit a
  end.

Inductive piece : Type :=
| Star (c : charclass)
| Plus (c : charclass)
| Lit (a : ascii).

Record pattern : Type := mkPattern {
  group1 : list piece;
  group2 : list piece
}.

Definition snoc (s : string) (a : ascii) : string := s ++ String a EmptyString.

Section Matcher.

Variable R : Type.

(** A greedy repetition that backtracks: one more character first, the
    rest of the pattern ([k]) when that fails.  [taken] is the text the
    group has consumed so far. *)
Fixpoint match_star (c : charclass) (k : string -> string -> option R)
  (taken s : string) : option R :=
  match s with
  | String a s' =>
      if in_class c a then
        match match_star c k (snoc taken a) s' with
        | Some r => Some r
        | None => k taken s
        end
      else k taken s
  | EmptyString => k taken s
  end.

Definition match_piece (p : piece) (k : string -> string -> option R)
  (taken s : string) : option R :=
  match p, s with
  | Star c, _ => match_star c k taken s
  | Plus c, String a s' =>
      if in_class c a then match_star c k (snoc taken a) s' else None
  | Lit b, String a s' =>
      if Ascii.eqb a b then k (snoc taken a) s' else None
  | _, EmptyString => None
  end.

Fixpoint match_pieces (ps : list piece) (k : string -> string -> option R)
  (taken s : string) : option R :=
  match ps with
  | [] => k taken s
  | p :: ps' => match_piece p (match_pieces ps' k) taken s
  end.

End Matcher.

Arguments match_star {R}.
Arguments match_piece {R}.
Arguments match_pieces {R}.

Definition newline : ascii := ascii_of_N 10.

(** [$] without MULTILINE: the end of the string, or just before a newline
    that ends the string. *)
Definition at_end (s : string) : bool :=
  match s with
  | EmptyString => true
  | String a EmptyString => Ascii.eqb a newline
  | _ => false
  end.

(** [pt.match(name)]: [None], or the match's [groups()]. *)
Definition re_match (pt : pattern) (name : string) : option (string * string) :=
  match_pieces (group1 pt)
    (fun g1 rest =>
       match_pieces (group2 pt)
         (fun g2 rest' => if at_end rest' then Some (g1, g2) else None)
         EmptyString rest)
    EmptyString name.

Definition prefixPattern : list pattern :=
  [ mkPattern [Star Alpha; Plus Digit; Plus Alpha] [Plus Digit];   (* T2EFAC2 *)
    mkPattern [Plus Alpha] [Plus Digit];                           (* F12 *)
    mkPattern [Plus AlphaNum; Lit "_"] [Plus Digit] ].             (* DMXR1_3 *)

(** The [for] loop, as the value of [namefield] when it ends: the result
    of the last [pt.match].  [prefixPart, indexPart] are bound in the same
    turn whenever that result is not [None], so after the loop they are
    the groups of [namefield]. *)
Fixpoint for_patterns (pts : list pattern) (name : string)
  (namefield : option (string * string)) : option (string * string) :=
  match pts with
  | [] => namefield
  | pt :: pts' =>
      match re_match pt name with
      | None => for_patterns pts' name None                         (* continue *)
      | Some (prefixPart, indexPart) =>
          let namefield := Some (prefixPart, indexPart) in
          if contains "_" name then
            if contains "_" prefixPart then namefield               (* break *)
            else for_patterns pts' name namefield                   (* continue *)
          else namefield                                            (* break *)
      end
  end.

Definition split_prefixed_name (name : string) : result (string * string * Z) :=
  match for_patterns prefixPattern name None with
  | None =>
      Raise (PrefixError ("Unrecognized prefix name pattern '" ++ name ++ "'."))
  | Some (prefixPart, indexPart) =>
      indexValue <- pyint indexPart ;;
      Ok (prefixPart, indexPart, indexValue)
  end.

(** ** taylor_horner, taylor_horner_deriv *)

(** A plain number: an [int] or a [float].  Neither has a [unit]
    attribute, so the branch for quantities is not taken. *)
Inductive pynum : Type :=
| PyInt (z : Z)
| PyFloat (f : float).

(** What arithmetic with a float does to the other operand. *)
Definition as_float (n : pynum) : result float :=
  match n with
  | PyInt z => pyfloat_of_int z
  | PyFloat f => Ok f
  end.

Definition float_div (a b : float) : result float :=
  if PrimFloat.eqb b 0 then Raise (ZeroDivisionError "float division by zero")
  else Ok (PrimFloat.div a b).

(** [l[start::]] *)
Definition slice_from {A : Type} (start : Z) (l : list A) : list A :=
  let n := Z.of_nat (List.length l) in
  let start := if start <? 0 then Z.max (start + n) 0 else Z.min start n in
  skipn (Z.to_nat start) l.

(** The loop both functions share, over the reversed coefficients:
    [result = result * x / fact + coeff; fact -= 1.0]. *)
Fixpoint horner_loop (x : pynum) (coeffs : list pynum) (res fact : float)
  : result float :=
  match coeffs with
  | [] => Ok res
  | coeff :: coeffs' =>
      xf <- as_float x ;;
      q <- float_div (PrimFloat.mul res xf) fact ;;
      cf <- as_float coeff ;;
      horner_loop x coeffs' (PrimFloat.add q cf) (PrimFloat.sub fact 1)
  end.

Definition taylor_horner (x : pynum) (coeffs : list pynum) : result float :=
  match coeffs with
  | [] => Raise (IndexError "list index out of range")      (* coeffs[-1] *)
  | _ =>
      let fact := float_of_Z (Z.of_nat (List.length coeffs)) in
      horner_loop x (rev coeffs) 0%float fact
  end.

Definition taylor_horner_deriv (x : pynum) (coeffs : list pynum) (deriv_order : Z)
  : result float :=
  match coeffs with
  | [] => Raise (IndexError "list index out of range")      (* coeffs[-1] *)
  | _ =>
      let der_coeffs := slice_from deriv_order coeffs in
      let fact := float_of_Z (Z.of_nat (List.length der_coeffs)) in
      horner_loop x (rev der_coeffs) 0%float fact
  end.

(** ** interesting_lines *)

(** The [comments] argument: [None], one string, a tuple of strings, or
    a list of strings (a set of strings goes the way of a list, with its
    own name in the messages). *)
Inductive comments_arg : Type :=
| NoComments
| Marker (c : string)
| Markers (cc : list string)
| MarkerList (l : list string).

(** A member of [cc]: a string, or the list that was passed, whole. *)
Inductive marker_obj : Type :=
| MStr (c : string)
| MList (l : list string).

(** [cc]: what is not [None] and not a tuple is wrapped, [cc = comments,]. *)
Definition markers (comments : comments_arg) : list marker_obj :=
  match comments with
  | NoComments => []
  | Markers cc => map MStr cc
  | Marker c => [MStr c]
  | MarkerList l => [MList l]
  end.

(** The test the first loop makes on one marker. *)
Definition bad_marker (c : string) : bool :=
  let cs := strip c in
  String.eqb cs "" || negb (startswith c cs).

(** The first loop; [c.strip()] is what a list does not have. *)
Fixpoint check_markers (cc : list marker_obj) : result unit :=
  match cc with
  | [] => Ok tt
  | MList _ :: _ =>
      Raise (AttributeError "'list' object has no attribute 'strip'")
  | MStr c :: cc' =>
      if bad_marker c then
        Raise (ValueError
                 ("Unable to deal with comments that start with whitespace, "
                  ++ "but comment string " ++ repr c ++ " was requested."))
      else check_markers cc'
  end.

(** [comments is not None and ln.startswith(comments)]; [startswith] with
    a tuple asks for any of its members, and takes nothing but a string or
    a tuple. *)
Definition is_comment (comments : comments_arg) (ln : string) : result bool :=
  match comments with
  | NoComments => Ok false
  | Marker c => Ok (startswith ln c)
  | Markers cc => Ok (existsb (startswith ln) cc)
  | MarkerList _ =>
      Raise (TypeError "startswith first arg must be str or a tuple of str, not list")
  end.

(** The function is a generator: its body runs when the caller asks for
    the next value.  The state is where the body stands; the input is the
    list of lines the iterator [lines] has not handed out yet. *)
Inductive gen_state : Type :=
| Created          (* called, body not started *)
| InLoop           (* suspended at [yield] *)
| Finished.        (* returned or raised *)

Inductive event : Type :=
| Yield (ln : string)
| StopIteration
| Raised (e : exn).

(** The second loop, from the reading of the next line to the next
    [yield] or the end of the input. *)
Fixpoint scan (comments : comments_arg) (lines : list string)
  : event * gen_state * list string :=
  match lines with
  | [] => (StopIteration, Finished, [])
  | ln :: lines' =>
      let ln := strip ln in
      if String.eqb ln "" then scan comments lines'
      else match is_comment comments ln with
           | Raise e => (Raised e, Finished, lines')
           | Ok true => scan comments lines'
           | Ok false => (Yield ln, InLoop, lines')
           end
  end.

(** [next(g)] *)
Definition next (comments : comments_arg) (st : gen_state) (lines : list string)
  : event * gen_state * list string :=
  match st with
  | Created =>
      match check_markers (markers comments) with
      | Raise e => (Raised e, Finished, lines)
      | Ok _ => scan comments lines
      end
  | InLoop => scan comments lines
  | Finished => (StopIteration, Finished, lines)
  end.

(** [list(interesting_lines(lines, comments))], with at most [fuel] calls
    of [next]: the lines yielded, and the exception if one ended the
    iteration. *)
Fixpoint drain (fuel : nat) (comments : comments_arg) (st : gen_state)
  (lines : list string) : option (list string * option exn) :=
  match fuel with
  | O => None
  | S fuel' =>
      match next comments st lines with
      | (Yield ln, st', lines') =>
          match drain fuel' comments st' lines' with
          | Some (out, e) => Some (ln :: out, e)
          | None => None
          end
      | (StopIteration, _, _) => Some ([], None)
      | (Raised e, _, _) => Some ([], Some e)
      end
  end.

(** ** fortran_float, is_number *)

(** [str.maketrans(a, b)] for two strings of one length, and
    [s.translate(table)]: where a character is listed twice, the later
    entry is the one that counts. *)
Definition maketrans (a b : string) : list (ascii * ascii) :=
  combine (list_ascii_of_string a) (list_ascii_of_string b).

Definition translate_char (table : list (ascii * ascii)) (c : ascii) : ascii :=
  fold_left (fun r p => if Ascii.eqb (fst p) c then snd p else r) table c.

Definition translate (table : list (ascii * ascii)) (s : string) : string :=
  map_str (translate_char table) s.

(** The argument: a string, or a number, which has no [translate]. *)
Inductive pyarg : Type :=
| Str (s : string)
| Num (n : pynum).

Definition fortran_float (x : pyarg) : result float :=
  match x with
  | Str s => pyfloat (translate (maketrans "Dd" "ee") s)
  | Num n => as_float n                    (* except AttributeError *)
  end.

(** The code points below 256 for which [unicodedata.numeric] has a
    value: the digits, the superscripts one, two and three, and the
    fractions a quarter, a half and three quarters. *)
Definition is_numeric_char (a : ascii) : bool :=
  is_digit a || (code a =? 178) || (code a =? 179) || (code a =? 185)
  || ((188 <=? code a) && (code a <=? 190)).

(** For a string: [float(s)] raises ValueError only, and
    [unicodedata.numeric(s)] raises TypeError unless [s] is one
    character, ValueError when that character has no numeric value. *)
Definition is_number (s : string) : bool :=
  match pyfloat s with
  | Ok _ => true
  | Raise _ =>
      match s with
      | String a EmptyString => is_numeric_char a
      | _ => false
      end
  end.

(** ** numeric_partial, numeric_partials

    The arguments are Python floats and [f] returns one float, or
    raises; it is a function of its arguments alone. *)

(** The place a list index refers to: a negative index counts from the
    end. *)
Definition list_index (len ix : Z) : option nat :=
  let i := if ix <? 0 then ix + len else ix in
  if (0 <=? i) && (i <? len) then Some (Z.to_nat i) else None.

(** [l[ix]] *)
Definition getitem (l : list float) (ix : Z) : result float :=
  match list_index (Z.of_nat (List.length l)) ix with
  | Some i =>
      match nth_error l i with
      | Some x => Ok x
      | None => Raise (IndexError "list index out of range")
      end
  | None => Raise (IndexError "list index out of range")
  end.

Fixpoint update (i : nat) (v : float) (l : list float) : list float :=
  match l, i with
  | [], _ => []
  | _ :: l', O => v :: l'
  | x :: l', S i' => x :: update i' v l'
  end.

(** [l2 = list(l); l2[ix] = v] *)
Definition setitem (l : list float) (ix : Z) (v : float) : result (list float) :=
  match list_index (Z.of_nat (List.length l)) ix with
  | Some i => Ok (update i v l)
  | None => Raise (IndexError "list assignment index out of range")
  end.

(** The right-hand side [args[ix] + delta/2.] is evaluated before the
    assignment.  The last line is arithmetic of numpy: dividing by zero
    raises nothing. *)
Definition numeric_partial (f : list float -> result float) (args : list float)
  (ix : Z) (delta : float) : result float :=
  x <- getitem args ix ;;
  args2 <- setitem args ix (x + delta / 2)%float ;;
  r2 <- f args2 ;;
  x <- getitem args ix ;;
  args3 <- setitem args ix (x - delta / 2)%float ;;
  r3 <- f args3 ;;
  Ok ((r2 - r3) / delta)%float.

(** The list comprehension over [range(len(args))]; the transpose of
    the one-dimensional array it makes is that array. *)
Definition numeric_partials (f : list float -> result float) (args : list float)
  (delta : float) : result (list float) :=
  mapM (fun i => numeric_partial f args (Z.of_nat i) delta)
       (seq 0 (List.length args)).

(** * The terms of the statements *)

(** ** Strings of digits and numbers in scientific notation

    A number in scientific notation is written
    [sign digits [. digits] marker sign digits]; the marker is one of
    e, E, d, D. *)

(** The characters of a decimal number before its exponent. *)
Definition is_plain (a : ascii) : bool :=
  is_digit a || Ascii.eqb a "." || Ascii.eqb a "+" || Ascii.eqb a "-".

(** The letters that introduce the exponent. *)
Definition is_marker (a : ascii) : bool :=
  Ascii.eqb a "e" || Ascii.eqb a "E" || Ascii.eqb a "d" || Ascii.eqb a "D".

(** The characters of a number once it is in lower case with e for d. *)
Definition is_numchar (a : ascii) : bool := is_plain a || Ascii.eqb a "e".

Inductive sign : Type := NoSign | PlusSign | MinusSign.

Definition sign_text (sg : sign) : string :=
  match sg with
  | NoSign => ""
  | PlusSign => "+"
  | MinusSign => "-"
  end.

Definition is_minus (sg : sign) : bool :=
  match sg with
  | MinusSign => true
  | _ => false
  end.

Definition signed (sg : sign) (v : Z) : Z := if is_minus sg then - v else v.

(** The text of the optional point and fraction, and the fraction's
    digits. *)
Definition frac_text (point : option string) : string :=
  match point with
  | Some fp => "." ++ fp
  | None => ""
  end.

Definition frac_digits (point : option string) : string :=
  match point with
  | Some fp => fp
  | None => ""
  end.

Definition frac_ok (point : option string) : Prop :=
  all_str is_digit (frac_digits point) = true.

(** There is a digit before or after the point. *)
Definition has_digit (ip : string) (point : option string) : Prop :=
  ip <> "" \/ frac_digits point <> "".

(** [sign digits [. digits]] *)
Definition number_text (sg : sign) (ip : string) (point : option string) : string :=
  sign_text sg ++ ip ++ frac_text point.

(** The float a decimal number rounds to: the digits [ip] and [fp] around
    the point, times [10^e]. *)
Definition decimal_float (negative : bool) (ip fp : string) (e : Z) : float :=
  SF2Prim (round_decimal negative (digits_value (ip ++ fp))
                         (e - Z.of_nat (String.length fp))).

(** The characters [float] can read: blanks, digits, signs, the point,
    the underscore, e and E, and the letters of inf, infinity and nan. *)
Definition is_floatchar (a : ascii) : bool :=
  is_blank a || is_digit a
  || existsb (Ascii.eqb a) (list_ascii_of_string "+-._eEinfatyINFATY").

(** The letters of inf, infinity and nan. *)
Definition is_wordchar (a : ascii) : bool :=
  existsb (Ascii.eqb a) (list_ascii_of_string "infaty").

(** A digit or an underscore. *)
Definition is_digitpart_char (a : ascii) : bool := is_digit a || Ascii.eqb a "_".

(** The digits [float] is given for the fraction of a number without
    exponent: those after the point, or "0" where there is no point. *)
Definition fraction_digits (point : option string) : string :=
  match point with
  | Some fp => fp
  | None => "0"
  end.

(** No e, E, d or D. *)
Definition no_marker (s : string) : bool :=
  all_str (fun a => negb (is_marker a)) s.

(** ** Floats *)

(** Neither an infinity nor a NaN. *)
Definition is_finite (x : float) : bool :=
  match Prim2SF x with
  | S754_zero _ | S754_finite _ _ _ => true
  | _ => false
  end.

(** Neither a zero nor a NaN. *)
Definition is_step (x : float) : bool :=
  match Prim2SF x with
  | S754_finite _ _ _ | S754_infinity _ => true
  | _ => false
  end.

(** [f] gives [r] whatever stands at place [i] of its arguments. *)
Definition ignores (f : list float -> result float) (args : list float)
  (i : nat) (r : float) : Prop :=
  forall v, f (update i v args) = Ok r.

(** The message [time_from_mjd_string] logs for the input [s]. *)
Definition warning (s : string) : string :=
  "Likely bogus sci notation input in time_from_mjd_string ('" ++ s ++ "')!".

(** ** Times *)

(** MJD 55000 less 2^-60 day, as the pair [(jd1, jd2)]. *)
Definition just_before_55000 : float * float := (2455000.5, -0x1p-60)%float.

(** A quarter of a day before MJD -1, with [jd2] at the lower end of its
    usual range. *)
Definition before_mjd_origin : float * float := (2399999.75, -0.5)%float.

(** ** Position and velocity *)

Definition earth_from_ssb : PosVel.t :=
  PosVel.mk [1; 2; 3]%float [4; 5; 6]%float (Some "earth") (Some "ssb").


Definition unlabeled : PosVel.t :=
  PosVel.mk [10; 20; 30]%float [40; 50; 60]%float None None.




(** The result of a call, seen through a function on its value. *)
Definition map_result {A B : Type} (f : A -> B) (r : result A) : result B :=
  match r with
  | Ok a => Ok (f a)
  | Raise e => Raise e
  end.


(** Both operands carry both labels and each ends where the other
    starts. *)
Definition labels_cycle (A B : PosVel.t) : Prop :=
  PosVel._has_labels A = true /\ PosVel._has_labels B = true
  /\ PosVel.obj A = PosVel.origin B /\ PosVel.origin A = PosVel.obj B.

Definition moon_from_earth : PosVel.t :=
  PosVel.mk [10; 20; 30]%float [40; 50; 60]%float (Some "moon") (Some "earth").

Definition moon_from_ssb : PosVel.t :=
  PosVel.mk [11; 22; 33]%float [44; 55; 66]%float (Some "moon") (Some "ssb").

(** ** Patterns *)

(** What a sequence of pieces matches, without any order of search. *)
Inductive matches : list piece -> string -> Prop :=
| matches_nil : matches [] ""
| matches_star (c : charclass) (t1 t2 : string) (ps : list piece) :
    all_str (in_class c) t1 = true -> matches ps t2 ->
    matches (Star c :: ps) (t1 ++ t2)
| matches_plus (c : charclass) (t1 t2 : string) (ps : list piece) :
    t1 <> "" -> all_str (in_class c) t1 = true -> matches ps t2 ->
    matches (Plus c :: ps) (t1 ++ t2)
| matches_lit (a : ascii) (t2 : string) (ps : list piece) :
    matches ps t2 -> matches (Lit a :: ps) (String a t2).

(** A piece that cannot consume the character [c]. *)
Definition avoids (c : ascii) (p : piece) : bool :=
  match p with
  | Star cl | Plus cl => negb (in_class cl c)
  | Lit a => negb (Ascii.eqb a c)
  end.

(** The exception [split_prefixed_name] raises for [name]. *)
Definition unrecognized (name : string) : exn :=
  PrefixError ("Unrecognized prefix name pattern '" ++ name ++ "'.").

(** ** Series *)

Definition example_coeffs : list pynum := [PyInt 10; PyInt 3; PyInt 4; PyInt 12].

(** ** Comment markers *)

(** A marker that is empty or made of whitespace only. *)
Definition whitespace_only (c : string) : Prop := all_str is_space c = true.

(** A marker whose first character is whitespace. *)
Definition begins_with_whitespace (c : string) : Prop :=
  match c with
  | String a _ => is_space a = true
  | EmptyString => False
  end.

(** The strings given as markers. *)
Definition supplied (comments : comments_arg) : list string :=
  match comments with
  | NoComments => []
  | Marker c => [c]
  | Markers cc => cc
  | MarkerList l => l
  end.

(** The argument is [None], a string or a tuple. *)
Definition is_tuple_or_str (comments : comments_arg) : Prop :=
  match comments with
  | MarkerList _ => False
  | _ => True
  end.

(** The line [ln] starts with the marker [c]; with one of the markers. *)
Definition starts_with (c ln : string) : Prop := exists rest, ln = c ++ rest.

Definition is_marked (cc : list string) (ln : string) : Prop :=
  exists c, In c cc /\ starts_with c ln.

(** [out] is what is left of [lines]: every line stripped, without the
    blank ones and those that start with a marker, in the order of the
    input. *)
Inductive remains (cc : list string) : list string -> list string -> Prop :=
| remains_nil : remains cc [] []
| remains_blank (l : string) (lines out : list string) :
    strip l = "" -> remains cc lines out -> remains cc (l :: lines) out
| remains_comment (l : string) (lines out : list string) :
    strip l <> "" -> is_marked cc (strip l) -> remains cc lines out ->
    remains cc (l :: lines) out
| remains_line (l : string) (lines out : list string) :
    strip l <> "" -> ~ is_marked cc (strip l) -> remains cc lines out ->
    remains cc (l :: lines) (strip l :: out).

(** The same as a filter, for the proofs. *)
Definition kept_lines (cc : list string) (lines : list string) : list string :=
  filter (fun ln => negb (String.eqb ln "") && negb (existsb (startswith ln) cc))
         (map strip lines).

(** What a list of markers is answered with. *)
Definition no_strip : exn := AttributeError "'list' object has no attribute 'strip'".

(** The message [interesting_lines] raises ValueError with for [c]. *)
Definition complaint (c : string) : string :=
  "Unable to deal with comments that start with whitespace, "
  ++ "but comment string " ++ repr c ++ " was requested.".

(** ** Runs of characters *)

(** The first character of [s] is in the class [c]. *)
Definition head_in (c : charclass) (s : string) : bool :=
  match s with
  | String a _ => in_class c a
  | EmptyString => false
  end.

(** [s] without the characters at its start that satisfy [p]. *)
Fixpoint drop_while (p : ascii -> bool) (s : string) : string :=
  match s with
  | String a s' => if p a then drop_while p s' else s
  | EmptyString => EmptyString
  end.

(** The three patterns, by name. *)
Definition pattern_T2EFAC : pattern :=
  mkPattern [Star Alpha; Plus Digit; Plus Alpha] [Plus Digit].
Definition pattern_F : pattern := mkPattern [Plus Alpha] [Plus Digit].
Definition pattern_DMX : pattern := mkPattern [Plus AlphaNum; Lit "_"] [Plus Digit].

(** ** Proof steps *)

(** Facts about one character are settled by running through the 256
    code points. *)
Ltac by_code_points a :=
  destruct a as [[|] [|] [|] [|] [|] [|] [|] [|]];
  vm_compute; intuition congruence.

(** * Properties *)

(** ** General facts *)

Lemma bind_Ok {A B : Type} (a : A) (k : A -> result B) : bind (Ok a) k = k a.
Proof. reflexivity. Qed.

Lemma opp_involutive (x : float) : PrimFloat.opp (PrimFloat.opp x) = x.
Proof.
  rewrite <- (SF2Prim_Prim2SF (PrimFloat.opp (PrimFloat.opp x))).
  rewrite !opp_spec.
  rewrite <- (SF2Prim_Prim2SF x) at 2.
  f_equal.
  destruct (Prim2SF x) as [s | s | | s m e]; simpl;
    try reflexivity; now rewrite negb_involutive.
Qed.

(** ** PosVel *)

Module PosVelFacts.

Import PosVel.

Lemma vneg_involutive (a : list float) : vneg (vneg a) = a.
Proof.
  unfold vneg. rewrite map_map.
  induction a as [| x a IH]; simpl; [reflexivity |].
  now rewrite opp_involutive, IH.
Qed.

Lemma vneg_length (a : list float) : List.length (vneg a) = List.length a.
Proof. apply length_map. Qed.

Lemma vadd_length (a b : list float) :
  List.length a = 3%nat -> List.length b = 3%nat -> List.length (vadd a b) = 3%nat.
Proof.
  intros Ha Hb. unfold vadd.
  rewrite length_map, length_combine, Ha, Hb. reflexivity.
Qed.

Lemma init_ok (p v : list float) (o g : option string) :
  List.length p = 3%nat -> List.length v = 3%nat ->
  __init__ p v o g = Ok (mk p v o g).
Proof.
  intros Hp Hv. unfold __init__. now rewrite Hp, Hv.
Qed.


Lemma add_sum (A B : t) (o g : option string) :
  valid A -> valid B ->
  __init__ (vadd (pos A) (pos B)) (vadd (vel A) (vel B)) o g
  = Ok (mk (vadd (pos A) (pos B)) (vadd (vel A) (vel B)) o g).
Proof.
  intros [HpA HvA] [HpB HvB].
  apply init_ok; now apply vadd_length.
Qed.

(** C7.  For 3-component vectors [p] and [v] and any labels, building a
    PosVel and negating it once gives the negated vectors with the two
    labels swapped ([obj] is the old [origin], [origin] the old [obj]);
    negating it twice gives a PosVel with [pos = p], [vel = v] and the
    labels it started with.  Equality of the vectors is identity of the
    floats, component by component. *)
Theorem neg_neg (p v : list float) (o g : option string) :
  List.length p = 3%nat -> List.length v = 3%nat ->
  (a <- __init__ p v o g ;; __neg__ a) = Ok (mk (vneg p) (vneg v) g o)
  /\ (a <- __init__ p v o g ;; b <- __neg__ a ;; __neg__ b) = Ok (mk p v o g).
Proof.
  intros Hp Hv.
  rewrite (init_ok p v o g Hp Hv), !bind_Ok.
  assert (Hneg : __neg__ (mk p v o g) = Ok (mk (vneg p) (vneg v) g o)).
  { unfold __neg__. cbn [pos vel obj origin].
    apply init_ok; now rewrite vneg_length. }
  rewrite Hneg, bind_Ok. split; [reflexivity |].
  unfold __neg__. cbn [pos vel obj origin].
  rewrite !vneg_involutive.
  now apply init_ok.
Qed.

Lemma neg_neg_witness :
  (a <- __init__ [1; 2; 3]%float [4; 5; 6]%float (Some "earth") (Some "ssb") ;;
   __neg__ a)
  = Ok (mk [-1; -2; -3]%float [-4; -5; -6]%float (Some "ssb") (Some "earth"))
  /\ (a <- __init__ [1; 2; 3]%float [4; 5; 6]%float (Some "earth") (Some "ssb") ;;
      b <- __neg__ a ;; __neg__ b) = Ok earth_from_ssb.
Proof.
  apply (neg_neg [1; 2; 3]%float [4; 5; 6]%float (Some "earth") (Some "ssb"));
    reflexivity.
Defined.

(** X3.  Negation negates both vectors and swaps the two labels. *)
Theorem neg_swaps_labels (A : t) :
  valid A ->
  __neg__ A = Ok (mk (vneg (pos A)) (vneg (vel A)) (origin A) (obj A)).
Proof.
  intros [Hp Hv]. unfold __neg__. apply init_ok; now rewrite vneg_length.
Qed.

(** X4.  A vector whose length is not 3 is refused with ValueError. *)
Theorem init_rejects (p v : list float) (o g : option string) :
  List.length p <> 3%nat \/ List.length v <> 3%nat ->
  exists msg, __init__ p v o g = Raise (ValueError msg).
Proof.
  intros H. unfold __init__.
  destruct (Nat.eqb_spec (List.length p) 3) as [Hp | Hp]; simpl; [| eauto].
  destruct (Nat.eqb_spec (List.length v) 3) as [Hv | Hv]; simpl; [| eauto].
  destruct H; contradiction.
Qed.

Lemma init_rejects_witness :
  exists msg, __init__ [1; 2]%float [4; 5; 6]%float None None
              = Raise (ValueError msg).
Proof.
  apply (init_rejects [1; 2]%float [4; 5; 6]%float).
  left. discriminate.
Defined.

Lemma neg_swaps_labels_witness :
  __neg__ earth_from_ssb
  = Ok (mk [-1; -2; -3]%float [-4; -5; -6]%float (Some "ssb") (Some "earth")).
Proof. apply (neg_swaps_labels earth_from_ssb). split; reflexivity. Defined.




(** On arrays of shape (3,): when at least one of the four labels is
    [None], the sum is returned and carries no label; so an addition that
    raises has both operands fully labeled. *)
Lemma add_unlabeled (A B : t) :
  valid A -> valid B ->
  (obj A = None \/ origin A = None \/ obj B = None \/ origin B = None ->
   __add__ A B = Ok (mk (vadd (pos A) (pos B)) (vadd (vel A) (vel B)) None None))
  /\ (forall e, __add__ A B = Raise e ->
      _has_labels A = true /\ _has_labels B = true).
Proof.
  intros VA VB.
  assert (Hnone : _has_labels A && _has_labels B = false ->
                  __add__ A B = Ok (mk (vadd (pos A) (pos B))
                                       (vadd (vel A) (vel B)) None None)).
  { intros H. unfold __add__. rewrite H, bind_Ok. now apply add_sum. }
  split.
  - intros H. apply Hnone. unfold _has_labels.
    destruct H as [H | [H | [H | H]]]; rewrite H;
      try reflexivity;
      repeat match goal with
             | |- context [match ?x with _ => _ end] => destruct x
             end; reflexivity.
  - intros e He.
    destruct (_has_labels A && _has_labels B) eqn:HL.
    + now apply andb_true_iff in HL.
    + rewrite (Hnone eq_refl) in He. discriminate.
Qed.

Lemma add_unlabeled_witness :
  __add__ earth_from_ssb unlabeled
  = Ok (mk [11; 22; 33]%float [44; 55; 66]%float None None).
Proof.
  refine (proj1 (add_unlabeled earth_from_ssb unlabeled _ _) _).
  - split; reflexivity.
  - split; reflexivity.
  - right; right; left; reflexivity.
Defined.

End PosVelFacts.

(** ** taylor_horner, taylor_horner_deriv *)

Module TaylorFacts.

(** The docstring's example of [taylor_horner]:
    10 + 3*2 + 4*2^2/2! + 12*2^3/3! is 40.0. *)
Theorem taylor_horner_example :
  taylor_horner (PyFloat 2) example_coeffs = Ok 40%float.
Proof. reflexivity. Qed.

(** The three turns of the loop in [taylor_horner_deriv(2.0, [10, 3, 4, 12], 1)]:
    [der_coeffs] is [3, 4, 12] and [fact] starts at 3.0. *)
Lemma taylor_horner_deriv_trace :
  slice_from 1 example_coeffs = [PyInt 3; PyInt 4; PyInt 12]
  /\ horner_loop (PyFloat 2) [PyInt 12] 0 3 = Ok 12%float
  /\ horner_loop (PyFloat 2) [PyInt 4] 12 2 = Ok 16%float
  /\ horner_loop (PyFloat 2) [PyInt 3] 16 1 = Ok 35%float.
Proof. repeat split; reflexivity. Qed.

(** C2, as amended.  [taylor_horner_deriv(2.0, [10, 3, 4, 12], 1)] returns
    35.0, the value at 2 of 3 + 4*x + 12*x^2/2!, the first derivative of
    the series. *)
Theorem taylor_horner_deriv_example :
  taylor_horner_deriv (PyFloat 2) example_coeffs 1 = Ok 35%float.
Proof. reflexivity. Qed.

(** C2 as stated fails: the call returns a float, and that float does not
    compare equal to 15.0. *)
Lemma taylor_horner_deriv_not_15 :
  exists r, taylor_horner_deriv (PyFloat 2) example_coeffs 1 = Ok r
            /\ PrimFloat.eqb r 15 = false /\ r <> 15%float.
Proof.
  exists 35%float. repeat split.
  intros H. apply (f_equal (fun f => PrimFloat.eqb f 15)) in H.
  vm_compute in H. discriminate.
Qed.

Lemma slice_from_beyond {A : Type} (l : list A) (start : Z) :
  Z.of_nat (List.length l) <= start -> slice_from start l = [].
Proof.
  intros H. unfold slice_from.
  destruct (start <? 0) eqn:Hneg; [lia |].
  rewrite Z.min_r by lia. rewrite Nat2Z.id.
  apply skipn_all.
Qed.

(** C10.  For a non-empty list of plain coefficients, any plain [x] and
    any [deriv_order >= len(coeffs)], the result is 0.0: the slice is
    empty and the loop body never runs. *)
Theorem taylor_horner_deriv_beyond_degree
  (x : pynum) (coeffs : list pynum) (deriv_order : Z) :
  coeffs <> [] ->
  Z.of_nat (List.length coeffs) <= deriv_order ->
  taylor_horner_deriv x coeffs deriv_order = Ok 0%float.
Proof.
  intros Hne Hge. unfold taylor_horner_deriv.
  destruct coeffs as [| c cs]; [contradiction |].
  now rewrite slice_from_beyond.
Qed.

Lemma taylor_horner_deriv_beyond_degree_witness :
  taylor_horner_deriv (PyFloat 2) example_coeffs 4 = Ok 0%float.
Proof.
  apply (taylor_horner_deriv_beyond_degree (PyFloat 2) example_coeffs 4).
  - discriminate.
  - simpl. lia.
Defined.

End TaylorFacts.

(** ** Facts about [str] *)

Module StrFacts.

Lemma rstrip_prefix (s : string) : startswith s (rstrip s) = true.
Proof.
  induction s as [| a s IH]; simpl; [reflexivity |].
  destruct (rstrip s) as [| b r] eqn:E.
  - destruct (is_space a); simpl; [reflexivity |].
    now rewrite Ascii.eqb_refl.
  - simpl. now rewrite Ascii.eqb_refl.
Qed.

Lemma rstrip_nil_iff (s : string) :
  rstrip s = "" <-> all_str is_space s = true.
Proof.
  induction s as [| a s IH]; simpl; [tauto |].
  destruct (rstrip s) as [| b r] eqn:E.
  - destruct (is_space a); simpl.
    + split; intros _; [now apply IH | reflexivity].
    + split; discriminate.
  - split; [discriminate |].
    intros H. apply andb_true_iff in H. destruct H as [_ H].
    apply IH in H. discriminate.
Qed.

Lemma rstrip_head (a : ascii) (s : string) :
  is_space a = false -> exists r, rstrip (String a s) = String a r.
Proof.
  intros Ha. simpl.
  destruct (rstrip s) as [| b r]; [rewrite Ha |]; eauto.
Qed.

Lemma lstrip_nil_iff (s : string) :
  lstrip s = "" <-> all_str is_space s = true.
Proof.
  induction s as [| a s IH]; simpl; [tauto |].
  destruct (is_space a); simpl; [exact IH |].
  split; discriminate.
Qed.

Lemma lstrip_head (s : string) (b : ascii) (r : string) :
  lstrip s = String b r -> is_space b = false.
Proof.
  induction s as [| a s IH]; simpl; [discriminate |].
  destruct (is_space a) eqn:Ha; [exact IH |].
  now intros [= <- _].
Qed.

Lemma strip_nil_iff (s : string) :
  strip s = "" <-> all_str is_space s = true.
Proof.
  unfold strip. rewrite rstrip_nil_iff. split.
  - intros H. apply lstrip_nil_iff.
    destruct (lstrip s) as [| b r] eqn:E; [reflexivity |].
    apply lstrip_head in E. simpl in H. now rewrite E in H.
  - intros H. apply lstrip_nil_iff in H. now rewrite H.
Qed.

Lemma app_assoc (a b c : string) : (a ++ b) ++ c = a ++ b ++ c.
Proof. induction a as [| x a IH]; simpl; [reflexivity | now rewrite IH]. Qed.

Lemma app_nil_r (a : string) : a ++ "" = a.
Proof. induction a as [| x a IH]; simpl; [reflexivity | now rewrite IH]. Qed.

Lemma snoc_app (t : string) (a : ascii) (r : string) :
  snoc t a ++ r = t ++ String a r.
Proof. unfold snoc. now rewrite app_assoc. Qed.

Lemma length_app (a b : string) :
  String.length (a ++ b) = (String.length a + String.length b)%nat.
Proof. induction a as [| x a IH]; simpl; [reflexivity | now rewrite IH]. Qed.

Lemma all_str_app (p : ascii -> bool) (a b : string) :
  all_str p (a ++ b) = all_str p a && all_str p b.
Proof.
  induction a as [| x a IH]; simpl; [reflexivity |].
  now rewrite IH, andb_assoc.
Qed.

Lemma all_str_impl (p q : ascii -> bool) (s : string) :
  (forall a, p a = true -> q a = true) ->
  all_str p s = true -> all_str q s = true.
Proof.
  intros Hpq. induction s as [| x s IH]; simpl; [reflexivity |].
  intros H. apply andb_true_iff in H. destruct H as [Hx Hs].
  now rewrite (Hpq _ Hx), IH.
Qed.

Lemma contains_app (c : ascii) (a b : string) :
  contains c (a ++ b) = contains c a || contains c b.
Proof.
  induction a as [| x a IH]; simpl; [reflexivity |].
  now rewrite IH, orb_assoc.
Qed.

Lemma contains_all_str (c : ascii) (p : ascii -> bool) (s : string) :
  p c = false -> all_str p s = true -> contains c s = false.
Proof.
  intros Hc. induction s as [| x s IH]; simpl; [reflexivity |].
  intros H. apply andb_true_iff in H. destruct H as [Hx Hs].
  rewrite (IH Hs), orb_false_r.
  destruct (Ascii.eqb_spec x c) as [-> |]; [congruence | reflexivity].
Qed.

Lemma digit_not_space (a : ascii) : is_digit a = true -> is_space a = false.
Proof. by_code_points a. Qed.

Lemma digit_not_sign (a : ascii) :
  is_digit a = true -> Ascii.eqb a "-" = false /\ Ascii.eqb a "+" = false.
Proof. by_code_points a. Qed.

Lemma lstrip_id (a : ascii) (s : string) :
  is_space a = false -> lstrip (String a s) = String a s.
Proof. intros H. simpl. now rewrite H. Qed.

Lemma rstrip_id (s : string) :
  all_str (fun a => negb (is_space a)) s = true -> rstrip s = s.
Proof.
  induction s as [| a s IH]; simpl; [reflexivity |].
  intros H. apply andb_true_iff in H. destruct H as [Ha Hs].
  rewrite (IH Hs). apply negb_true_iff in Ha.
  destruct s; [now rewrite Ha | reflexivity].
Qed.

Lemma strip_id (s : string) :
  all_str (fun a => negb (is_space a)) s = true -> strip s = s.
Proof.
  intros H. unfold strip.
  destruct s as [| a s]; [reflexivity |].
  pose proof H as H'. simpl in H'. apply andb_true_iff in H'.
  destruct H' as [Ha _]. apply negb_true_iff in Ha.
  rewrite (lstrip_id a s Ha). now apply rstrip_id.
Qed.

Lemma blank_space (a : ascii) : is_blank a = true -> is_space a = true.
Proof. by_code_points a. Qed.

Lemma not_space_not_blank (a : ascii) :
  negb (is_space a) = true -> is_blank a = false.
Proof. by_code_points a. Qed.

Lemma rskip_id (s : string) :
  all_str (fun a => negb (is_space a)) s = true -> rskip s = s.
Proof.
  induction s as [| a s IH]; simpl; [reflexivity |].
  intros H. apply andb_true_iff in H. destruct H as [Ha Hs].
  rewrite (IH Hs). apply not_space_not_blank in Ha.
  destruct s; [now rewrite Ha | reflexivity].
Qed.

(** A string without whitespace is what [int] and [float] read of it. *)
Lemma trim_id (s : string) :
  all_str (fun a => negb (is_space a)) s = true -> trim s = s.
Proof.
  intros H. unfold trim.
  destruct s as [| a s]; [reflexivity |].
  pose proof H as H'. simpl in H'. apply andb_true_iff in H'.
  destruct H' as [Ha _]. apply not_space_not_blank in Ha.
  cbn [lskip]. rewrite Ha. now apply rskip_id.
Qed.

Lemma rskip_nil_iff (s : string) :
  rskip s = "" <-> all_str is_blank s = true.
Proof.
  induction s as [| a s IH]; simpl; [tauto |].
  destruct (rskip s) as [| b r] eqn:E.
  - destruct (is_blank a); simpl.
    + split; intros _; [now apply IH | reflexivity].
    + split; discriminate.
  - split; [discriminate |].
    intros H. apply andb_true_iff in H. destruct H as [_ H].
    apply IH in H. discriminate.
Qed.

Lemma digits_no_space (s : string) :
  all_str is_digit s = true -> all_str (fun a => negb (is_space a)) s = true.
Proof.
  apply all_str_impl. intros a Ha. now rewrite (digit_not_space a Ha).
Qed.

Lemma digitpart_from_digits (s : string) :
  all_str is_digit s = true -> digitpart_from true s = true.
Proof.
  induction s as [| a s IH]; simpl; [reflexivity |].
  intros H. apply andb_true_iff in H. destruct H as [Ha Hs].
  rewrite Ha. now apply IH.
Qed.

Lemma digitpart_digits (s : string) :
  s <> "" -> all_str is_digit s = true -> digitpart s = true.
Proof.
  destruct s as [| a s]; [contradiction |].
  intros _ H. simpl in H. apply andb_true_iff in H. destruct H as [Ha Hs].
  unfold digitpart. simpl. rewrite Ha. now apply digitpart_from_digits.
Qed.

Lemma filter_digits (s : string) :
  all_str is_digit s = true -> filter_str is_digit s = s.
Proof.
  induction s as [| a s IH]; simpl; [reflexivity |].
  intros H. apply andb_true_iff in H. destruct H as [Ha Hs].
  now rewrite Ha, IH.
Qed.

Lemma take_sign_digit (a : ascii) (s : string) :
  is_digit a = true -> take_sign (String a s) = (false, String a s).
Proof.
  intros Ha. destruct (digit_not_sign a Ha) as [H1 H2].
  simpl. now rewrite H1, H2.
Qed.

(** [int] of a non-empty string of digits is the number it writes. *)
Lemma pyint_digits (s : string) :
  s <> "" -> all_str is_digit s = true -> pyint s = Ok (digits_value s).
Proof.
  intros Hne Hd. unfold pyint.
  rewrite trim_id by now apply digits_no_space.
  destruct s as [| a s]; [contradiction |].
  pose proof Hd as Hd'. simpl in Hd'. apply andb_true_iff in Hd'.
  destruct Hd' as [Ha _].
  rewrite (take_sign_digit a s Ha).
  rewrite digitpart_digits by assumption.
  unfold digitpart_value. now rewrite filter_digits.
Qed.

Lemma digit_plain (a : ascii) : is_digit a = true -> is_plain a = true.
Proof. unfold is_plain. now intros ->. Qed.

Lemma plain_lower (a : ascii) : is_plain a = true -> lower_char a = a.
Proof. by_code_points a. Qed.

Lemma plain_not_d (a : ascii) : is_plain a = true -> Ascii.eqb a "d" = false.
Proof. by_code_points a. Qed.

Lemma plain_not_is_e (a : ascii) : is_plain a = true -> is_e a = false.
Proof. by_code_points a. Qed.

Lemma plain_not_space (a : ascii) : is_plain a = true -> is_space a = false.
Proof. by_code_points a. Qed.

Lemma digit_not_dot (a : ascii) : is_digit a = true -> is_dot a = false.
Proof. by_code_points a. Qed.

Lemma marker_to_e (a : ascii) :
  is_marker a = true ->
  (Ascii.eqb (lower_char a) "e" || Ascii.eqb (lower_char a) "d" = true)
  /\ (if Ascii.eqb (lower_char a) "d" then "e"%char else lower_char a) = "e"%char.
Proof. by_code_points a. Qed.

Lemma map_str_app (f : ascii -> ascii) (a b : string) :
  map_str f (a ++ b) = map_str f a ++ map_str f b.
Proof. induction a as [| x a IH]; simpl; [reflexivity | now rewrite IH]. Qed.

Lemma map_str_id (f : ascii -> ascii) (p : ascii -> bool) (s : string) :
  (forall a, p a = true -> f a = a) -> all_str p s = true -> map_str f s = s.
Proof.
  intros Hf. induction s as [| x s IH]; simpl; [reflexivity |].
  intros H. apply andb_true_iff in H. destruct H as [Hx Hs].
  now rewrite (Hf _ Hx), IH.
Qed.

Lemma lower_plain (s : string) : all_str is_plain s = true -> lower s = s.
Proof. apply map_str_id. apply plain_lower. Qed.

Lemma translate_plain (s : string) :
  all_str is_plain s = true -> translate1 "d" "e" s = s.
Proof.
  apply map_str_id. intros a Ha. now rewrite (plain_not_d a Ha).
Qed.

Lemma digits_plain (s : string) :
  all_str is_digit s = true -> all_str is_plain s = true.
Proof. apply all_str_impl. apply digit_plain. Qed.

Lemma split_none (sep : ascii) (a : string) :
  contains sep a = false -> split sep a = [a].
Proof.
  induction a as [| x a IH]; simpl; [reflexivity |].
  intros H. apply orb_false_iff in H. destruct H as [Hx Ha].
  now rewrite Hx, (IH Ha).
Qed.

Lemma split_cons (sep : ascii) (a b : string) :
  contains sep a = false -> split sep (a ++ String sep b) = a :: split sep b.
Proof.
  induction a as [| x a IH]; simpl.
  - intros _. now rewrite Ascii.eqb_refl.
  - intros H. apply orb_false_iff in H. destruct H as [Hx Ha].
    now rewrite Hx, (IH Ha).
Qed.

Lemma cut_none (p : ascii -> bool) (a : string) :
  all_str (fun c => negb (p c)) a = true -> cut p a = (a, None).
Proof.
  induction a as [| x a IH]; simpl; [reflexivity |].
  intros H. apply andb_true_iff in H. destruct H as [Hx Ha].
  apply negb_true_iff in Hx. now rewrite Hx, (IH Ha).
Qed.

Lemma cut_at (p : ascii -> bool) (a : string) (c : ascii) (b : string) :
  all_str (fun c => negb (p c)) a = true -> p c = true ->
  cut p (a ++ String c b) = (a, Some b).
Proof.
  intros Ha Hc. induction a as [| x a IH]; simpl.
  - now rewrite Hc.
  - simpl in Ha. apply andb_true_iff in Ha. destruct Ha as [Hx Ha].
    apply negb_true_iff in Hx. now rewrite Hx, (IH Ha).
Qed.

Lemma take_drop (n : nat) (s : string) : take n s ++ drop n s = s.
Proof.
  revert s. induction n as [| n IH]; intros [| a s]; simpl;
    try reflexivity. now rewrite IH.
Qed.

Lemma all_str_take (p : ascii -> bool) (n : nat) (s : string) :
  all_str p s = true -> all_str p (take n s) = true.
Proof.
  revert s. induction n as [| n IH]; intros [| a s]; simpl;
    try reflexivity.
  intros H. apply andb_true_iff in H. destruct H as [Ha Hs].
  now rewrite Ha, IH.
Qed.

Lemma all_str_drop (p : ascii -> bool) (n : nat) (s : string) :
  all_str p s = true -> all_str p (drop n s) = true.
Proof.
  revert s. induction n as [| n IH]; intros [| a s]; simpl;
    try reflexivity; try tauto.
  intros H. apply andb_true_iff in H. destruct H as [Ha Hs].
  now apply IH.
Qed.

Lemma length_take (n : nat) (s : string) :
  String.length (take n s) = Nat.min n (String.length s).
Proof.
  revert s. induction n as [| n IH]; intros [| a s]; simpl;
    try reflexivity. now rewrite IH.
Qed.

Lemma take_all (n : nat) (s : string) :
  (String.length s <= n)%nat -> take n s = s.
Proof.
  revert s. induction n as [| n IH]; intros [| a s]; simpl;
    try reflexivity; try lia.
  intros H. rewrite IH; [reflexivity | lia].
Qed.

(** *** The value of a string of digits *)

Lemma digit_val_range (a : ascii) : is_digit a = true -> 0 <= digit_val a <= 9.
Proof.
  unfold is_digit, digit_val. intros H.
  apply andb_true_iff in H. destruct H as [H1 H2]. lia.
Qed.

Lemma digits_value_from_app (a b : string) :
  forall acc,
    digits_value_from acc (a ++ b) = digits_value_from (digits_value_from acc a) b.
Proof. induction a as [| x a IH]; intros acc; simpl; [reflexivity | apply IH]. Qed.

Lemma digits_value_from_acc (b : string) :
  forall acc,
    digits_value_from acc b
    = acc * 10 ^ Z.of_nat (String.length b) + digits_value_from 0 b.
Proof.
  induction b as [| x b IH]; intros acc.
  - simpl. lia.
  - cbn [digits_value_from String.length].
    rewrite (IH (10 * acc + digit_val x)), (IH (10 * 0 + digit_val x)).
    rewrite Nat2Z.inj_succ, Z.pow_succ_r by lia. ring.
Qed.

Lemma digits_value_app (a b : string) :
  digits_value (a ++ b)
  = digits_value a * 10 ^ Z.of_nat (String.length b) + digits_value b.
Proof.
  unfold digits_value.
  now rewrite digits_value_from_app, digits_value_from_acc.
Qed.

Lemma digits_value_range (b : string) :
  all_str is_digit b = true ->
  0 <= digits_value b < 10 ^ Z.of_nat (String.length b).
Proof.
  induction b as [| x b IH]; intros H.
  - simpl. unfold digits_value. simpl. lia.
  - simpl in H. apply andb_true_iff in H. destruct H as [Hx Hb].
    change (String x b) with (String x "" ++ b).
    rewrite digits_value_app.
    change (digits_value (String x "")) with (10 * 0 + digit_val x).
    pose proof (digit_val_range x Hx). specialize (IH Hb).
    change (String.length (String x "" ++ b)) with (S (String.length b)).
    rewrite Nat2Z.inj_succ, Z.pow_succ_r by lia. nia.
Qed.

End StrFacts.

(** ** interesting_lines *)

Module LinesFacts.

Import StrFacts.

Lemma bad_marker_iff (c : string) :
  bad_marker c = true <-> whitespace_only c \/ begins_with_whitespace c.
Proof.
  unfold bad_marker, whitespace_only.
  rewrite orb_true_iff, String.eqb_eq, strip_nil_iff, negb_true_iff.
  split.
  - intros [H | H]; [now left |].
    destruct c as [| a c']; [now left |].
    right. simpl. destruct (is_space a) eqn:Ha; [reflexivity |].
    exfalso. unfold strip in H. simpl lstrip in H. rewrite Ha in H.
    now rewrite rstrip_prefix in H.
  - intros [H | H]; [now left |].
    destruct c as [| a c']; [contradiction |]. simpl in H.
    destruct (all_str is_space (String a c')) eqn:Hall; [now left |].
    right. unfold strip.
    destruct (lstrip (String a c')) as [| b r] eqn:E.
    + apply lstrip_nil_iff in E. congruence.
    + pose proof (lstrip_head _ _ _ E) as Hb.
      destruct (rstrip_head b r Hb) as [r' ->].
      simpl. destruct (Ascii.eqb_spec a b) as [-> |]; [congruence | reflexivity].
Qed.

Lemma check_markers_bad (cc : list string) :
  (exists c, In c cc /\ bad_marker c = true) ->
  exists c, In c cc /\ bad_marker c = true
            /\ check_markers (map MStr cc) = Raise (ValueError (complaint c)).
Proof.
  induction cc as [| c cc IH]; intros [c0 [Hin Hbad]]; [contradiction |].
  simpl. destruct (bad_marker c) eqn:Hc.
  - exists c. simpl. auto.
  - destruct Hin as [-> | Hin]; [congruence |].
    destruct IH as [c1 [Hin1 [Hbad1 Hraise]]]; [eauto |].
    exists c1. simpl. auto.
Qed.

Lemma check_markers_good (cc : list string) :
  (forall c, In c cc -> bad_marker c = false) ->
  check_markers (map MStr cc) = Ok tt.
Proof.
  induction cc as [| c cc IH]; intros H; [reflexivity |].
  simpl. rewrite (H c) by now left.
  apply IH. intros c' Hin. apply H. now right.
Qed.

(** For [None], a string and a tuple, [cc] is the strings given. *)
Lemma markers_supplied (comments : comments_arg) :
  is_tuple_or_str comments -> markers comments = map MStr (supplied comments).
Proof. destruct comments; simpl; intros H; try reflexivity; contradiction. Qed.

Lemma is_comment_supplied (comments : comments_arg) (ln : string) :
  is_tuple_or_str comments ->
  is_comment comments ln = Ok (existsb (startswith ln) (supplied comments)).
Proof.
  destruct comments; simpl; intros H; try reflexivity; [| contradiction].
  now rewrite orb_false_r.
Qed.

(** A run that ends without exception had [None], a string or a tuple. *)
Lemma check_markers_Ok (comments : comments_arg) :
  check_markers (markers comments) = Ok tt -> is_tuple_or_str comments.
Proof. destruct comments; simpl; try exact (fun _ => I). discriminate. Qed.

(** *** Lines that start with a marker *)

Lemma startswith_iff (ln c : string) :
  startswith ln c = true <-> starts_with c ln.
Proof.
  unfold starts_with. revert ln.
  induction c as [| b c IH]; intros ln; simpl.
  - split; [intros _; now exists ln | reflexivity].
  - destruct ln as [| a ln].
    + split; [discriminate | intros [rest H]; discriminate].
    + rewrite andb_true_iff, Ascii.eqb_eq, IH. split.
      * intros [-> [rest ->]]. now exists rest.
      * intros [rest H]. injection H as -> ->. split; [reflexivity | now exists rest].
Qed.

Lemma marked_iff (cc : list string) (ln : string) :
  existsb (startswith ln) cc = true <-> is_marked cc ln.
Proof.
  unfold is_marked. rewrite existsb_exists.
  split; intros [c [Hin H]]; exists c; (split; [exact Hin |]);
    now apply startswith_iff.
Qed.

Lemma kept_remains (cc : list string) (lines : list string) :
  remains cc lines (kept_lines cc lines).
Proof.
  unfold kept_lines.
  induction lines as [| l lines IH]; [constructor |].
  cbn [map filter].
  destruct (String.eqb_spec (strip l) "") as [E | E]; cbn [negb andb].
  - now apply remains_blank.
  - destruct (existsb (startswith (strip l)) cc) eqn:M; cbn [negb].
    + apply remains_comment; [exact E | now apply marked_iff | exact IH].
    + apply remains_line; [exact E | | exact IH].
      intros H. apply marked_iff in H. congruence.
Qed.

(** The lines that remain are determined by the input. *)
Lemma remains_functional (cc : list string) (lines out1 : list string) :
  remains cc lines out1 -> forall out2, remains cc lines out2 -> out1 = out2.
Proof.
  induction 1 as [| l lines out1 Hb H1 IH | l lines out1 Hn Hm H1 IH
                  | l lines out1 Hn Hm H1 IH];
    intros out2 H2; inversion H2; subst;
    try contradiction; try congruence; auto.
  f_equal. auto.
Qed.

(** One run of the second loop: either the next kept line, or the end. *)
Lemma scan_spec (comments : comments_arg) (lines : list string) :
  is_tuple_or_str comments ->
  match scan comments lines with
  | (Yield ln, st, rest) =>
      st = InLoop
      /\ kept_lines (supplied comments) lines
         = ln :: kept_lines (supplied comments) rest
      /\ (List.length rest < List.length lines)%nat
  | (StopIteration, st, rest) =>
      st = Finished /\ kept_lines (supplied comments) lines = [] /\ rest = []
  | (Raised _, _, _) => False
  end.
Proof.
  intros Ht.
  induction lines as [| l lines IH]; simpl; [auto |].
  unfold kept_lines in *. simpl.
  rewrite (is_comment_supplied comments (strip l) Ht).
  destruct (String.eqb (strip l) "") eqn:E1; simpl.
  - destruct (scan comments lines) as [[[ln | | e] st] rest]; simpl in *;
      intuition lia.
  - destruct (existsb (startswith (strip l)) (supplied comments)) eqn:E2; simpl.
    + destruct (scan comments lines) as [[[ln | | e] st] rest]; simpl in *;
        intuition lia.
    + repeat split. lia.
Qed.

Lemma drain_in_loop (comments : comments_arg) (fuel : nat) :
  is_tuple_or_str comments ->
  forall lines,
    (List.length lines < fuel)%nat ->
    drain fuel comments InLoop lines
    = Some (kept_lines (supplied comments) lines, None).
Proof.
  intros Ht.
  induction fuel as [| fuel IH]; intros lines Hlen; [lia |].
  simpl. pose proof (scan_spec comments lines Ht) as Hs.
  destruct (scan comments lines) as [[[ln | | e] st] rest].
  - destruct Hs as [-> [-> Hlt]].
    rewrite IH by lia. reflexivity.
  - destruct Hs as [_ [-> _]]. reflexivity.
  - contradiction.
Qed.

Lemma drain_created_good (comments : comments_arg) (fuel : nat) (lines : list string) :
  check_markers (markers comments) = Ok tt ->
  (List.length lines < fuel)%nat ->
  drain fuel comments Created lines
  = Some (kept_lines (supplied comments) lines, None).
Proof.
  intros Hok Hlen.
  pose proof (check_markers_Ok comments Hok) as Ht.
  destruct fuel as [| fuel]; [lia |].
  simpl. rewrite Hok.
  pose proof (scan_spec comments lines Ht) as Hs.
  destruct (scan comments lines) as [[[ln | | e] st] rest].
  - destruct Hs as [-> [-> Hlt]].
    rewrite (drain_in_loop comments fuel Ht) by lia. reflexivity.
  - destruct Hs as [_ [-> _]]. reflexivity.
  - contradiction.
Qed.

(** With [None], one marker or a tuple of markers: when some marker is
    whitespace-only (the empty marker included) or begins with whitespace,
    the first [next] raises ValueError for such a marker, with no line
    read from the input and none yielded.  Otherwise the generator yields
    what remains of the lines (each stripped, without the blank ones and
    those that start with a marker, in order) and then stops. *)
Lemma interesting_lines_spec (comments : comments_arg) (lines : list string) :
  is_tuple_or_str comments ->
  ((exists c, In c (supplied comments)
              /\ (whitespace_only c \/ begins_with_whitespace c)) ->
   exists c, In c (supplied comments)
             /\ (whitespace_only c \/ begins_with_whitespace c)
             /\ next comments Created lines
                = (Raised (ValueError (complaint c)), Finished, lines)
             /\ forall fuel,
                 drain (S fuel) comments Created lines
                 = Some ([], Some (ValueError (complaint c))))
  /\ ((forall c, In c (supplied comments) ->
                 ~ (whitespace_only c \/ begins_with_whitespace c)) ->
      forall fuel, (List.length lines < fuel)%nat ->
        exists out,
          drain fuel comments Created lines = Some (out, None)
          /\ remains (supplied comments) lines out
          /\ forall out', remains (supplied comments) lines out' -> out' = out).
Proof.
  intros Ht. pose proof (markers_supplied comments Ht) as Hm.
  split.
  - intros [c [Hin Hbad]].
    destruct (check_markers_bad (supplied comments)) as [c1 [Hin1 [Hbad1 Hraise]]].
    { exists c. split; [exact Hin | now apply bad_marker_iff]. }
    exists c1. split; [exact Hin1 |].
    split; [now apply bad_marker_iff |].
    split.
    + unfold next. now rewrite Hm, Hraise.
    + intros fuel. simpl. now rewrite Hm, Hraise.
  - intros Hgood fuel Hlen.
    exists (kept_lines (supplied comments) lines).
    split; [| split].
    + apply drain_created_good; [| exact Hlen].
      rewrite Hm. apply check_markers_good. intros c Hin.
      destruct (bad_marker c) eqn:Hb; [| reflexivity].
      exfalso. apply (Hgood c Hin). now apply bad_marker_iff.
    + apply kept_remains.
    + intros out' H. symmetry.
      exact (remains_functional _ _ _ (kept_remains _ _) out' H).
Qed.

(** Two runs: with the marker "#", the lines "  ",
    "# comment" and "data" yield "data" alone; with the marker " #" the
    first [next] raises ValueError and reads nothing. *)
Lemma interesting_lines_examples :
  drain 4 (Marker "#") Created ["  "; "# comment"; "data"] = Some (["data"], None)
  /\ next (Marker " #") Created ["  "; "# comment"; "data"]
     = (Raised (ValueError (complaint " #")), Finished, ["  "; "# comment"; "data"]).
Proof. split; reflexivity. Qed.

(** C8, where it fails.  Markers given as a list are not accepted: the
    list is taken for one marker, and the first [next] raises
    AttributeError, whatever the markers and the lines are, with no line
    read and none yielded.  So with the marker "#" in a list the lines
    "  ", "# comment" and "data" yield nothing, where the same marker
    alone or in a tuple yields "data". *)
Theorem marker_list_refused (l lines : list string) :
  next (MarkerList l) Created lines = (Raised no_strip, Finished, lines)
  /\ (forall fuel,
        drain (S fuel) (MarkerList l) Created lines = Some ([], Some no_strip))
  /\ drain 4 (MarkerList ["#"]) Created ["  "; "# comment"; "data"]
     = Some ([], Some no_strip)
  /\ drain 4 (Markers ["#"]) Created ["  "; "# comment"; "data"]
     = Some (["data"], None).
Proof. repeat split. Qed.

End LinesFacts.

(** ** split_prefixed_name *)

Module PrefixFacts.

Import StrFacts.

Section Soundness.

Variable R : Type.

Lemma match_star_sound (c : charclass) (k : string -> string -> option R) :
  forall s taken r,
    match_star c k taken s = Some r ->
    exists t rest,
      s = t ++ rest /\ all_str (in_class c) t = true
      /\ k (taken ++ t) rest = Some r.
Proof.
  induction s as [| a s IH]; intros taken r H; simpl in H.
  - exists "", "". rewrite (app_nil_r taken). auto.
  - destruct (in_class c a) eqn:Ha.
    + destruct (match_star c k (snoc taken a) s) as [r' |] eqn:Hrec.
      * injection H as ->.
        destruct (IH _ _ Hrec) as [t [rest [-> [Hall Hk]]]].
        exists (String a t), rest. simpl. rewrite Ha, Hall.
        rewrite snoc_app in Hk. auto.
      * exists "", (String a s). rewrite (app_nil_r taken). auto.
    + exists "", (String a s). rewrite (app_nil_r taken). auto.
Qed.

Lemma match_pieces_sound (ps : list piece) :
  forall (k : string -> string -> option R) taken s r,
    match_pieces ps k taken s = Some r ->
    exists t rest,
      s = t ++ rest /\ matches ps t /\ k (taken ++ t) rest = Some r.
Proof.
  induction ps as [| p ps IH]; intros k taken s r H; simpl in H.
  - exists "", s. rewrite (app_nil_r taken). repeat split; [constructor | exact H].
  - destruct p as [c | c | b]; simpl in H.
    + apply match_star_sound in H.
      destruct H as [t1 [rest1 [-> [Hall H]]]].
      apply IH in H. destruct H as [t2 [rest [-> [Hm Hk]]]].
      exists (t1 ++ t2), rest. rewrite !app_assoc in *.
      repeat split; [now constructor | exact Hk].
    + destruct s as [| a s]; [discriminate |].
      destruct (in_class c a) eqn:Ha; [| discriminate].
      apply match_star_sound in H.
      destruct H as [t1 [rest1 [-> [Hall H]]]].
      apply IH in H. destruct H as [t2 [rest [-> [Hm Hk]]]].
      exists (String a t1 ++ t2), rest.
      rewrite snoc_app in Hk. rewrite app_assoc in Hk. simpl.
      rewrite !app_assoc.
      repeat split; [| exact Hk].
      apply (matches_plus c (String a t1) t2 ps); [discriminate | | exact Hm].
      simpl. now rewrite Ha.
    + destruct s as [| a s]; [discriminate |].
      destruct (Ascii.eqb_spec a b) as [-> | Hab]; [| discriminate].
      apply IH in H. destruct H as [t2 [rest [-> [Hm Hk]]]].
      exists (String b t2), rest.
      rewrite snoc_app in Hk.
      repeat split; [now constructor | exact Hk].
Qed.

End Soundness.

Lemma at_end_cases (s : string) :
  at_end s = true -> s = "" \/ s = String newline "".
Proof.
  destruct s as [| a [| b s]]; simpl; try discriminate; [now left |].
  intros H. apply Ascii.eqb_eq in H. subst. now right.
Qed.

(** A match splits the name into the two groups and what [$] allows after
    them. *)
Lemma re_match_sound (pt : pattern) (name g1 g2 : string) :
  re_match pt name = Some (g1, g2) ->
  exists tail,
    name = g1 ++ g2 ++ tail /\ (tail = "" \/ tail = String newline "")
    /\ matches (group1 pt) g1 /\ matches (group2 pt) g2.
Proof.
  unfold re_match. intros H.
  apply match_pieces_sound in H.
  destruct H as [t1 [rest1 [-> [Hm1 H]]]].
  apply match_pieces_sound in H.
  destruct H as [t2 [rest2 [-> [Hm2 H]]]].
  simpl in H.
  destruct (at_end rest2) eqn:Hend; [| discriminate].
  injection H as <- <-.
  exists rest2. repeat split; auto using at_end_cases.
Qed.

Lemma matches_nil_inv (t : string) : matches [] t -> t = "".
Proof. now inversion 1. Qed.

Lemma matches_plus_digit (t : string) :
  matches [Plus Digit] t -> t <> "" /\ all_str is_digit t = true.
Proof.
  inversion 1 as [| | c t1 t2 ps Hne Hall Hrest |]; subst.
  apply matches_nil_inv in Hrest. subst. rewrite app_nil_r. auto.
Qed.

Lemma matches_avoids (c : ascii) (ps : list piece) (t : string) :
  matches ps t -> forallb (avoids c) ps = true -> contains c t = false.
Proof.
  induction 1 as [| cl t1 t2 ps Hall Hm IH | cl t1 t2 ps Hne Hall Hm IH
                  | a t2 ps Hm IH]; simpl; intros Hav;
    [reflexivity | | |];
    apply andb_true_iff in Hav; destruct Hav as [Hp Hps];
    apply negb_true_iff in Hp.
  - rewrite contains_app, (IH Hps), orb_false_r.
    now apply (contains_all_str c (in_class cl)).
  - rewrite contains_app, (IH Hps), orb_false_r.
    now apply (contains_all_str c (in_class cl)).
  - now rewrite Hp, (IH Hps).
Qed.

Lemma matches_underscore_group (t : string) :
  matches [Plus AlphaNum; Lit "_"] t -> contains "_" t = true.
Proof.
  inversion 1 as [| | c t1 t2 ps Hne Hall Hrest |]; subst.
  inversion Hrest; subst.
  rewrite contains_app. simpl. apply orb_true_r.
Qed.

Lemma contains_tail (c : ascii) (tail : string) :
  c <> newline -> tail = "" \/ tail = String newline "" ->
  contains c tail = false.
Proof.
  intros Hc [-> | ->]; [reflexivity |].
  change (contains c (String newline "")) with (Ascii.eqb newline c || false).
  apply not_eq_sym in Hc. apply Ascii.eqb_neq in Hc. now rewrite Hc.
Qed.

(** What the function makes of a match it accepts. *)
Lemma accepted (pt : pattern) (name g1 g2 : string) :
  group2 pt = [Plus Digit] ->
  re_match pt name = Some (g1, g2) ->
  (indexValue <- pyint g2 ;; Ok (g1, g2, indexValue)) = Ok (g1, g2, digits_value g2)
  /\ (name = g1 ++ g2 \/ name = g1 ++ g2 ++ String newline "")
  /\ g2 <> "" /\ all_str is_digit g2 = true.
Proof.
  intros Hg2 Hm.
  destruct (re_match_sound _ _ _ _ Hm) as [tail [Hname [Htail [_ Hm2]]]].
  rewrite Hg2 in Hm2. apply matches_plus_digit in Hm2.
  destruct Hm2 as [Hne Hd].
  rewrite (pyint_digits g2 Hne Hd), bind_Ok.
  repeat split; auto.
  destruct Htail as [-> | ->]; [left | right]; [| exact Hname].
  now rewrite app_nil_r in Hname.
Qed.

(** A name that the first or the second pattern matches has no
    underscore. *)
Lemma no_underscore (pt : pattern) (name g1 g2 : string) :
  forallb (avoids "_") (group1 pt) = true ->
  forallb (avoids "_") (group2 pt) = true ->
  re_match pt name = Some (g1, g2) ->
  contains "_" name = false.
Proof.
  intros H1 H2 Hm.
  destruct (re_match_sound _ _ _ _ Hm) as [tail [-> [Htail [Hm1 Hm2]]]].
  rewrite !contains_app.
  rewrite (matches_avoids _ _ _ Hm1 H1), (matches_avoids _ _ _ Hm2 H2).
  rewrite contains_tail; [reflexivity | discriminate | exact Htail].
Qed.

(** What the function does with every name: either some pattern matches
    and it returns [(prefix, indexString, indexValue)], where
    [indexString] is a non-empty string of digits, [indexValue] is the
    number it writes (leading zeros dropped), and [prefix + indexString] is
    the name, or the name without its last character when that is a
    newline; or no pattern matches and PrefixError is raised with the name
    in its message.  The examples evaluate as the docstring says. *)
Theorem split_prefixed_name_spec (name : string) :
  ((exists prefix index,
      split_prefixed_name name = Ok (prefix, index, digits_value index)
      /\ (name = prefix ++ index \/ name = prefix ++ index ++ String newline "")
      /\ index <> "" /\ all_str is_digit index = true
      /\ exists pt, In pt prefixPattern /\ re_match pt name = Some (prefix, index))
   \/ ((forall pt, In pt prefixPattern -> re_match pt name = None)
       /\ split_prefixed_name name = Raise (unrecognized name)))
  /\ split_prefixed_name "DMX_0123" = Ok ("DMX_", "0123", 123)
  /\ split_prefixed_name "T2EFAC17" = Ok ("T2EFAC", "17", 17)
  /\ split_prefixed_name "F12" = Ok ("F", "12", 12)
  /\ split_prefixed_name "PEPOCH" = Raise (unrecognized "PEPOCH").
Proof.
  split; [| repeat split; reflexivity].
  unfold split_prefixed_name, prefixPattern. simpl for_patterns.
  set (p1 := mkPattern [Star Alpha; Plus Digit; Plus Alpha] [Plus Digit]).
  set (p2 := mkPattern [Plus Alpha] [Plus Digit]).
  set (p3 := mkPattern [Plus AlphaNum; Lit "_"] [Plus Digit]).
  destruct (re_match p1 name) as [[g1 g2] |] eqn:E1.
  { left. exists g1, g2.
    rewrite (no_underscore p1 name g1 g2 eq_refl eq_refl E1).
    destruct (accepted p1 name g1 g2 eq_refl E1) as [Hr [Hn [Hne Hd]]].
    repeat split; auto. exists p1. simpl. auto. }
  destruct (re_match p2 name) as [[g1 g2] |] eqn:E2.
  { left. exists g1, g2.
    rewrite (no_underscore p2 name g1 g2 eq_refl eq_refl E2).
    destruct (accepted p2 name g1 g2 eq_refl E2) as [Hr [Hn [Hne Hd]]].
    repeat split; auto. exists p2. simpl. auto. }
  destruct (re_match p3 name) as [[g1 g2] |] eqn:E3.
  { left. exists g1, g2.
    destruct (re_match_sound _ _ _ _ E3) as [tail [_ [_ [Hm1 _]]]].
    simpl in Hm1. rewrite (matches_underscore_group g1 Hm1).
    destruct (accepted p3 name g1 g2 eq_refl E3) as [Hr [Hn [Hne Hd]]].
    assert (Hres : (if contains "_" name then Some (g1, g2) else Some (g1, g2))
                   = Some (g1, g2)) by now destruct (contains "_" name).
    rewrite Hres.
    repeat split; auto. exists p3. simpl. auto. }
  right. split; [| reflexivity].
  intros pt [<- | [<- | [<- | []]]]; assumption.
Qed.

(** A name that ends in a newline: [$] matches before it, so the two
    parts do not make up the name. *)
Lemma split_prefixed_name_newline :
  split_prefixed_name (String "F" (String "1" (String "2" (String newline ""))))
  = Ok ("F", "12", 12)
  /\ "F" ++ "12" <> String "F" (String "1" (String "2" (String newline ""))).
Proof. split; [reflexivity | discriminate]. Qed.

End PrefixFacts.

(** ** time_from_mjd_string *)

Module TimeFacts.

Import StrFacts.

Lemma numchar_lower (a : ascii) : is_numchar a = true -> lower_char a = a.
Proof. by_code_points a. Qed.

Lemma numchar_not_space (a : ascii) :
  is_numchar a = true -> negb (is_space a) = true.
Proof. by_code_points a. Qed.

Lemma plain_numchar (a : ascii) : is_plain a = true -> is_numchar a = true.
Proof. unfold is_numchar. now intros ->. Qed.

Lemma plain_not_is_e' (a : ascii) : is_plain a = true -> negb (is_e a) = true.
Proof. intros H. now rewrite (plain_not_is_e a H). Qed.

Lemma digit_not_dot' (a : ascii) : is_digit a = true -> negb (is_dot a) = true.
Proof. intros H. now rewrite (digit_not_dot a H). Qed.

Lemma sign_text_plain (sg : sign) : all_str is_plain (sign_text sg) = true.
Proof. now destruct sg. Qed.

Lemma frac_text_plain (point : option string) :
  frac_ok point -> all_str is_plain (frac_text point) = true.
Proof.
  destruct point as [fp |]; unfold frac_ok; simpl; [| reflexivity].
  apply digits_plain.
Qed.

Lemma number_text_plain (sg : sign) (ip : string) (point : option string) :
  all_str is_digit ip = true -> frac_ok point ->
  all_str is_plain (number_text sg ip point) = true.
Proof.
  intros Hip Hfp. unfold number_text.
  now rewrite !all_str_app, sign_text_plain, (digits_plain ip Hip),
    (frac_text_plain point Hfp).
Qed.

Lemma exponent_text_plain (sg : sign) (ds : string) :
  all_str is_digit ds = true -> all_str is_plain (sign_text sg ++ ds) = true.
Proof.
  intros H. now rewrite all_str_app, sign_text_plain, (digits_plain ds H).
Qed.

(** *** [int] and [float] on these strings *)

Lemma start_not_sign (a : ascii) :
  is_digit a || is_dot a = true ->
  Ascii.eqb a "-" = false /\ Ascii.eqb a "+" = false
  /\ Ascii.eqb a "i" = false /\ Ascii.eqb a "n" = false.
Proof. by_code_points a. Qed.

Lemma take_sign_start (sg : sign) (a : ascii) (s : string) :
  is_digit a || is_dot a = true ->
  take_sign (sign_text sg ++ String a s) = (is_minus sg, String a s).
Proof.
  intros Ha. destruct (start_not_sign a Ha) as [H1 [H2 _]].
  destruct sg; simpl sign_text; simpl append; [| reflexivity | reflexivity].
  simpl. now rewrite H1, H2.
Qed.

Lemma take_sign_text (sg : sign) (a : ascii) (s : string) :
  is_digit a = true ->
  take_sign (sign_text sg ++ String a s) = (is_minus sg, String a s).
Proof. intros Ha. apply take_sign_start. now rewrite Ha. Qed.

(** A number starts with a digit or with the point. *)
Lemma number_start (ip : string) (point : option string) :
  has_digit ip point -> all_str is_digit ip = true ->
  exists a b, ip ++ frac_text point = String a b
              /\ is_digit a || is_dot a = true.
Proof.
  intros Hd Hip. destruct ip as [| a ip'].
  - destruct Hd as [Hd | Hd]; [contradiction |].
    destruct point as [fp |]; [| contradiction].
    exists "."%char, fp. split; reflexivity.
  - simpl in Hip. apply andb_true_iff in Hip. destruct Hip as [Ha _].
    exists a, (ip' ++ frac_text point). split; [reflexivity | now rewrite Ha].
Qed.

Lemma pyint_signed (sg : sign) (ds : string) :
  ds <> "" -> all_str is_digit ds = true ->
  pyint (sign_text sg ++ ds) = Ok (signed sg (digits_value ds)).
Proof.
  intros Hne Hd. unfold pyint.
  rewrite trim_id.
  - destruct ds as [| a ds]; [contradiction |].
    pose proof Hd as Hd'. simpl in Hd'. apply andb_true_iff in Hd'.
    destruct Hd' as [Ha _].
    rewrite (take_sign_text sg a ds Ha).
    rewrite digitpart_digits by assumption.
    unfold digitpart_value, signed. now rewrite filter_digits.
  - apply (all_str_impl is_plain).
    + intros a Ha. now rewrite (plain_not_space a Ha).
    + now apply exponent_text_plain.
Qed.

Lemma digitpart_or_empty (s : string) :
  all_str is_digit s = true -> digitpart s || String.eqb s "" = true.
Proof.
  intros H. destruct s as [| a s]; [reflexivity |].
  rewrite digitpart_digits; [reflexivity | discriminate | exact H].
Qed.

Lemma parse_number_text (ip : string) (point : option string) :
  has_digit ip point -> all_str is_digit ip = true -> frac_ok point ->
  parse_number (ip ++ frac_text point) = Some (ip, frac_digits point).
Proof.
  intros Hd Hip Hfp. unfold parse_number.
  pose proof (all_str_impl _ _ ip digit_not_dot' Hip) as Hnd.
  destruct point as [fp |]; simpl frac_text; simpl frac_digits.
  - change ("." ++ fp) with (String "." fp).
    rewrite (cut_at is_dot ip "." fp Hnd eq_refl).
    unfold frac_ok in Hfp. simpl in Hfp.
    pose proof (digitpart_or_empty ip Hip) as Hi.
    pose proof (digitpart_or_empty fp Hfp) as Hf.
    destruct (digitpart fp) eqn:Dfp.
    + now rewrite Hi.
    + simpl in Hf. rewrite Hf. apply String.eqb_eq in Hf. subst fp.
      destruct Hd as [Hd | Hd]; [| contradiction].
      now rewrite (digitpart_digits ip Hd Hip).
  - rewrite app_nil_r, (cut_none is_dot ip Hnd).
    destruct Hd as [Hd | Hd]; [| contradiction].
    now rewrite (digitpart_digits ip Hd Hip).
Qed.

Lemma parse_exponent_text (sg : sign) (ds : string) :
  ds <> "" -> all_str is_digit ds = true ->
  parse_exponent (Some (sign_text sg ++ ds)) = Some (signed sg (digits_value ds)).
Proof.
  intros Hne Hd. unfold parse_exponent.
  destruct ds as [| a ds]; [contradiction |].
  pose proof Hd as Hd'. simpl in Hd'. apply andb_true_iff in Hd'.
  destruct Hd' as [Ha _].
  rewrite (take_sign_text sg a ds Ha).
  rewrite digitpart_digits by assumption.
  unfold digitpart_value, signed. now rewrite filter_digits.
Qed.

(** [float] on a number whose exponent part is [rest]. *)
Lemma pyfloat_core (sg : sign) (ip : string) (point : option string)
  (rest : string) (exopt : option string) (e : Z) :
  has_digit ip point -> all_str is_digit ip = true -> frac_ok point ->
  all_str is_numchar rest = true ->
  cut is_e ((ip ++ frac_text point) ++ rest) = (ip ++ frac_text point, exopt) ->
  parse_exponent exopt = Some e ->
  pyfloat (sign_text sg ++ (ip ++ frac_text point) ++ rest)
  = Ok (decimal_float (is_minus sg) ip (frac_digits point) e).
Proof.
  intros Hd Hip Hfp Hrest Hcut Hexp.
  assert (Hbody : all_str is_numchar ((ip ++ frac_text point) ++ rest) = true).
  { rewrite !all_str_app, Hrest.
    rewrite (all_str_impl _ _ ip plain_numchar (digits_plain ip Hip)).
    now rewrite (all_str_impl _ _ _ plain_numchar (frac_text_plain point Hfp)). }
  unfold pyfloat.
  rewrite trim_id.
  2:{ apply (all_str_impl is_numchar); [apply numchar_not_space |].
      rewrite all_str_app, Hbody.
      now rewrite (all_str_impl _ _ _ plain_numchar (sign_text_plain sg)). }
  pose proof (parse_number_text ip point Hd Hip Hfp) as Hnum.
  destruct (number_start ip point Hd Hip) as [a [b [Hab Ha]]].
  rewrite Hab in *.
  change (String a b ++ rest) with (String a (b ++ rest)) in *.
  rewrite (take_sign_start sg a _ Ha).
  unfold lower. rewrite (map_str_id lower_char is_numchar _ numchar_lower Hbody).
  destruct (start_not_sign a Ha) as [_ [_ [Hi Hn]]].
  assert (E1 : String.eqb (String a (b ++ rest)) "inf" = false)
    by (simpl; now rewrite Hi).
  assert (E2 : String.eqb (String a (b ++ rest)) "infinity" = false)
    by (simpl; now rewrite Hi).
  assert (E3 : String.eqb (String a (b ++ rest)) "nan" = false)
    by (simpl; now rewrite Hn).
  rewrite E1, E2, E3. simpl orb. cbv iota.
  rewrite Hcut, Hnum, Hexp.
  unfold frac_ok in Hfp.
  rewrite (filter_digits _ Hip), (filter_digits _ Hfp).
  reflexivity.
Qed.

(** [float] on a number with an exponent, in lower case. *)
Lemma pyfloat_sci (sg : sign) (ip : string) (point : option string)
  (esg : sign) (ds : string) :
  has_digit ip point -> all_str is_digit ip = true -> frac_ok point ->
  ds <> "" -> all_str is_digit ds = true ->
  pyfloat (number_text sg ip point ++ String "e" (sign_text esg ++ ds))
  = Ok (decimal_float (is_minus sg) ip (frac_digits point)
                      (signed esg (digits_value ds))).
Proof.
  intros Hne Hip Hfp Hdne Hds. unfold number_text.
  rewrite (app_assoc (sign_text sg)).
  apply (pyfloat_core sg ip point _ (Some (sign_text esg ++ ds))); try assumption.
  - simpl. now rewrite (all_str_impl _ _ _ plain_numchar (exponent_text_plain esg ds Hds)).
  - apply cut_at; [| reflexivity].
    apply (all_str_impl is_plain); [apply plain_not_is_e' |].
    now rewrite all_str_app, (digits_plain ip Hip), (frac_text_plain point Hfp).
  - now apply parse_exponent_text.
Qed.

(** [float] on a number without exponent. *)
Lemma pyfloat_plain (ip fp : string) :
  ip <> "" -> all_str is_digit ip = true -> all_str is_digit fp = true ->
  pyfloat (ip ++ "." ++ fp) = Ok (decimal_float false ip fp 0).
Proof.
  intros Hne Hip Hfp.
  pose proof (pyfloat_core NoSign ip (Some fp) "" None 0 (or_introl Hne) Hip Hfp eq_refl) as H.
  simpl sign_text in H. simpl frac_text in H. simpl frac_digits in H.
  rewrite !app_nil_r in H. apply H; [| reflexivity].
  apply cut_none.
  apply (all_str_impl is_plain); [apply plain_not_is_e' |].
  rewrite all_str_app, (digits_plain ip Hip). simpl.
  now rewrite (digits_plain fp Hfp).
Qed.

(** *** The function on these strings *)

Lemma bindL_lift_Ok {A B : Type} (a : A) (k : A -> logged B) :
  bindL (lift (Ok a)) k = k a.
Proof. unfold bindL, lift. now destruct (k a). Qed.

(** Lower case, d to e, and the split at e. *)
Lemma sci_head (num ex : string) (mk : ascii) :
  all_str is_plain num = true -> all_str is_plain ex = true ->
  is_marker mk = true ->
  (contains "e" (lower (num ++ String mk ex))
   || contains "d" (lower (num ++ String mk ex))) = true
  /\ translate1 "d" "e" (lower (num ++ String mk ex)) = num ++ String "e" ex
  /\ split "e" (num ++ String "e" ex) = [num; ex].
Proof.
  intros Hnum Hex Hmk.
  destruct (marker_to_e mk Hmk) as [Hed Hto].
  assert (Hlow : lower (num ++ String mk ex) = num ++ String (lower_char mk) ex).
  { unfold lower. rewrite map_str_app. cbn [map_str].
    fold (lower num). fold (lower ex).
    now rewrite (lower_plain num Hnum), (lower_plain ex Hex). }
  rewrite Hlow. repeat split.
  - rewrite !contains_app. cbn [contains].
    apply orb_true_iff in Hed.
    destruct Hed as [H | H]; rewrite H; simpl;
      rewrite ?orb_true_r; reflexivity.
  - unfold translate1. rewrite map_str_app. cbn [map_str].
    fold (translate1 "d" "e" num). fold (translate1 "d" "e" ex).
    now rewrite (translate_plain num Hnum), (translate_plain ex Hex), Hto.
  - rewrite split_cons, split_none; [reflexivity | |];
      now apply (contains_all_str "e" is_plain).
Qed.

(** C5.  For a number in scientific notation whose exponent is negative
    (an optional sign, digits with or without a point, one of e, E, d, D,
    a minus sign and digits that are not all zero), the function does not
    raise: it logs the warning and returns the time with integer day 0
    and, as its fraction, the float of the whole string, i.e. the binary64
    number nearest to the decimal value written. *)
Theorem negative_exponent (sg : sign) (ip : string) (point : option string)
  (mk : ascii) (ds scale : string) :
  has_digit ip point -> all_str is_digit ip = true -> frac_ok point ->
  is_marker mk = true ->
  all_str is_digit ds = true -> 0 < digits_value ds ->
  let s := number_text sg ip point ++ String mk ("-" ++ ds) in
  let f := decimal_float (is_minus sg) ip (frac_digits point) (- digits_value ds) in
  pyfloat (number_text sg ip point ++ "e-" ++ ds) = Ok f
  /\ time_from_mjd_string s scale
     = ([warning s], Ok (mkTime 0 f scale "pulsar_mjd" 9)).
Proof.
  intros Hne Hip Hfp Hmk Hds Hpos s f.
  assert (Hdne : ds <> "") by (intros ->; vm_compute in Hpos; discriminate).
  pose proof (number_text_plain sg ip point Hip Hfp) as Hnum.
  pose proof (exponent_text_plain MinusSign ds Hds) as Hex.
  destruct (sci_head _ _ mk Hnum Hex Hmk) as [Hc [Ht Hs]].
  pose proof (pyfloat_sci sg ip point MinusSign ds Hne Hip Hfp Hdne Hds) as Hf.
  change (sign_text MinusSign ++ ds) with ("-" ++ ds) in *.
  change (signed MinusSign (digits_value ds)) with (- digits_value ds) in Hf.
  split; [exact Hf |].
  unfold time_from_mjd_string. cbv zeta. subst s.
  rewrite Hc, Ht, Hs. cbn [unpack2].
  rewrite bindL_lift_Ok. cbv beta iota.
  pose proof (pyint_signed MinusSign ds Hdne Hds) as Hi.
  change (sign_text MinusSign ++ ds) with ("-" ++ ds) in Hi.
  change (signed MinusSign (digits_value ds)) with (- digits_value ds) in Hi.
  rewrite Hi, bindL_lift_Ok.
  destruct (Z.ltb_spec (- digits_value ds) 0) as [_ | Hge]; [| lia].
  rewrite Hf. reflexivity.
Qed.

Lemma negative_exponent_witness :
  time_from_mjd_string "5.5D-1" "utc"
  = ([warning "5.5D-1"], Ok (mkTime 0 0x1.199999999999ap-1 "utc" "pulsar_mjd" 9)).
Proof.
  refine (proj2 (negative_exponent NoSign "5" (Some "5") "D" "1" "utc"
                   _ _ _ _ _ _)); try reflexivity; left; discriminate.
Defined.

(** The other branch: for an exponent that is not negative, the day is
    the digits before the point followed by the first [ex] digits after
    it, and the fraction is the float of "0." and the digits that are
    left. *)
Lemma nonnegative_exponent (ip fp : string) (mk : ascii) (esg : sign)
  (ds scale : string) :
  ip <> "" -> all_str is_digit ip = true -> all_str is_digit fp = true ->
  is_marker mk = true -> is_minus esg = false ->
  ds <> "" -> all_str is_digit ds = true ->
  let n := Z.to_nat (digits_value ds) in
  time_from_mjd_string (ip ++ "." ++ fp ++ String mk (sign_text esg ++ ds)) scale
  = ([], Ok (mkTime (digits_value (ip ++ take n fp))
                    (decimal_float false "0" (drop n fp) 0)
                    scale "pulsar_mjd" 9)).
Proof.
  intros Hne Hip Hfp Hmk Hesg Hdne Hds n.
  assert (Hnum : all_str is_plain (ip ++ "." ++ fp) = true).
  { rewrite !all_str_app, (digits_plain ip Hip), (digits_plain fp Hfp).
    reflexivity. }
  pose proof (exponent_text_plain esg ds Hds) as Hex.
  destruct (sci_head _ _ mk Hnum Hex Hmk) as [Hc [Ht Hs]].
  replace (ip ++ "." ++ fp ++ String mk (sign_text esg ++ ds))
    with ((ip ++ "." ++ fp) ++ String mk (sign_text esg ++ ds))
    by now rewrite !app_assoc.
  unfold time_from_mjd_string. cbv zeta.
  rewrite Hc, Ht, Hs. cbn [unpack2].
  rewrite bindL_lift_Ok. cbv beta iota.
  rewrite (pyint_signed esg ds Hdne Hds), bindL_lift_Ok.
  unfold signed. rewrite Hesg.
  pose proof (digits_value_range ds Hds) as [Hv _].
  destruct (Z.ltb_spec (digits_value ds) 0) as [Hlt | _]; [lia |].
  change ("." ++ fp) with (String "." fp).
  rewrite split_cons, split_none.
  2: now apply (contains_all_str "." is_digit).
  2: now apply (contains_all_str "." is_digit).
  cbn [unpack2]. rewrite bindL_lift_Ok. cbv beta iota.
  fold n.
  rewrite pyint_digits.
  2:{ destruct ip; [contradiction | discriminate]. }
  2:{ now rewrite all_str_app, Hip, all_str_take. }
  rewrite bindL_lift_Ok.
  change ("0." ++ drop n fp) with ("0" ++ "." ++ drop n fp).
  rewrite (pyfloat_plain "0" (drop n fp)); [| discriminate | reflexivity |].
  2: now apply all_str_drop.
  reflexivity.
Qed.

(** Where the exponent does not exceed the number of digits after the
    point, these digits are the integer part of the number. *)
Lemma shifted_day (ip fp : string) (n : nat) :
  all_str is_digit fp = true -> (n <= String.length fp)%nat ->
  digits_value (ip ++ take n fp) = sci_integer_part ip fp (Z.of_nat n).
Proof.
  intros Hfp Hn. unfold sci_integer_part.
  assert (Hv : digits_value (ip ++ fp)
               = digits_value (ip ++ take n fp)
                 * 10 ^ Z.of_nat (String.length (drop n fp))
                 + digits_value (drop n fp)).
  { rewrite <- digits_value_app, app_assoc. now rewrite take_drop. }
  pose proof (digits_value_range (drop n fp) (all_str_drop _ n fp Hfp)) as Hr.
  assert (Hlen : String.length fp = (n + String.length (drop n fp))%nat).
  { pose proof (f_equal String.length (take_drop n fp)) as H.
    rewrite length_app, length_take in H. lia. }
  rewrite Hv, Hlen. rewrite Nat2Z.inj_add, Z.pow_add_r by lia.
  set (p := 10 ^ Z.of_nat (String.length (drop n fp))) in *.
  set (q := 10 ^ Z.of_nat n).
  assert (0 < p) by (apply Z.pow_pos_nonneg; lia).
  assert (0 < q) by (apply Z.pow_pos_nonneg; lia).
  rewrite (Z.mul_comm q p), Z.div_mul_cancel_r by lia.
  apply Z.div_unique_pos with (r := digits_value (drop n fp)); lia.
Qed.

(** Where it exceeds it, the digits are not padded with zeros: the day is
    the number without its point, and the integer part is that times a
    power of ten. *)
Lemma unshifted_day (ip fp : string) (n : nat) :
  (String.length fp <= n)%nat ->
  digits_value (ip ++ take n fp) = digits_value (ip ++ fp)
  /\ sci_integer_part ip fp (Z.of_nat n)
     = digits_value (ip ++ fp) * 10 ^ Z.of_nat (n - String.length fp).
Proof.
  intros Hn. split; [now rewrite take_all |].
  unfold sci_integer_part.
  replace (Z.of_nat n)
    with (Z.of_nat (n - String.length fp) + Z.of_nat (String.length fp)) by lia.
  rewrite Z.pow_add_r, Z.mul_assoc by lia.
  apply Z.div_mul.
  apply Z.pow_nonzero; lia.
Qed.

(** X1.  For an exponent that is not negative and does not exceed the
    number of digits after the point, the integer day is the integer part
    of the number written, and nothing is logged. *)
Theorem positive_exponent_within_digits (ip fp : string) (mk : ascii)
  (esg : sign) (ds scale : string) :
  ip <> "" -> all_str is_digit ip = true -> all_str is_digit fp = true ->
  is_marker mk = true -> is_minus esg = false ->
  ds <> "" -> all_str is_digit ds = true ->
  digits_value ds <= Z.of_nat (String.length fp) ->
  exists fmjd,
    time_from_mjd_string (ip ++ "." ++ fp ++ String mk (sign_text esg ++ ds)) scale
    = ([], Ok (mkTime (sci_integer_part ip fp (digits_value ds)) fmjd
                      scale "pulsar_mjd" 9)).
Proof.
  intros Hne Hip Hfp Hmk Hesg Hdne Hds Hle.
  pose proof (digits_value_range ds Hds) as [Hv _].
  eexists.
  rewrite (nonnegative_exponent ip fp mk esg ds scale) by assumption.
  rewrite shifted_day by (assumption || lia).
  now rewrite Z2Nat.id by lia.
Qed.

Lemma positive_exponent_within_digits_witness :
  exists fmjd,
    time_from_mjd_string "5.5000123D+4" "utc"
    = ([], Ok (mkTime 55000 fmjd "utc" "pulsar_mjd" 9)).
Proof.
  refine (positive_exponent_within_digits "5" "5000123" "D" PlusSign "4" "utc"
            _ _ _ _ _ _ _ _);
    try reflexivity; discriminate.
Defined.

(** A decimal string [digits.digits] is split at the point: the
    integer day is the number before it, the fraction is the float of
    "0." and the digits after it, and nothing is logged. *)
Theorem decimal_string (ip fp scale : string) :
  ip <> "" -> all_str is_digit ip = true -> all_str is_digit fp = true ->
  time_from_mjd_string (ip ++ "." ++ fp) scale
  = ([], Ok (mkTime (digits_value ip) (decimal_float false "0" fp 0)
                    scale "pulsar_mjd" 9)).
Proof.
  intros Hne Hip Hfp.
  assert (Hplain : all_str is_plain (ip ++ "." ++ fp) = true).
  { rewrite !all_str_app, (digits_plain ip Hip), (digits_plain fp Hfp).
    reflexivity. }
  unfold time_from_mjd_string. cbv zeta.
  rewrite (lower_plain _ Hplain).
  rewrite (contains_all_str "e" is_plain _ eq_refl Hplain).
  rewrite (contains_all_str "d" is_plain _ eq_refl Hplain).
  simpl orb. cbv iota.
  change ("." ++ fp) with (String "." fp).
  rewrite split_cons, split_none.
  2: now apply (contains_all_str "." is_digit).
  2: now apply (contains_all_str "." is_digit).
  cbn [List.length Nat.eqb unpack2].
  rewrite bindL_lift_Ok. cbv beta iota.
  rewrite (pyint_digits ip Hne Hip), bindL_lift_Ok.
  change ("0." ++ fp) with ("0" ++ "." ++ fp).
  rewrite (pyfloat_plain "0" fp); [| discriminate | reflexivity | assumption].
  reflexivity.
Qed.

Lemma decimal_string_witness :
  time_from_mjd_string "55000.5" "utc"
  = ([], Ok (mkTime 55000 0.5 "utc" "pulsar_mjd" 9)).
Proof.
  apply (decimal_string "55000" "5" "utc"); try reflexivity; discriminate.
Defined.

(** Beyond the digits after the point the day is too small: it is the
    number without its point, where the integer part has further zeros. *)
Lemma positive_exponent_beyond_digits (ip fp : string) (mk : ascii)
  (esg : sign) (ds scale : string) :
  ip <> "" -> all_str is_digit ip = true -> all_str is_digit fp = true ->
  is_marker mk = true -> is_minus esg = false ->
  ds <> "" -> all_str is_digit ds = true ->
  Z.of_nat (String.length fp) < digits_value ds ->
  0 < digits_value (ip ++ fp) ->
  exists imjd fmjd,
    time_from_mjd_string (ip ++ "." ++ fp ++ String mk (sign_text esg ++ ds)) scale
    = ([], Ok (mkTime imjd fmjd scale "pulsar_mjd" 9))
    /\ imjd = digits_value (ip ++ fp)
    /\ imjd < sci_integer_part ip fp (digits_value ds).
Proof.
  intros Hne Hip Hfp Hmk Hesg Hdne Hds Hlt Hpos.
  do 2 eexists.
  rewrite (nonnegative_exponent ip fp mk esg ds scale) by assumption.
  destruct (unshifted_day ip fp (Z.to_nat (digits_value ds))) as [Hd Hi]; [lia |].
  rewrite Z2Nat.id in Hi by lia.
  split; [reflexivity |]. split; [exact Hd |].
  rewrite Hd, Hi.
  set (k := Z.of_nat (Z.to_nat (digits_value ds) - String.length fp)).
  assert (Hk : 1 <= k) by (unfold k; lia).
  assert (10 ^ 1 <= 10 ^ k) by (apply Z.pow_le_mono_r; lia).
  change (10 ^ 1) with 10 in *. nia.
Qed.

(** C1, where it fails.  "5.5e4" writes 55000, and the function returns
    the day 55: the slice [fmjd_s[:expon]] ends with the digits, and no
    zero is appended for the rest of the exponent.  A number written
    without a point, "5e4", is not parsed at all. *)
Theorem positive_exponent_loses_zeros :
  time_from_mjd_string "5.5e4" "utc"
  = ([], Ok (mkTime 55 0 "utc" "pulsar_mjd" 9))
  /\ sci_integer_part "5" "5" 4 = 55000
  /\ time_from_mjd_string "5e4" "utc"
     = ([], Raise (ValueError "not enough values to unpack (expected 2, got 1)")).
Proof. repeat split; reflexivity. Qed.

End TimeFacts.

(** ** Signs of binary64 results *)

Module FloatFacts.

Lemma digits2_lower (m : positive) :
  2 ^ (Z.pos (digits2_pos m) - 1) <= Z.pos m.
Proof.
  induction m as [m IH | m IH |]; simpl digits2_pos.
  - rewrite Pos2Z.inj_succ.
    replace (Z.succ (Z.pos (digits2_pos m)) - 1)
      with (Z.succ (Z.pos (digits2_pos m) - 1)) by lia.
    rewrite Z.pow_succ_r by lia. lia.
  - rewrite Pos2Z.inj_succ.
    replace (Z.succ (Z.pos (digits2_pos m)) - 1)
      with (Z.succ (Z.pos (digits2_pos m) - 1)) by lia.
    rewrite Z.pow_succ_r by lia. lia.
  - simpl. lia.
Qed.

Lemma iter_xO_ge (d m : positive) : (m <= Pos.iter xO m d)%positive.
Proof.
  revert m. induction d as [d IH | d IH |]; intros m; simpl.
  - pose proof (IH m). pose proof (IH (Pos.iter xO m d)). lia.
  - pose proof (IH m). pose proof (IH (Pos.iter xO m d)). lia.
  - lia.
Qed.

(** Rounding a positive mantissa never gives a number below zero. *)
Lemma binary_round_not_negative (m : positive) (e : Z) :
  SFltb (binary_round prec emax false m e) (S754_zero false) = false.
Proof.
  unfold binary_round, binary_round_aux.
  destruct (shl_align m e _) as [mz ez].
  destruct (shr_fexp prec emax (Z.pos mz) ez loc_Exact) as [mrs' e'].
  destruct (shr_fexp prec emax _ e' loc_Exact) as [mrs'' e''].
  destruct (shr_m mrs'') as [| p | p]; try reflexivity.
  destruct (e'' <=? emax - prec); reflexivity.
Qed.

(** [f >= 1.0] leaves [f - 1.0 < 0.0] false: the second [if] is not
    taken after the first. *)
Lemma sub_one_not_negative (f : float) :
  PrimFloat.leb 1 f = true -> PrimFloat.ltb (PrimFloat.sub f 1) 0 = false.
Proof.
  rewrite leb_spec, ltb_spec, sub_spec.
  pose proof (Prim2SF_valid f) as Hv.
  change (Prim2SF 1) with (S754_finite false 4503599627370496 (-52)).
  change (Prim2SF 0) with (S754_zero false).
  destruct (Prim2SF f) as [s | s | | s m e];
    try (destruct s; discriminate || reflexivity).
  - discriminate.
  - destruct s; [discriminate |].
    unfold SFleb, SFcompare. intros H.
    unfold SF64sub, SFsub.
    assert (He : -52 <= e).
    { destruct (Z.compare_spec (-52) e); try lia; try discriminate. }
    assert (Hm : (4503599627370496 <= m)%positive).
    { destruct (Z.compare_spec (-52) e) as [Heq | Hlt | Hgt]; [| | lia].
      - subst e.
        change (PosDef.Pos.compare_cont Eq 4503599627370496 m)
          with (4503599627370496 ?= m)%positive in H.
        unfold Pos.le. intros Hgt. rewrite Hgt in H. discriminate.
      - simpl in Hv. unfold bounded, canonical_mantissa in Hv.
        apply andb_true_iff in Hv. destruct Hv as [Hc _].
        apply Z.eqb_eq in Hc. unfold fexp, emin in Hc.
        change prec with 53 in Hc. change emax with 1024 in Hc.
        pose proof (digits2_lower m) as Hd.
        assert (Hdig : Z.pos (digits2_pos m) = 53) by lia.
        rewrite Hdig in Hd.
        change (2 ^ (53 - 1)) with 4503599627370496 in Hd. lia. }
    rewrite Z.min_r by lia.
    unfold cond_Zopp.
    assert (Hs : (m <= fst (shl_align m e (-52)))%positive).
    { unfold shl_align. destruct (-52 - e); simpl; try lia. apply iter_xO_ge. }
    change (fst (shl_align 4503599627370496 (-52) (-52)))
      with 4503599627370496%positive.
    set (m' := fst (shl_align m e (-52))) in *.
    destruct (Z.pos m' - 4503599627370496) as [| p | p] eqn:Hd; try lia.
    + reflexivity.
    + apply binary_round_not_negative.
Qed.

(** [f < 0.0] leaves [f >= 1.0] false. *)
Lemma negative_not_ge_one (f : float) :
  PrimFloat.ltb f 0 = true -> PrimFloat.leb 1 f = false.
Proof.
  rewrite leb_spec, ltb_spec.
  change (Prim2SF 1) with (S754_finite false 4503599627370496 (-52)).
  change (Prim2SF 0) with (S754_zero false).
  destruct (Prim2SF f) as [s | s | | s m e]; try discriminate;
    destruct s; try discriminate; reflexivity.
Qed.

(** [f < 1.0] leaves [f >= 1.0] false. *)
Lemma below_one_not_ge_one (f : float) :
  PrimFloat.ltb f 1 = true -> PrimFloat.leb 1 f = false.
Proof.
  rewrite leb_spec, ltb_spec.
  change (Prim2SF 1) with (S754_finite false 4503599627370496 (-52)).
  generalize 4503599627370496%positive. intros c.
  destruct (Prim2SF f) as [s | s | | s m e]; try discriminate;
    destruct s; try discriminate; try reflexivity.
  unfold SFltb, SFleb, SFcompare.
  rewrite (Z.compare_antisym e (-52)).
  destruct (e ?= -52); cbn [CompOpp]; cbv iota;
    try discriminate; try reflexivity.
  pose proof (Pos.compare_cont_antisym m c Eq) as Ha.
  cbn [CompOpp] in Ha. rewrite <- Ha.
  destruct (Pos.compare_cont Eq m c); cbn [CompOpp]; cbv iota;
    try discriminate; reflexivity.
Qed.

(** [f >= 0.0] leaves [f < 0.0] false. *)
Lemma nonnegative_not_negative (f : float) :
  PrimFloat.leb 0 f = true -> PrimFloat.ltb f 0 = false.
Proof.
  rewrite leb_spec, ltb_spec.
  change (Prim2SF 0) with (S754_zero false).
  destruct (Prim2SF f) as [s | s | | s m e]; try discriminate;
    try reflexivity; destruct s; try discriminate; reflexivity.
Qed.

End FloatFacts.

(** ** time_to_mjd_string, time_to_mjd_string_array *)

Module MjdStringFacts.

(** C3, where it fails.  First input: the fraction is [-2^-60]; it passes
    the assertion, the day is lowered by one, and [f + 1.0] rounds to
    exactly 1.0, which is not below 1: the digit before the point is cut
    and the string names a time one day early.  Second input: the fraction
    is [-1.25]; it passes the assertion, the day is lowered by one, and the
    fraction formatted is [-0.25]. *)
Theorem renormalization_misses :
  (split_jd [just_before_55000] = [(55000, (-0x1p-60)%float)]
   /\ PrimFloat.ltb (PrimFloat.abs (-0x1p-60)) 2 = true
   /\ renormalize64 55000 (-0x1p-60) = (54999, 1%float)
   /\ renormalize 55000 (-0x1p-60) = (54999, 1%float)
   /\ PrimFloat.ltb 1 1 = false
   /\ time_to_mjd_string_array [just_before_55000] 15
      = Ok ["54999.000000000000000"])
  /\ (split_jd [before_mjd_origin] = [(0, (-1.25)%float)]
      /\ PrimFloat.ltb (PrimFloat.abs (-1.25)) 2 = true
      /\ renormalize64 0 (-1.25) = (-1, (-0.25)%float)
      /\ renormalize 0 (-1.25) = (-1, (-0.25)%float)
      /\ PrimFloat.ltb (-0.25) 0 = true
      /\ time_to_mjd_string_array [before_mjd_origin] 15
         = Ok ["-10.250000000000000"]).
Proof. repeat split; reflexivity. Qed.

(** The same in the generic branch of [time_to_mjd_string], for a
    [day_frac] that returns the day 55000 and the fraction [-2^-60]. *)
Lemma generic_branch_one_day_early
  (day_frac : float -> float -> float * float)
  (d2dtf : string -> Z -> float -> float -> Z * Z * Z * Z)
  (t : TimeValue) :
  String.eqb (tv_format t) "pulsar_mjd" = false ->
  day_frac (PrimFloat.sub (jd1 t) DJM0) (jd2 t) = (55000, -0x1p-60)%float ->
  time_to_mjd_string day_frac d2dtf t 15 = Ok "54999.000000000000000".
Proof.
  intros Hfmt Hdf. unfold time_to_mjd_string.
  rewrite Hfmt, Hdf. reflexivity.
Qed.

(** X5.  The two steps, for every float: when [f >= 1.0] the day is
    raised by one and the fraction is [f - 1.0]; when [f < 0.0] the day is
    lowered by one and the fraction is [f + 1.0]; otherwise both are left
    as they are.  The array function does the same with int64 days. *)
Theorem renormalize_steps (i : Z) (f : float) :
  renormalize i f
  = (if PrimFloat.leb 1 f then (i + 1, PrimFloat.sub f 1)
     else if PrimFloat.ltb f 0 then (i - 1, PrimFloat.add f 1)
     else (i, f))
  /\ renormalize64 i f
     = (if PrimFloat.leb 1 f then (wrap64 (i + 1), PrimFloat.sub f 1)
        else if PrimFloat.ltb f 0 then (wrap64 (i - 1), PrimFloat.add f 1)
        else (i, f))
  /\ (PrimFloat.ltb f 0 = true -> PrimFloat.leb 1 f = false).
Proof.
  unfold renormalize, renormalize64.
  destruct (PrimFloat.leb 1 f) eqn:Hge.
  - rewrite (FloatFacts.sub_one_not_negative f Hge).
    repeat split. intros Hlt.
    rewrite (FloatFacts.negative_not_ge_one f Hlt) in Hge. discriminate.
  - repeat split.
Qed.

(** X8.  A fraction that is in [0,1) already is left alone, and so is
    the day: what is formatted is [f] itself. *)
Theorem renormalize_in_range (i : Z) (f : float) :
  PrimFloat.leb 0 f = true -> PrimFloat.ltb f 1 = true ->
  renormalize i f = (i, f) /\ renormalize64 i f = (i, f).
Proof.
  intros H0 H1. unfold renormalize, renormalize64.
  rewrite (FloatFacts.below_one_not_ge_one f H1).
  rewrite (FloatFacts.nonnegative_not_negative f H0).
  split; reflexivity.
Qed.

Lemma renormalize_in_range_witness :
  renormalize 55000 0.5 = (55000, 0.5%float)
  /\ renormalize64 55000 0.5 = (55000, 0.5%float).
Proof. apply (renormalize_in_range 55000 0.5); reflexivity. Defined.

(** Where nothing has to be done: a time on an MJD boundary and one in
    the middle of a day. *)
Lemma time_to_mjd_string_array_examples :
  time_to_mjd_string_array [(2455000.5, 0); (2455000.5, 0.5); (2455000.5, 1.25)]%float 15
  = Ok ["55000.000000000000000"; "55000.500000000000000"; "55001.250000000000000"].
Proof. reflexivity. Qed.

End MjdStringFacts.

(** ** split_prefixed_name: names that are put together and split again *)

Module PrefixRoundTrip.

Import StrFacts PrefixFacts.

Lemma alpha_not_digit (a : ascii) : is_alpha a = true -> is_digit a = false.
Proof. by_code_points a. Qed.

Lemma digit_not_alpha (a : ascii) : is_digit a = true -> is_alpha a = false.
Proof. by_code_points a. Qed.

Section Greedy.

Variable R : Type.

(** A repetition takes the whole run when the rest of the pattern matches
    after it. *)
Lemma match_star_greedy (c : charclass) (k : string -> string -> option R)
  (t : string) :
  forall taken rest r,
    all_str (in_class c) t = true -> head_in c rest = false ->
    k (taken ++ t) rest = Some r ->
    match_star c k taken (t ++ rest) = Some r.
Proof.
  induction t as [| a t IH]; intros taken rest r Hall Hrest Hk.
  - rewrite (app_nil_r taken) in Hk. simpl append.
    destruct rest as [| b rest]; simpl; [exact Hk |].
    simpl in Hrest. now rewrite Hrest.
  - simpl in Hall. apply andb_true_iff in Hall. destruct Hall as [Ha Ht].
    simpl. rewrite Ha.
    rewrite (IH (snoc taken a) rest r Ht Hrest); [reflexivity |].
    now rewrite snoc_app.
Qed.

Lemma match_plus_greedy (c : charclass) (k : string -> string -> option R)
  (t taken rest : string) (r : R) :
  t <> "" -> all_str (in_class c) t = true -> head_in c rest = false ->
  k (taken ++ t) rest = Some r ->
  match_piece (Plus c) k taken (t ++ rest) = Some r.
Proof.
  intros Hne Hall Hrest Hk.
  destruct t as [| a t]; [contradiction |].
  simpl in Hall. apply andb_true_iff in Hall. destruct Hall as [Ha Ht].
  simpl. rewrite Ha.
  apply match_star_greedy; try assumption.
  now rewrite snoc_app.
Qed.

End Greedy.

(** The group of digits that ends each pattern, at the end of the name. *)
Lemma index_group (g1 D : string) :
  D <> "" -> all_str is_digit D = true ->
  match_pieces [Plus Digit]
    (fun g2 rest' => if at_end rest' then Some (g1, g2) else None) "" D
  = Some (g1, D).
Proof.
  intros Hne Hd. cbn [match_pieces].
  rewrite <- (app_nil_r D) at 1.
  apply match_plus_greedy; try assumption; reflexivity.
Qed.

Lemma head_not_alpha (D rest : string) :
  D <> "" -> all_str is_digit D = true -> head_in Alpha (D ++ rest) = false.
Proof.
  destruct D as [| a D]; [contradiction |]. intros _ H.
  simpl in H. apply andb_true_iff in H. destruct H as [Ha _].
  simpl. now apply digit_not_alpha.
Qed.

Lemma head_not_digit (L rest : string) :
  L <> "" -> all_str is_alpha L = true -> head_in Digit (L ++ rest) = false.
Proof.
  destruct L as [| a L]; [contradiction |]. intros _ H.
  simpl in H. apply andb_true_iff in H. destruct H as [Ha _].
  simpl. now apply alpha_not_digit.
Qed.

Lemma drop_while_app (p : ascii -> bool) (a b : string) :
  all_str p a = true ->
  match b with String x _ => p x = false | EmptyString => True end ->
  drop_while p (a ++ b) = b.
Proof.
  intros Ha Hb. induction a as [| x a IH]; simpl.
  - destruct b as [| y b]; [reflexivity |]. simpl. now rewrite Hb.
  - simpl in Ha. apply andb_true_iff in Ha. destruct Ha as [Hx Ha].
    rewrite Hx. now apply IH.
Qed.

(** What the first pattern's prefix looks like: after its leading letters
    come digits and then a letter. *)
Lemma T2EFAC_prefix_shape (g z : string) :
  matches (group1 pattern_T2EFAC) g ->
  all_str is_digit (drop_while is_alpha (g ++ z)) = false.
Proof.
  simpl. intros H.
  inversion H as [| c l1 r1 ps Hl1 H1 | |]; subst.
  inversion H1 as [| | c d1 r2 ps Hd1ne Hd1 H2 |]; subst.
  inversion H2 as [| | c l2 r3 ps Hl2ne Hl2 H3 |]; subst.
  apply matches_nil_inv in H3. subst.
  rewrite !app_assoc.
  rewrite drop_while_app; [| exact Hl1 |].
  - rewrite !all_str_app.
    destruct l2 as [| a l2]; [contradiction |].
    simpl in Hl2. apply andb_true_iff in Hl2. destruct Hl2 as [Ha _].
    simpl. rewrite (alpha_not_digit a Ha). simpl. apply andb_false_r.
  - destruct d1 as [| a d1]; [contradiction |].
    simpl in Hd1. apply andb_true_iff in Hd1. destruct Hd1 as [Ha _].
    simpl. now apply digit_not_alpha.
Qed.

(** Letters followed by digits are not matched by the first pattern. *)
Lemma T2EFAC_rejects_letters_digits (L D : string) :
  all_str is_alpha L = true -> all_str is_digit D = true ->
  re_match pattern_T2EFAC (L ++ D) = None.
Proof.
  intros HL HD.
  destruct (re_match pattern_T2EFAC (L ++ D)) as [[g1 g2] |] eqn:E; [| reflexivity].
  exfalso.
  destruct (re_match_sound _ _ _ _ E) as [tail [Hname [_ [Hm1 _]]]].
  pose proof (T2EFAC_prefix_shape g1 (g2 ++ tail) Hm1) as Hs.
  rewrite <- Hname in Hs.
  rewrite drop_while_app in Hs; [congruence | exact HL |].
  destruct D as [| a D]; [exact I |].
  simpl in HD. apply andb_true_iff in HD. destruct HD as [Ha _].
  now apply digit_not_alpha.
Qed.

Lemma F_matches_letters_digits (L D : string) :
  L <> "" -> all_str is_alpha L = true ->
  D <> "" -> all_str is_digit D = true ->
  re_match pattern_F (L ++ D) = Some (L, D).
Proof.
  intros HLne HL HDne HD. unfold re_match. cbn [group1 group2 pattern_F match_pieces].
  apply match_plus_greedy; try assumption.
  - rewrite <- (app_nil_r D). now apply head_not_alpha.
  - now apply index_group.
Qed.

Lemma no_underscore_in (p : ascii -> bool) (s : string) :
  p "_"%char = false -> all_str p s = true -> contains "_" s = false.
Proof. apply contains_all_str. Qed.

(** X6.  A name made of letters followed by digits is split where the
    digits begin: the prefix is the letters, the index string the digits
    (leading zeros kept) and the index value the number they write. *)
Theorem letters_then_digits (L D : string) :
  L <> "" -> all_str is_alpha L = true ->
  D <> "" -> all_str is_digit D = true ->
  split_prefixed_name (L ++ D) = Ok (L, D, digits_value D).
Proof.
  intros HLne HL HDne HD.
  unfold split_prefixed_name, prefixPattern. simpl for_patterns.
  fold pattern_T2EFAC. fold pattern_F.
  rewrite (T2EFAC_rejects_letters_digits L D HL HD).
  rewrite (F_matches_letters_digits L D HLne HL HDne HD).
  rewrite contains_app.
  rewrite (no_underscore_in is_alpha L eq_refl HL).
  rewrite (no_underscore_in is_digit D eq_refl HD).
  simpl orb. cbv iota.
  now rewrite (pyint_digits D HDne HD).
Qed.

Lemma letters_then_digits_witness :
  split_prefixed_name "GLEP007" = Ok ("GLEP", "007", 7).
Proof.
  apply (letters_then_digits "GLEP" "007"); try reflexivity; discriminate.
Defined.

Lemma T2EFAC_matches (L1 D1 L2 D : string) :
  all_str is_alpha L1 = true ->
  D1 <> "" -> all_str is_digit D1 = true ->
  L2 <> "" -> all_str is_alpha L2 = true ->
  D <> "" -> all_str is_digit D = true ->
  re_match pattern_T2EFAC (L1 ++ D1 ++ L2 ++ D) = Some (L1 ++ D1 ++ L2, D).
Proof.
  intros HL1 HD1ne HD1 HL2ne HL2 HDne HD.
  unfold re_match. cbn [group1 group2 pattern_T2EFAC match_pieces].
  unfold match_piece at 1.
  apply match_star_greedy; [exact HL1 | now apply head_not_alpha |].
  simpl append.
  apply match_plus_greedy; [exact HD1ne | exact HD1 | now apply head_not_digit |].
  apply match_plus_greedy; [exact HL2ne | exact HL2 | |].
  - rewrite <- (app_nil_r D). now apply head_not_alpha.
  - rewrite !app_assoc. now apply index_group.
Qed.

(** X7.  A name of the first family (letters or none, digits, letters,
    digits, as in T2EFAC17) is split before its last run of digits. *)
Theorem digits_inside_prefix (L1 D1 L2 D : string) :
  all_str is_alpha L1 = true ->
  D1 <> "" -> all_str is_digit D1 = true ->
  L2 <> "" -> all_str is_alpha L2 = true ->
  D <> "" -> all_str is_digit D = true ->
  split_prefixed_name (L1 ++ D1 ++ L2 ++ D)
  = Ok (L1 ++ D1 ++ L2, D, digits_value D).
Proof.
  intros HL1 HD1ne HD1 HL2ne HL2 HDne HD.
  unfold split_prefixed_name, prefixPattern. simpl for_patterns.
  fold pattern_T2EFAC.
  rewrite (T2EFAC_matches L1 D1 L2 D) by assumption.
  rewrite !contains_app.
  rewrite (no_underscore_in is_alpha L1 eq_refl HL1).
  rewrite (no_underscore_in is_digit D1 eq_refl HD1).
  rewrite (no_underscore_in is_alpha L2 eq_refl HL2).
  rewrite (no_underscore_in is_digit D eq_refl HD).
  simpl orb. cbv iota.
  now rewrite (pyint_digits D HDne HD).
Qed.

Lemma digits_inside_prefix_witness :
  split_prefixed_name "T2EFAC017" = Ok ("T2EFAC", "017", 17).
Proof.
  apply (digits_inside_prefix "T" "2" "EFAC" "017"); try reflexivity; discriminate.
Defined.

Lemma alnum_no_underscore (A : string) :
  all_str (in_class AlphaNum) A = true -> contains "_" A = false.
Proof. now apply contains_all_str. Qed.

Lemma underscore_name_contains (A D : string) :
  contains "_" (A ++ "_" ++ D) = true.
Proof. rewrite contains_app. simpl. apply orb_true_r. Qed.

(** A pattern without underscore does not match a name that has one. *)
Lemma rejects_underscore (pt : pattern) (name : string) :
  forallb (avoids "_") (group1 pt) = true ->
  forallb (avoids "_") (group2 pt) = true ->
  contains "_" name = true ->
  re_match pt name = None.
Proof.
  intros H1 H2 Hc.
  destruct (re_match pt name) as [[g1 g2] |] eqn:E; [| reflexivity].
  rewrite (no_underscore pt name g1 g2 H1 H2 E) in Hc. discriminate.
Qed.

Lemma DMX_matches (A D : string) :
  A <> "" -> all_str (in_class AlphaNum) A = true ->
  D <> "" -> all_str is_digit D = true ->
  re_match pattern_DMX (A ++ "_" ++ D) = Some (A ++ "_", D).
Proof.
  intros HAne HA HDne HD.
  unfold re_match. cbn [group1 group2 pattern_DMX match_pieces].
  apply match_plus_greedy; [exact HAne | exact HA | reflexivity |].
  simpl append. unfold match_piece. rewrite Ascii.eqb_refl.
  now apply index_group.
Qed.

(** X9.  A name made of letters and digits, an underscore and digits is
    split after the underscore: the prefix keeps the underscore. *)
Theorem underscore_then_digits (A D : string) :
  A <> "" -> all_str (in_class AlphaNum) A = true ->
  D <> "" -> all_str is_digit D = true ->
  split_prefixed_name (A ++ "_" ++ D) = Ok (A ++ "_", D, digits_value D).
Proof.
  intros HAne HA HDne HD.
  pose proof (underscore_name_contains A D) as Hc.
  unfold split_prefixed_name, prefixPattern. cbn [for_patterns].
  fold pattern_T2EFAC. fold pattern_F. fold pattern_DMX.
  rewrite (rejects_underscore pattern_T2EFAC _ eq_refl eq_refl Hc).
  rewrite (rejects_underscore pattern_F _ eq_refl eq_refl Hc).
  rewrite (DMX_matches A D HAne HA HDne HD).
  rewrite Hc.
  change (A ++ "_") with (A ++ "_" ++ "").
  rewrite (underscore_name_contains A "").
  now rewrite (pyint_digits D HDne HD).
Qed.

Lemma underscore_then_digits_witness :
  split_prefixed_name "DMXR1_0003" = Ok ("DMXR1_", "0003", 3).
Proof.
  apply (underscore_then_digits "DMXR1" "0003"); try reflexivity; discriminate.
Defined.

(** *** Names that are refused *)

(** The loop ends with a match only if some pattern gave it. *)
Lemma for_patterns_from_match (pts : list pattern) (name : string) :
  forall namefield g,
    for_patterns pts name namefield = Some g ->
    (pts = [] /\ namefield = Some g)
    \/ exists pt, In pt pts /\ re_match pt name = Some g.
Proof.
  induction pts as [| pt pts IH]; intros namefield g H; simpl in H.
  - left. auto.
  - right.
    destruct (re_match pt name) as [[p i] |] eqn:E.
    + destruct (contains "_" name).
      * destruct (contains "_" p).
        -- injection H as <-. exists pt. split; [now left | exact E].
        -- destruct (IH _ _ H) as [[-> Hn] | [pt' [Hin Hm]]].
           ++ injection Hn as <-. exists pt. split; [now left | exact E].
           ++ exists pt'. split; [now right | exact Hm].
      * injection H as <-. exists pt. split; [now left | exact E].
    + destruct (IH _ _ H) as [[-> Hn] | [pt' [Hin Hm]]]; [discriminate |].
      exists pt'. split; [now right | exact Hm].
Qed.

Lemma split_from_match (name p i : string) (v : Z) :
  split_prefixed_name name = Ok (p, i, v) ->
  exists pt, In pt prefixPattern /\ re_match pt name = Some (p, i).
Proof.
  unfold split_prefixed_name. intros H.
  destruct (for_patterns prefixPattern name None) as [[p' i'] |] eqn:E;
    [| discriminate].
  destruct (pyint i') as [v' | e]; simpl in H; [| discriminate].
  injection H as -> -> ->.
  destruct (for_patterns_from_match _ _ _ _ E) as [[Hnil _] | Hex];
    [discriminate | exact Hex].
Qed.

Lemma no_match_raises (name : string) :
  (forall pt, In pt prefixPattern -> re_match pt name = None) ->
  split_prefixed_name name = Raise (unrecognized name).
Proof.
  intros H. unfold split_prefixed_name, prefixPattern. simpl for_patterns.
  rewrite (H _ (or_introl eq_refl)).
  rewrite (H _ (or_intror (or_introl eq_refl))).
  rewrite (H _ (or_intror (or_intror (or_introl eq_refl)))).
  reflexivity.
Qed.

Lemma group2_is_digits (pt : pattern) :
  In pt prefixPattern -> group2 pt = [Plus Digit].
Proof. intros [<- | [<- | [<- | []]]]; reflexivity. Qed.

(** Every pattern needs a character that is not a digit in its prefix. *)
Lemma prefix_not_all_digits (pt : pattern) (g : string) :
  In pt prefixPattern -> matches (group1 pt) g -> all_str is_digit g = false.
Proof.
  intros [<- | [<- | [<- | []]]]; simpl; intros H.
  - inversion H as [| c l1 r1 ps Hl1 H1 | |]; subst.
    inversion H1 as [| | c d1 r2 ps Hd1ne Hd1 H2 |]; subst.
    inversion H2 as [| | c l2 r3 ps Hl2ne Hl2 H3 |]; subst.
    rewrite !all_str_app.
    destruct l2 as [| a l2]; [contradiction |].
    simpl in Hl2. apply andb_true_iff in Hl2. destruct Hl2 as [Ha _].
    simpl. rewrite (alpha_not_digit a Ha). simpl.
    now rewrite !andb_false_r.
  - inversion H as [| | c l r ps Hlne Hl H1 |]; subst.
    rewrite all_str_app.
    destruct l as [| a l]; [contradiction |].
    simpl in Hl. apply andb_true_iff in Hl. destruct Hl as [Ha _].
    simpl. now rewrite (alpha_not_digit a Ha).
  - inversion H as [| | c l r ps Hlne Hl H1 |]; subst.
    inversion H1; subst.
    rewrite all_str_app. simpl. apply andb_false_r.
Qed.

(** X10.  A name without any digit, and a name made of digits only (the
    empty name among them), is refused with PrefixError. *)
Theorem refused_names (name : string) :
  all_str (fun a => negb (is_digit a)) name = true
  \/ all_str is_digit name = true ->
  split_prefixed_name name = Raise (unrecognized name).
Proof.
  intros H. apply no_match_raises. intros pt Hin.
  destruct (re_match pt name) as [[g1 g2] |] eqn:E; [| reflexivity].
  exfalso.
  destruct (re_match_sound _ _ _ _ E) as [tail [Hname [_ [Hm1 Hm2]]]].
  rewrite (group2_is_digits pt Hin) in Hm2.
  apply matches_plus_digit in Hm2. destruct Hm2 as [Hne Hd].
  subst name. rewrite !all_str_app in H.
  destruct H as [H | H].
  - destruct g2 as [| a g2]; [contradiction |].
    simpl in Hd. apply andb_true_iff in Hd. destruct Hd as [Ha _].
    simpl in H. rewrite Ha in H. simpl in H.
    now rewrite andb_false_r in H.
  - rewrite (prefix_not_all_digits pt g1 Hin Hm1) in H. discriminate.
Qed.

Lemma refused_names_witness :
  split_prefixed_name "PEPOCH" = Raise (unrecognized "PEPOCH").
Proof. apply (refused_names "PEPOCH"). left. reflexivity. Defined.

(** X11.  When a name with an underscore is accepted, the name is a
    run of letters and digits, the underscore and a run of digits, with
    nothing after them but, possibly, one newline; the prefix is the name
    up to the underscore, with the underscore, and the index is the run of
    digits. *)
Theorem underscore_ends_prefix (name p i : string) (v : Z) :
  split_prefixed_name name = Ok (p, i, v) ->
  contains "_" name = true ->
  exists A, p = A ++ "_" /\ A <> ""
            /\ all_str (in_class AlphaNum) A = true
            /\ i <> "" /\ all_str is_digit i = true
            /\ (name = A ++ "_" ++ i
                \/ name = A ++ "_" ++ i ++ String newline "").
Proof.
  intros H Hc.
  destruct (split_from_match _ _ _ _ H) as [pt [Hin Hm]].
  destruct (re_match_sound _ _ _ _ Hm) as [tail [Hname [Htail [Hm1 Hm2]]]].
  rewrite (group2_is_digits pt Hin) in Hm2.
  apply matches_plus_digit in Hm2. destruct Hm2 as [Hne Hd].
  destruct Hin as [<- | [<- | [<- | []]]].
  - rewrite (no_underscore pattern_T2EFAC _ _ _ eq_refl eq_refl Hm) in Hc.
    discriminate.
  - rewrite (no_underscore pattern_F _ _ _ eq_refl eq_refl Hm) in Hc.
    discriminate.
  - simpl in Hm1.
    inversion Hm1 as [| | c A r ps HAne HA H1 |]; subst.
    inversion H1 as [| | | a t2 ps' H2]; subst.
    apply matches_nil_inv in H2. subst.
    exists A. repeat split; auto.
    rewrite !app_assoc.
    destruct Htail as [-> | ->]; [left | right]; [now rewrite app_nil_r | reflexivity].
Qed.

Lemma underscore_ends_prefix_witness :
  exists A, "DMX_" = A ++ "_" /\ A <> ""
            /\ all_str (in_class AlphaNum) A = true
            /\ "0123" <> "" /\ all_str is_digit "0123" = true
            /\ ("DMX_0123" = A ++ "_" ++ "0123"
                \/ "DMX_0123" = A ++ "_" ++ "0123" ++ String newline "").
Proof.
  apply (underscore_ends_prefix "DMX_0123" "DMX_" "0123" 123); reflexivity.
Defined.

(** *** A newline at the end *)

Lemma class_not_newline (c : charclass) : in_class c newline = false.
Proof. destruct c; reflexivity. Qed.

Lemma at_end_newline (s : string) :
  contains newline s = false -> at_end (s ++ String newline "") = at_end s.
Proof.
  destruct s as [| a [| b s]]; simpl; try reflexivity.
  intros H. apply orb_false_iff in H. destruct H as [H _]. now rewrite H.
Qed.

Section Newline.

Variable R : Type.

(** What comes after a group gives the same with a newline appended. *)
Definition stable (k : string -> string -> option R) : Prop :=
  forall taken s,
    contains newline s = false -> k taken (s ++ String newline "") = k taken s.

Lemma match_star_newline (c : charclass) (k : string -> string -> option R) :
  stable k -> stable (match_star c k).
Proof.
  intros Hk taken s. revert taken.
  induction s as [| a s IH]; intros taken Hs.
  - simpl. rewrite class_not_newline. now apply (Hk taken "").
  - simpl in Hs. apply orb_false_iff in Hs. destruct Hs as [Ha Hs].
    change (String a s ++ String newline "")
      with (String a (s ++ String newline "")).
    cbn [match_star].
    rewrite (IH (snoc taken a) Hs).
    change (String a (s ++ String newline ""))
      with (String a s ++ String newline "").
    rewrite (Hk taken (String a s)); [reflexivity |].
    simpl. now rewrite Ha, Hs.
Qed.

Lemma match_piece_newline (p : piece) (k : string -> string -> option R) :
  avoids newline p = true -> stable k -> stable (match_piece p k).
Proof.
  intros Hp Hk taken s Hs.
  destruct p as [c | c | b].
  - now apply match_star_newline.
  - destruct s as [| a s].
    + simpl. now rewrite class_not_newline.
    + simpl in Hs. apply orb_false_iff in Hs. destruct Hs as [Ha Hs].
      change (String a s ++ String newline "")
        with (String a (s ++ String newline "")).
      cbn [match_piece].
      now rewrite (match_star_newline c k Hk (snoc taken a) s Hs).
  - simpl in Hp. apply negb_true_iff in Hp.
    destruct s as [| a s].
    + change ("" ++ String newline "") with (String newline "").
      cbn [match_piece]. now rewrite Ascii.eqb_sym, Hp.
    + simpl in Hs. apply orb_false_iff in Hs. destruct Hs as [Ha Hs].
      change (String a s ++ String newline "")
        with (String a (s ++ String newline "")).
      cbn [match_piece].
      now rewrite (Hk (snoc taken a) s Hs).
Qed.

Lemma match_pieces_newline (ps : list piece) (k : string -> string -> option R) :
  forallb (avoids newline) ps = true -> stable k -> stable (match_pieces ps k).
Proof.
  induction ps as [| p ps IH]; intros Hps Hk; [exact Hk |].
  simpl in Hps. apply andb_true_iff in Hps. destruct Hps as [Hp Hps].
  cbn [match_pieces]. apply match_piece_newline; [exact Hp |].
  now apply IH.
Qed.

End Newline.

Lemma re_match_newline (pt : pattern) (name : string) :
  forallb (avoids newline) (group1 pt) = true ->
  forallb (avoids newline) (group2 pt) = true ->
  contains newline name = false ->
  re_match pt (name ++ String newline "") = re_match pt name.
Proof.
  intros H1 H2 Hn. unfold re_match.
  apply (match_pieces_newline _ (group1 pt)); [exact H1 | | exact Hn].
  intros g1 s Hs.
  apply (match_pieces_newline _ (group2 pt)); [exact H2 | | exact Hs].
  intros g2 s' Hs'. now rewrite at_end_newline.
Qed.

Lemma for_patterns_newline (name : string) :
  contains newline name = false ->
  for_patterns prefixPattern (name ++ String newline "") None
  = for_patterns prefixPattern name None.
Proof.
  intros Hn. unfold prefixPattern. cbn [for_patterns].
  rewrite !re_match_newline by (try reflexivity; exact Hn).
  rewrite contains_app. cbn [contains].
  change (Ascii.eqb newline "_") with false. cbn [orb].
  now rewrite orb_false_r.
Qed.

(** C4, where it fails.  Every name that is accepted is accepted again
    with a newline after it, and with the same result: [$] matches before
    a newline that ends the string.  The prefix and the index string then
    do not make up the name; "F12" with a newline gives ("F", "12", 12). *)
Theorem trailing_newline_accepted (name p i : string) (v : Z) :
  contains newline name = false ->
  split_prefixed_name name = Ok (p, i, v) ->
  split_prefixed_name (name ++ String newline "") = Ok (p, i, v)
  /\ p ++ i <> name ++ String newline "".
Proof.
  intros Hn H. split.
  - unfold split_prefixed_name in *.
    rewrite (for_patterns_newline name Hn).
    destruct (for_patterns prefixPattern name None) as [[p' i'] |];
      [exact H | discriminate].
  - destruct (split_from_match _ _ _ _ H) as [pt [_ Hm]].
    destruct (re_match_sound _ _ _ _ Hm) as [tail [Hname _]].
    intros E. apply (f_equal String.length) in E.
    rewrite Hname in E. rewrite !length_app in E. simpl in E. lia.
Qed.

Lemma trailing_newline_accepted_witness :
  split_prefixed_name ("F12" ++ String newline "") = Ok ("F", "12", 12)
  /\ "F" ++ "12" <> "F12" ++ String newline "".
Proof.
  apply (trailing_newline_accepted "F12" "F" "12" 12); reflexivity.
Defined.

End PrefixRoundTrip.

(** ** Sums in either order, and differences *)

Module PosVelArith.

Import PosVel PosVelFacts.



Lemma SFadd_comm (prec emax : Z) (x y : spec_float) :
  SFadd prec emax x y = SFadd prec emax y x.
Proof.
  destruct x as [sx | sx | | sx mx ex], y as [sy | sy | | sy my ey];
    unfold SFadd; cbv iota beta;
    try reflexivity;
    try (destruct sx, sy; reflexivity).
  cbv zeta. rewrite (Z.min_comm ey ex). f_equal. apply Z.add_comm.
Qed.

Lemma add_comm (x y : float) : (x + y)%float = (y + x)%float.
Proof.
  apply Prim2SF_inj. rewrite !add_spec. apply SFadd_comm.
Qed.

Lemma vadd_comm (a : list float) : forall b, vadd a b = vadd b a.
Proof.
  unfold vadd.
  induction a as [| x a IH]; intros [| y b]; try reflexivity.
  simpl. now rewrite add_comm, IH.
Qed.




Lemma label_eqb_sym (a b : option string) : label_eqb a b = label_eqb b a.
Proof. destruct a, b; simpl; try reflexivity. apply String.eqb_sym. Qed.

Lemma label_eqb_eq (a b : option string) : label_eqb a b = true <-> a = b.
Proof.
  destruct a as [x |], b as [y |]; simpl; split; intros H;
    try discriminate; try reflexivity.
  - apply String.eqb_eq in H. now subst.
  - injection H as ->. apply String.eqb_refl.
Qed.

(** X12.  The sum does not depend on the order of the operands, unless the
    labels chain both ways: then the first test decides, and it is a
    different test in the other order. *)
Theorem add_commutes (A B r : t) :
  valid A -> valid B -> ~ labels_cycle A B ->
  __add__ A B = Ok r -> __add__ B A = Ok r.
Proof.
  intros VA VB Hn H.
  unfold __add__ in *.
  rewrite (vadd_comm (pos B)), (vadd_comm (vel B)).
  rewrite (andb_comm (_has_labels B)).
  destruct (_has_labels A && _has_labels B) eqn:HL; [| exact H].
  apply andb_true_iff in HL. destruct HL as [HA HB].
  rewrite (label_eqb_sym (obj B)), (label_eqb_sym (origin B)).
  destruct (label_eqb (obj A) (origin B)) eqn:E1.
  - destruct (label_eqb (origin A) (obj B)) eqn:E2.
    + exfalso. apply Hn. unfold labels_cycle.
      apply label_eqb_eq in E1. apply label_eqb_eq in E2. auto.
    + exact H.
  - destruct (label_eqb (origin A) (obj B)) eqn:E2; [exact H |].
    simpl in H. discriminate.
Qed.

Lemma add_commutes_witness :
  __add__ moon_from_earth earth_from_ssb = Ok moon_from_ssb.
Proof.
  apply (add_commutes earth_from_ssb moon_from_earth moon_from_ssb).
  - split; reflexivity.
  - split; reflexivity.
  - intros [_ [_ [_ H]]]. discriminate.
  - reflexivity.
Defined.





End PosVelArith.

(** ** Fortran exponents *)

Module FortranFacts.

Import StrFacts TimeFacts.

Lemma start_lower (a : ascii) : is_digit a || is_dot a = true -> lower_char a = a.
Proof. by_code_points a. Qed.

Lemma plain_no_space (a : ascii) : is_plain a = true -> negb (is_space a) = true.
Proof. by_code_points a. Qed.

(** [float] on a number whose exponent is introduced by a capital E. *)
Lemma pyfloat_capital (sg : sign) (ip : string) (point : option string)
  (esg : sign) (ds : string) :
  has_digit ip point -> all_str is_digit ip = true -> frac_ok point ->
  ds <> "" -> all_str is_digit ds = true ->
  pyfloat (number_text sg ip point ++ String "E" (sign_text esg ++ ds))
  = Ok (decimal_float (is_minus sg) ip (frac_digits point)
                      (signed esg (digits_value ds))).
Proof.
  intros Hne Hip Hfp Hdne Hds. unfold number_text.
  rewrite (app_assoc (sign_text sg)).
  set (rest := String "E" (sign_text esg ++ ds)).
  pose proof (exponent_text_plain esg ds Hds) as Hex.
  assert (Hmant : all_str is_plain (ip ++ frac_text point) = true).
  { now rewrite all_str_app, (digits_plain ip Hip), (frac_text_plain point Hfp). }
  assert (Hnosp : all_str (fun a => negb (is_space a))
                          (sign_text sg ++ (ip ++ frac_text point) ++ rest) = true).
  { rewrite !all_str_app.
    rewrite (all_str_impl _ _ _ plain_no_space (sign_text_plain sg)).
    rewrite (all_str_impl _ _ _ plain_no_space (digits_plain ip Hip)).
    rewrite (all_str_impl _ _ _ plain_no_space (frac_text_plain point Hfp)).
    unfold rest. cbn [all_str].
    now rewrite (all_str_impl _ _ _ plain_no_space Hex). }
  assert (Hcut : cut is_e ((ip ++ frac_text point) ++ rest)
                 = (ip ++ frac_text point, Some (sign_text esg ++ ds))).
  { apply cut_at; [| reflexivity].
    now apply (all_str_impl is_plain); [apply plain_not_is_e' |]. }
  pose proof (parse_number_text ip point Hne Hip Hfp) as Hnum.
  pose proof (parse_exponent_text esg ds Hdne Hds) as Hexp.
  unfold pyfloat. rewrite (trim_id _ Hnosp).
  destruct (number_start ip point Hne Hip) as [a [b [Hab Ha]]].
  rewrite Hab in *.
  change (String a b ++ rest) with (String a (b ++ rest)) in *.
  rewrite (take_sign_start sg a _ Ha).
  destruct (start_not_sign a Ha) as [_ [_ [Hi Hn]]].
  assert (E1 : String.eqb (lower (String a (b ++ rest))) "inf" = false)
    by (unfold lower; cbn [map_str]; rewrite (start_lower a Ha);
        simpl; now rewrite Hi).
  assert (E2 : String.eqb (lower (String a (b ++ rest))) "infinity" = false)
    by (unfold lower; cbn [map_str]; rewrite (start_lower a Ha);
        simpl; now rewrite Hi).
  assert (E3 : String.eqb (lower (String a (b ++ rest))) "nan" = false)
    by (unfold lower; cbn [map_str]; rewrite (start_lower a Ha);
        simpl; now rewrite Hn).
  rewrite E1, E2, E3. simpl orb. cbv iota.
  rewrite Hcut, Hnum, Hexp.
  unfold frac_ok in Hfp.
  rewrite (filter_digits _ Hip), (filter_digits _ Hfp).
  reflexivity.
Qed.

Lemma translate_plain_char (a : ascii) :
  is_plain a = true -> translate_char (maketrans "Dd" "ee") a = a.
Proof. by_code_points a. Qed.

Lemma translate_marker (a : ascii) :
  is_marker a = true ->
  translate_char (maketrans "Dd" "ee") a = "e"%char
  \/ translate_char (maketrans "Dd" "ee") a = "E"%char.
Proof. by_code_points a. Qed.

(** X15.  A number in scientific notation whose exponent is introduced
    by d or D, as Fortran writes it (or by e or E), is read as the decimal
    number it writes: the binary64 number nearest to it. *)
Theorem fortran_float_reads (sg : sign) (ip : string) (point : option string)
  (mk : ascii) (esg : sign) (ds : string) :
  has_digit ip point -> all_str is_digit ip = true -> frac_ok point ->
  is_marker mk = true ->
  ds <> "" -> all_str is_digit ds = true ->
  fortran_float (Str (number_text sg ip point ++ String mk (sign_text esg ++ ds)))
  = Ok (decimal_float (is_minus sg) ip (frac_digits point)
                      (signed esg (digits_value ds))).
Proof.
  intros Hne Hip Hfp Hmk Hdne Hds.
  unfold fortran_float, translate.
  rewrite map_str_app. cbn [map_str].
  rewrite (map_str_id _ is_plain _ translate_plain_char
             (number_text_plain sg ip point Hip Hfp)).
  rewrite (map_str_id _ is_plain _ translate_plain_char
             (exponent_text_plain esg ds Hds)).
  destruct (translate_marker mk Hmk) as [-> | ->].
  - now apply pyfloat_sci.
  - now apply pyfloat_capital.
Qed.

Lemma fortran_float_reads_witness :
  fortran_float (Str "1.5D2") = Ok 150%float
  /\ fortran_float (Str "1.5d-2") = Ok 0x1.eb851eb851eb8p-7%float.
Proof.
  split.
  - apply (fortran_float_reads NoSign "1" (Some "5") "D" NoSign "2");
      try reflexivity; try discriminate. left; discriminate.
  - apply (fortran_float_reads NoSign "1" (Some "5") "d" MinusSign "2");
      try reflexivity; try discriminate. left; discriminate.
Defined.

(** *** What [float] reads *)

Lemma all_str_lskip (p : ascii -> bool) (s : string) :
  (forall a, is_blank a = true -> p a = true) ->
  all_str p (lskip s) = true -> all_str p s = true.
Proof.
  intros Hsp. induction s as [| a s IH]; [auto |].
  simpl. destruct (is_blank a) eqn:E.
  - intros H. now rewrite (Hsp a E), (IH H).
  - auto.
Qed.

Lemma all_str_rskip (p : ascii -> bool) (s : string) :
  (forall a, is_blank a = true -> p a = true) ->
  all_str p (rskip s) = true -> all_str p s = true.
Proof.
  intros Hsp. induction s as [| a s IH]; [auto |].
  simpl. destruct (rskip s) as [| b r] eqn:E.
  - assert (Hs : all_str p s = true).
    { apply (all_str_impl is_blank); [exact Hsp |]. now apply rskip_nil_iff. }
    rewrite Hs, andb_true_r.
    destruct (is_blank a) eqn:Ea; [intros _; now apply Hsp |].
    simpl. now rewrite andb_true_r.
  - cbn [all_str]. intros H. apply andb_true_iff in H. destruct H as [Ha Hr].
    rewrite Ha. now apply IH.
Qed.

Lemma all_str_trim (p : ascii -> bool) (s : string) :
  (forall a, is_blank a = true -> p a = true) ->
  all_str p (trim s) = true -> all_str p s = true.
Proof.
  intros Hsp H. apply all_str_lskip; [exact Hsp |].
  now apply all_str_rskip.
Qed.

Lemma all_str_take_sign (p : ascii -> bool) (s : string) :
  p "+"%char = true -> p "-"%char = true ->
  all_str p (snd (take_sign s)) = true -> all_str p s = true.
Proof.
  intros Hplus Hminus. destruct s as [| a s]; [auto |].
  unfold take_sign.
  destruct (Ascii.eqb a "-") eqn:E1.
  - apply Ascii.eqb_eq in E1. subst. simpl. now rewrite Hminus.
  - destruct (Ascii.eqb a "+") eqn:E2; [| auto].
    apply Ascii.eqb_eq in E2. subst. simpl. now rewrite Hplus.
Qed.

Lemma all_str_lower (q p : ascii -> bool) (s : string) :
  (forall a, q (lower_char a) = true -> p a = true) ->
  all_str q (lower s) = true -> all_str p s = true.
Proof.
  intros Hq. induction s as [| a s IH]; [auto |].
  unfold lower. cbn [map_str all_str]. intros H.
  apply andb_true_iff in H. destruct H as [Ha Hs].
  rewrite (Hq a Ha). now apply IH.
Qed.

Lemma all_str_cut (q p : ascii -> bool) (s : string) :
  (forall a, p a = true -> q a = true) ->
  forall b r,
    cut p s = (b, r) ->
    all_str q b = true ->
    match r with Some t => all_str q t = true | None => True end ->
    all_str q s = true.
Proof.
  intros Hp. induction s as [| a s IH]; intros b r H Hb Hr; [reflexivity |].
  simpl in H. destruct (p a) eqn:Ea.
  - injection H as <- <-. simpl. now rewrite (Hp a Ea).
  - destruct (cut p s) as [b' r'] eqn:E. injection H as <- <-.
    simpl in Hb. apply andb_true_iff in Hb. destruct Hb as [Ha Hb].
    simpl. rewrite Ha. now apply (IH b' r').
Qed.

Lemma digitpart_from_chars (s : string) :
  forall prev, digitpart_from prev s = true -> all_str is_digitpart_char s = true.
Proof.
  induction s as [| a s IH]; intros prev H; [reflexivity |].
  simpl in H. unfold is_digitpart_char at 1. cbn [all_str].
  fold (is_digitpart_char a).
  unfold is_digitpart_char at 1.
  destruct (is_digit a).
  - simpl. now apply (IH true).
  - destruct (Ascii.eqb a "_"); [| discriminate].
    simpl. apply andb_true_iff in H. now apply (IH false).
Qed.

Lemma digitpart_chars (s : string) :
  digitpart s = true -> all_str is_digitpart_char s = true.
Proof. apply digitpart_from_chars. Qed.

Lemma digitpart_char_float (a : ascii) :
  is_digitpart_char a = true -> is_floatchar a = true.
Proof. by_code_points a. Qed.

Lemma dot_float (a : ascii) : is_dot a = true -> is_floatchar a = true.
Proof. by_code_points a. Qed.

Lemma e_float (a : ascii) : is_e a = true -> is_floatchar a = true.
Proof. by_code_points a. Qed.

Lemma space_float (a : ascii) : is_blank a = true -> is_floatchar a = true.
Proof. by_code_points a. Qed.

Lemma word_float (a : ascii) :
  is_wordchar (lower_char a) = true -> is_floatchar a = true.
Proof. by_code_points a. Qed.

Lemma digitpart_float (s : string) :
  digitpart s = true -> all_str is_floatchar s = true.
Proof.
  intros H. apply (all_str_impl is_digitpart_char);
    [apply digitpart_char_float | now apply digitpart_chars].
Qed.

Lemma parse_number_chars (n ip fp : string) :
  parse_number n = Some (ip, fp) -> all_str is_floatchar n = true.
Proof.
  unfold parse_number. destruct (cut is_dot n) as [b r] eqn:E.
  destruct r as [t |].
  - intros H.
    destruct ((digitpart t && (digitpart b || String.eqb b ""))
              || (digitpart b && String.eqb t "")) eqn:C; [| discriminate].
    assert (Hb : all_str is_floatchar b = true).
    { destruct (digitpart b) eqn:Db; [now apply digitpart_float |].
      rewrite orb_false_l, andb_false_l, orb_false_r in C.
      apply andb_true_iff in C. destruct C as [_ C].
      apply String.eqb_eq in C. now subst. }
    assert (Ht : all_str is_floatchar t = true).
    { destruct (digitpart t) eqn:Dt; [now apply digitpart_float |].
      rewrite andb_false_l, orb_false_l in C.
      apply andb_true_iff in C. destruct C as [_ C].
      apply String.eqb_eq in C. now subst. }
    now apply (all_str_cut is_floatchar is_dot n dot_float b (Some t) E).
  - destruct (digitpart b) eqn:Db; [| discriminate].
    intros _.
    apply (all_str_cut is_floatchar is_dot n dot_float b None E);
      [now apply digitpart_float | exact I].
Qed.

Lemma parse_exponent_chars (e : string) (z : Z) :
  parse_exponent (Some e) = Some z -> all_str is_floatchar e = true.
Proof.
  unfold parse_exponent.
  destruct (take_sign e) as [negative body] eqn:E.
  destruct (digitpart body) eqn:D; [| discriminate].
  intros _. apply all_str_take_sign; try reflexivity.
  rewrite E. now apply digitpart_float.
Qed.

(** A string that [float] accepts is made of these characters only. *)
Lemma pyfloat_chars (s : string) (f : float) :
  pyfloat s = Ok f -> all_str is_floatchar s = true.
Proof.
  unfold pyfloat.
  destruct (take_sign (trim s)) as [negative body] eqn:E.
  intros H.
  apply (all_str_trim _ _ space_float).
  apply all_str_take_sign; try reflexivity.
  rewrite E. cbn [snd].
  destruct (String.eqb (lower body) "inf" || String.eqb (lower body) "infinity") eqn:C1.
  - apply (all_str_lower is_wordchar _ _ word_float).
    apply orb_true_iff in C1.
    destruct C1 as [C1 | C1]; apply String.eqb_eq in C1; now rewrite C1.
  - destruct (String.eqb (lower body) "nan") eqn:C2.
    + apply (all_str_lower is_wordchar _ _ word_float).
      apply String.eqb_eq in C2. now rewrite C2.
    + destruct (cut is_e body) as [number exponent] eqn:Ec.
      destruct (parse_number number) as [[ip fp] |] eqn:En; [| discriminate].
      destruct (parse_exponent exponent) as [e |] eqn:Ee; [| discriminate].
      apply (all_str_cut is_floatchar is_e body e_float number exponent Ec).
      * now apply (parse_number_chars number ip fp).
      * destruct exponent as [t |]; [| exact I].
        now apply (parse_exponent_chars t e).
Qed.

Lemma contains_not_all (c : ascii) (p : ascii -> bool) (s : string) :
  p c = false -> contains c s = true -> all_str p s = false.
Proof.
  intros Hc H.
  destruct (all_str p s) eqn:E; [| reflexivity].
  now rewrite (contains_all_str c p s Hc E) in H.
Qed.

(** A character that [float] does not read and that has no numeric
    value makes the answer False. *)
Lemma is_number_rejects (c : ascii) (s : string) :
  is_floatchar c = false -> is_numeric_char c = false ->
  contains c s = true -> is_number s = false.
Proof.
  intros Hf Hn Hc. unfold is_number.
  destruct (pyfloat s) as [f | e] eqn:E.
  - apply pyfloat_chars in E.
    now rewrite (contains_not_all c _ s Hf Hc) in E.
  - destruct s as [| a [| b s]]; try reflexivity.
    simpl in Hc. rewrite orb_false_r in Hc.
    apply Ascii.eqb_eq in Hc. now subst.
Qed.

(** X16.  No string with a d or a D in it is a number for [is_number]:
    none of the strings that only [fortran_float] reads is one. *)
Theorem is_number_no_fortran (s : string) :
  contains "d" s = true \/ contains "D" s = true -> is_number s = false.
Proof.
  intros [H | H].
  - now apply (is_number_rejects "d" s).
  - now apply (is_number_rejects "D" s).
Qed.

Lemma is_number_no_fortran_witness : is_number "1.5D2" = false.
Proof. apply (is_number_no_fortran "1.5D2"). right. reflexivity. Defined.

(** X17.  A number in scientific notation whose exponent is introduced
    by e or E is a number for [is_number]. *)
Theorem is_number_decimal (sg : sign) (ip : string) (point : option string)
  (mk : ascii) (esg : sign) (ds : string) :
  has_digit ip point -> all_str is_digit ip = true -> frac_ok point ->
  is_e mk = true ->
  ds <> "" -> all_str is_digit ds = true ->
  is_number (number_text sg ip point ++ String mk (sign_text esg ++ ds)) = true.
Proof.
  intros Hne Hip Hfp Hmk Hdne Hds. unfold is_number.
  apply orb_true_iff in Hmk.
  destruct Hmk as [E | E]; apply Ascii.eqb_eq in E; subst mk.
  - now rewrite pyfloat_sci.
  - now rewrite pyfloat_capital.
Qed.

Lemma is_number_decimal_witness : is_number "-1.5E+2" = true.
Proof.
  apply (is_number_decimal MinusSign "1" (Some "5") "E" PlusSign "2");
    try reflexivity; try discriminate. left; discriminate.
Defined.

End FortranFacts.

(** ** More strings for [time_from_mjd_string] *)

Module MjdTextFacts.

Import StrFacts TimeFacts.

Lemma plain_sign_digits (sg : sign) (ip : string) :
  all_str is_digit ip = true ->
  contains "." (sign_text sg ++ ip) = false.
Proof.
  intros Hip. rewrite contains_app.
  rewrite (contains_all_str "." is_digit ip eq_refl Hip).
  now destruct sg.
Qed.

(** X2.  A number without exponent, with or without a sign and a point:
    the integer day is the signed number before the point, and the
    fraction is the float of "0." and the digits after it ("0.0" where
    there is no point).  The sign is given to the day alone: the fraction
    of "-1.25" is 0.25, a quarter of a day after day -1. *)
Theorem plain_string (sg : sign) (ip : string) (point : option string)
  (scale : string) :
  ip <> "" -> all_str is_digit ip = true -> frac_ok point ->
  time_from_mjd_string (number_text sg ip point) scale
  = ([], Ok (mkTime (signed sg (digits_value ip))
                    (decimal_float false "0" (fraction_digits point) 0)
                    scale "pulsar_mjd" 9)).
Proof.
  intros Hne Hip Hfp.
  pose proof (number_text_plain sg ip point Hip Hfp) as Hplain.
  unfold time_from_mjd_string. cbv zeta.
  rewrite (lower_plain _ Hplain).
  rewrite (contains_all_str "e" is_plain _ eq_refl Hplain).
  rewrite (contains_all_str "d" is_plain _ eq_refl Hplain).
  simpl orb. cbv iota.
  unfold number_text. rewrite <- app_assoc.
  destruct point as [fp |]; cbn [frac_text fraction_digits].
  - unfold frac_ok in Hfp. cbn [frac_digits] in Hfp.
    change ("." ++ fp) with (String "." fp).
    rewrite split_cons by now apply plain_sign_digits.
    rewrite split_none by now apply (contains_all_str "." is_digit).
    cbn [List.length Nat.eqb unpack2].
    rewrite bindL_lift_Ok. cbv beta iota.
    rewrite (pyint_signed sg ip Hne Hip), bindL_lift_Ok.
    change ("0." ++ fp) with ("0" ++ "." ++ fp).
    rewrite (pyfloat_plain "0" fp); [| discriminate | reflexivity | assumption].
    reflexivity.
  - rewrite app_nil_r.
    rewrite split_none by now apply plain_sign_digits.
    cbn [List.length Nat.eqb List.app unpack2].
    rewrite bindL_lift_Ok. cbv beta iota.
    rewrite (pyint_signed sg ip Hne Hip), bindL_lift_Ok.
    reflexivity.
Qed.

Lemma plain_string_witness :
  time_from_mjd_string "-1.25" "utc"
  = ([], Ok (mkTime (-1) 0.25 "utc" "pulsar_mjd" 9)).
Proof.
  apply (plain_string MinusSign "1" (Some "25") "utc");
    try reflexivity; discriminate.
Defined.

(** X18.  A number in scientific notation that has no point before its
    exponent, with an exponent that is not negative, is refused: the
    mantissa cannot be unpacked into the digits before and after a
    point. *)
Theorem sci_without_point (sg : sign) (ip : string) (mk : ascii)
  (esg : sign) (ds scale : string) :
  all_str is_digit ip = true ->
  is_marker mk = true -> is_minus esg = false ->
  ds <> "" -> all_str is_digit ds = true ->
  time_from_mjd_string (sign_text sg ++ ip ++ String mk (sign_text esg ++ ds)) scale
  = ([], Raise (ValueError "not enough values to unpack (expected 2, got 1)")).
Proof.
  intros Hip Hmk Hesg Hdne Hds.
  pose proof (digits_value_range ds Hds) as [Hv _].
  pose proof (number_text_plain sg ip None Hip eq_refl) as Hnum.
  unfold number_text in Hnum. cbn [frac_text] in Hnum.
  rewrite app_nil_r in Hnum.
  pose proof (exponent_text_plain esg ds Hds) as Hex.
  destruct (sci_head _ _ mk Hnum Hex Hmk) as [Hc [Ht Hs]].
  unfold time_from_mjd_string. cbv zeta.
  rewrite <- app_assoc.
  rewrite Hc, Ht, Hs. cbn [unpack2].
  rewrite bindL_lift_Ok. cbv beta iota.
  rewrite (pyint_signed esg ds Hdne Hds), bindL_lift_Ok.
  unfold signed. rewrite Hesg.
  destruct (Z.ltb_spec (digits_value ds) 0) as [Hlt | _]; [lia |].
  rewrite (split_none "." (sign_text sg ++ ip)) by now apply plain_sign_digits.
  reflexivity.
Qed.

Lemma sci_without_point_witness :
  time_from_mjd_string "55000D0" "utc"
  = ([], Raise (ValueError "not enough values to unpack (expected 2, got 1)")).
Proof.
  apply (sci_without_point NoSign "55000" "D" NoSign "0" "utc");
    try reflexivity; discriminate.
Defined.

Lemma split_nonempty (sep : ascii) (s : string) : split sep s <> [].
Proof.
  destruct s as [| a s]; simpl; [discriminate |].
  destruct (Ascii.eqb a sep); [discriminate |].
  destruct (split sep s); discriminate.
Qed.

Lemma split_length_app (sep : ascii) (x y : string) :
  List.length (split sep (x ++ String sep y))
  = (List.length (split sep x) + List.length (split sep y))%nat.
Proof.
  induction x as [| a x IH]; simpl.
  - now rewrite Ascii.eqb_refl.
  - destruct (Ascii.eqb a sep); simpl; [now rewrite IH |].
    pose proof (split_nonempty sep (x ++ String sep y)) as H1.
    pose proof (split_nonempty sep x) as H2.
    destruct (split sep (x ++ String sep y)); [contradiction |].
    destruct (split sep x); [contradiction |].
    simpl in *. exact IH.
Qed.

Lemma split_length_pos (sep : ascii) (s : string) :
  (1 <= List.length (split sep s))%nat.
Proof.
  pose proof (split_nonempty sep s).
  destruct (split sep s); [contradiction | simpl; lia].
Qed.

Lemma no_marker_lower (a : ascii) :
  negb (is_marker a) = true ->
  Ascii.eqb (lower_char a) "e" = false /\ Ascii.eqb (lower_char a) "d" = false.
Proof. by_code_points a. Qed.

Lemma lower_dot (a : ascii) :
  Ascii.eqb (lower_char a) "." = Ascii.eqb a ".".
Proof. by_code_points a. Qed.

Lemma no_marker_contains (s : string) :
  no_marker s = true ->
  contains "e" (lower s) = false /\ contains "d" (lower s) = false.
Proof.
  unfold no_marker, lower.
  induction s as [| a s IH]; [auto |].
  cbn [all_str map_str contains]. intros H.
  apply andb_true_iff in H. destruct H as [Ha Hs].
  destruct (no_marker_lower a Ha) as [-> ->].
  now apply IH.
Qed.

Lemma split_lower_length (s : string) :
  List.length (split "." (lower s)) = List.length (split "." s).
Proof.
  unfold lower.
  induction s as [| a s IH]; [reflexivity |].
  cbn [map_str split]. rewrite lower_dot.
  destruct (Ascii.eqb a "."); simpl; [now rewrite IH |].
  pose proof (split_nonempty "." (map_str lower_char s)) as H1.
  pose proof (split_nonempty "." s) as H2.
  destruct (split "." (map_str lower_char s)); [contradiction |].
  destruct (split "." s); [contradiction |].
  simpl in *. exact IH.
Qed.

(** X19.  A string without exponent that has more than one point is
    refused with ValueError, whatever else it is made of. *)
Theorem too_many_points (a b c scale : string) :
  no_marker (a ++ "." ++ b ++ "." ++ c) = true ->
  time_from_mjd_string (a ++ "." ++ b ++ "." ++ c) scale
  = ([], Raise (ValueError "too many values to unpack (expected 2)")).
Proof.
  intros Hm.
  destruct (no_marker_contains _ Hm) as [He Hd].
  unfold time_from_mjd_string. cbv zeta.
  rewrite He, Hd. simpl orb. cbv iota.
  assert (Hlen : (3 <= List.length (split "." (lower (a ++ "." ++ b ++ "." ++ c))))%nat).
  { rewrite split_lower_length.
    change ("." ++ b ++ "." ++ c) with (String "." (b ++ String "." c)).
    rewrite !split_length_app.
    pose proof (split_length_pos "." a).
    pose proof (split_length_pos "." b).
    pose proof (split_length_pos "." c).
    lia. }
  destruct (split "." (lower (a ++ "." ++ b ++ "." ++ c)))
    as [| p [| q [| r rest]]]; simpl in Hlen; try lia.
  reflexivity.
Qed.

Lemma too_many_points_witness :
  time_from_mjd_string "55000.12.5" "utc"
  = ([], Raise (ValueError "too many values to unpack (expected 2)")).
Proof. apply (too_many_points "55000" "12" "5" "utc"). reflexivity. Defined.

End MjdTextFacts.

(** ** Derivatives as series of the later coefficients *)

Module TaylorCompose.

Lemma slice_from_mod {A : Type} (l : list A) (k : Z) :
  - Z.of_nat (List.length l) <= k < Z.of_nat (List.length l) ->
  slice_from k l = skipn (Z.to_nat (k mod Z.of_nat (List.length l))) l.
Proof.
  intros H. unfold slice_from. cbv zeta.
  set (n := Z.of_nat (List.length l)) in *.
  f_equal. f_equal.
  destruct (Z.ltb_spec k 0) as [Hneg | Hpos].
  - rewrite Z.max_l by lia.
    apply (Z.mod_unique_pos k n (-1) (k + n)); lia.
  - rewrite Z.min_l by lia.
    symmetry. apply Z.mod_small. lia.
Qed.

(** X20.  For an order within the list, the derivative is the series of
    the coefficients from that order on: order 0 gives [taylor_horner]
    itself, and a negative order counts from the end of the list (order -1
    is the series of the last coefficient alone) instead of being
    refused. *)
Theorem deriv_order_slices (x : pynum) (coeffs : list pynum) (k : Z) :
  - Z.of_nat (List.length coeffs) <= k < Z.of_nat (List.length coeffs) ->
  taylor_horner_deriv x coeffs k
  = taylor_horner x (skipn (Z.to_nat (k mod Z.of_nat (List.length coeffs))) coeffs).
Proof.
  intros H.
  pose proof (Z.mod_pos_bound k (Z.of_nat (List.length coeffs))) as Hm.
  unfold taylor_horner_deriv, taylor_horner.
  rewrite (slice_from_mod coeffs k H).
  set (m := Z.to_nat (k mod Z.of_nat (List.length coeffs))) in *.
  assert (Hlen : (m < List.length coeffs)%nat).
  { unfold m. apply Nat2Z.inj_lt.
    rewrite Z2Nat.id by (apply Hm; lia). apply Hm; lia. }
  destruct coeffs as [| c coeffs]; [simpl in Hlen; lia |].
  destruct (skipn m (c :: coeffs)) as [| d rest] eqn:E; [| reflexivity].
  apply (f_equal (@List.length pynum)) in E.
  rewrite length_skipn in E. cbn [List.length] in E, Hlen. lia.
Qed.

Lemma deriv_order_slices_witness :
  taylor_horner_deriv (PyFloat 2) example_coeffs (-1)
  = taylor_horner (PyFloat 2) [PyInt 12]
  /\ taylor_horner_deriv (PyFloat 2) example_coeffs 0
     = taylor_horner (PyFloat 2) example_coeffs.
Proof.
  split.
  - apply (deriv_order_slices (PyFloat 2) example_coeffs (-1)). simpl. lia.
  - apply (deriv_order_slices (PyFloat 2) example_coeffs 0). simpl. lia.
Defined.

End TaylorCompose.

(** ** Filtering what was filtered *)

Module LinesAgain.

Import StrFacts LinesFacts.

Lemma rstrip_rstrip (s : string) : rstrip (rstrip s) = rstrip s.
Proof.
  induction s as [| a s IH]; [reflexivity |].
  simpl. destruct (rstrip s) as [| b r] eqn:E.
  - destruct (is_space a) eqn:Ea; [reflexivity |].
    simpl. now rewrite Ea.
  - change (rstrip (String a (String b r)))
      with (match rstrip (String b r) with
            | EmptyString => if is_space a then EmptyString else String a EmptyString
            | String c t => String a (String c t)
            end).
    now rewrite IH.
Qed.

Lemma strip_strip (s : string) : strip (strip s) = strip s.
Proof.
  unfold strip.
  destruct (lstrip s) as [| b r] eqn:E; [reflexivity |].
  apply lstrip_head in E.
  destruct (rstrip_head b r E) as [r' Hr].
  rewrite Hr, (lstrip_id b r' E), <- Hr.
  apply rstrip_rstrip.
Qed.

Lemma kept_lines_again (cc : list string) (lines : list string) :
  kept_lines cc (kept_lines cc lines) = kept_lines cc lines.
Proof.
  unfold kept_lines.
  induction lines as [| l lines IH]; [reflexivity |].
  cbn [map filter].
  destruct (negb (String.eqb (strip l) "")
            && negb (existsb (startswith (strip l)) cc))
    eqn:E; [| exact IH].
  cbn [map filter]. rewrite strip_strip, E, IH. reflexivity.
Qed.

(** What a run that ends is: the kept lines, and no exception once the
    markers have been accepted. *)
Lemma drain_in_loop_sound (comments : comments_arg) (fuel : nat) :
  is_tuple_or_str comments ->
  forall lines out e,
    drain fuel comments InLoop lines = Some (out, e) ->
    out = kept_lines (supplied comments) lines /\ e = None.
Proof.
  intros Ht.
  induction fuel as [| fuel IH]; intros lines out e H; [discriminate |].
  simpl in H. pose proof (scan_spec comments lines Ht) as Hs.
  destruct (scan comments lines) as [[[ln | | e'] st] rest].
  - destruct Hs as [-> [Hk _]].
    destruct (drain fuel comments InLoop rest) as [[out' e''] |] eqn:E;
      [| discriminate].
    injection H as <- <-.
    destruct (IH _ _ _ E) as [-> ->]. now rewrite Hk.
  - destruct Hs as [_ [Hk _]]. injection H as <- <-. now rewrite Hk.
  - contradiction.
Qed.

Lemma drain_created_sound (comments : comments_arg) (fuel : nat)
  (lines out : list string) :
  drain fuel comments Created lines = Some (out, None) ->
  check_markers (markers comments) = Ok tt
  /\ out = kept_lines (supplied comments) lines.
Proof.
  destruct fuel as [| fuel]; [discriminate |].
  simpl. destruct (check_markers (markers comments)) as [[] | e] eqn:C;
    [| discriminate].
  intros H. split; [reflexivity |].
  pose proof (check_markers_Ok comments C) as Ht.
  pose proof (scan_spec comments lines Ht) as Hs.
  destruct (scan comments lines) as [[[ln | | e'] st] rest].
  - destruct Hs as [-> [Hk _]].
    destruct (drain fuel comments InLoop rest) as [[out' e''] |] eqn:E;
      [| discriminate].
    injection H as <- ->.
    destruct (drain_in_loop_sound _ _ Ht _ _ _ E) as [-> _]. now rewrite Hk.
  - destruct Hs as [_ [Hk _]]. injection H as <-. now rewrite Hk.
  - contradiction.
Qed.

(** X21.  The lines a run has yielded pass unchanged through a second run
    with the same markers: each is yielded again as it is, in the same
    order. *)
Theorem interesting_lines_again (comments : comments_arg)
  (lines out : list string) (fuel : nat) :
  drain fuel comments Created lines = Some (out, None) ->
  forall fuel', (List.length out < fuel')%nat ->
    drain fuel' comments Created out = Some (out, None).
Proof.
  intros H fuel' Hf.
  destruct (drain_created_sound _ _ _ _ H) as [Hok ->].
  rewrite (drain_created_good comments fuel' _ Hok Hf).
  now rewrite kept_lines_again.
Qed.

Lemma interesting_lines_again_witness :
  drain 2 (Marker "#") Created ["data"] = Some (["data"], None).
Proof.
  apply (interesting_lines_again (Marker "#") ["  "; "# comment"; " data "] ["data"] 4).
  - reflexivity.
  - simpl. lia.
Defined.

End LinesAgain.

(** ** The outcomes of [time_to_mjd_string_array] *)

Module MjdArrayFacts.

Lemma mapM_length {A B : Type} (f : A -> result B) (l : list A) :
  forall out, mapM f l = Ok out -> List.length out = List.length l.
Proof.
  induction l as [| a l IH]; intros out H; simpl in H.
  - now injection H as <-.
  - destruct (f a) as [b | e]; [| discriminate]. simpl in H.
    destruct (mapM f l) as [bs | e]; [| discriminate]. simpl in H.
    injection H as <-. simpl. now rewrite (IH bs).
Qed.

Lemma mapM_raises {A B : Type} (f : A -> result B) (l : list A) (e : exn) :
  mapM f l = Raise e -> exists a, In a l /\ f a = Raise e.
Proof.
  induction l as [| a l IH]; intros H; simpl in H; [discriminate |].
  destruct (f a) as [b | e'] eqn:E.
  - simpl in H. destruct (mapM f l) as [bs | e'']; [discriminate |].
    simpl in H. injection H as ->.
    destruct (IH eq_refl) as [a' [Hin Ha']].
    exists a'. split; [now right | exact Ha'].
  - simpl in H. injection H as ->. exists a. split; [now left | exact E].
Qed.

Lemma percent_f_raises (prec : Z) (x : float) (e : exn) :
  percent_f prec x = Raise e ->
  (prec < 0 \/ 2147483648 <= prec) /\ exists msg, e = ValueError msg.
Proof.
  unfold percent_f.
  destruct (Z.ltb_spec prec 0) as [Hneg | Hpos].
  - intros H. injection H as <-. eauto.
  - destruct (Z.leb_spec 2147483648 prec) as [Hbig | Hsmall]; [| discriminate].
    intros H. injection H as <-. eauto.
Qed.

Lemma percent_f_returns (prec : Z) (x : float) (frac : string) :
  percent_f prec x = Ok frac -> 0 <= prec < 2147483648.
Proof.
  unfold percent_f.
  destruct (Z.ltb_spec prec 0) as [Hneg | Hpos]; [discriminate |].
  destruct (Z.leb_spec 2147483648 prec) as [Hbig | Hsmall]; [discriminate |].
  intros _. lia.
Qed.

(** X22.  What a call comes to: a list with one string for each time; or
    ValueError, for an empty array, a negative precision or a precision
    of 2^31 or more; or AssertionError, when for some time the fraction
    of a day computed from the two Julian dates is not below 2 in
    absolute value (a NaN among them).  Nothing else is raised. *)
Theorem array_outcomes (t : list (float * float)) (prec : Z) :
  match time_to_mjd_string_array t prec with
  | Ok out =>
      t <> [] /\ 0 <= prec < 2147483648 /\ List.length out = List.length t
      /\ forall p, In p (split_jd t) ->
                   PrimFloat.ltb (PrimFloat.abs (snd p)) 2 = true
  | Raise (ValueError _) => t = [] \/ prec < 0 \/ 2147483648 <= prec
  | Raise AssertionError =>
      exists p, In p (split_jd t)
                /\ PrimFloat.ltb (PrimFloat.abs (snd p)) 2 = false
  | Raise _ => False
  end.
Proof.
  unfold time_to_mjd_string_array. cbv zeta.
  destruct t as [| jd t]; [now left |].
  assert (Hlen : List.length (split_jd (jd :: t)) = List.length (jd :: t))
    by apply length_map.
  remember (split_jd (jd :: t)) as parts eqn:Ep. clear Ep.
  destruct parts as [| p ps]; [discriminate |].
  cbv iota.
  remember (p :: ps) as l eqn:El.
  set (f := fun p : Z * float =>
              let '(i, f) := renormalize64 (fst p) (snd p) in
              frac <- percent_f prec f ;;
              Ok (str_of_Z i ++ tail_str frac)).
  destruct (forallb (fun p => PrimFloat.ltb (PrimFloat.abs (snd p)) 2) l)
    eqn:Hall; cbn [negb]; cbv iota.
  - destruct (mapM f l) as [out | e] eqn:Hm.
    + assert (Hprec : 0 <= prec < 2147483648).
      { subst l. cbn [mapM] in Hm. unfold f at 1 in Hm.
        destruct (renormalize64 (fst p) (snd p)) as [i x].
        destruct (percent_f prec x) as [frac | e] eqn:Hp; [| discriminate].
        exact (percent_f_returns prec x frac Hp). }
      split; [discriminate |].
      split; [exact Hprec |].
      split.
      * rewrite (mapM_length f l out Hm). exact Hlen.
      * intros q Hq. rewrite forallb_forall in Hall. now apply Hall.
    + destruct (mapM_raises f l e Hm) as [q [_ Hq]].
      unfold f in Hq.
      destruct (renormalize64 (fst q) (snd q)) as [i x].
      destruct (percent_f prec x) as [frac | e'] eqn:Hp; [discriminate |].
      simpl in Hq. injection Hq as ->.
      destruct (percent_f_raises prec x e Hp) as [Hneg [msg ->]].
      now right.
  - clear -Hall. induction l as [| q l IH]; [discriminate |].
    simpl in Hall. apply andb_false_iff in Hall.
    destruct Hall as [H | H].
    + exists q. split; [now left | exact H].
    + destruct (IH H) as [q' [Hin Hq']].
      exists q'. split; [now right | exact Hq'].
Qed.

End MjdArrayFacts.

(** ** Numeric derivatives *)

Module PartialFacts.

Lemma SFsub_diag (prec emax : Z) (x : spec_float) :
  match x with S754_zero _ | S754_finite _ _ _ => True | _ => False end ->
  SFsub prec emax x x = S754_zero false.
Proof.
  destruct x as [s | s | | s m e]; intros H; try contradiction.
  - now destruct s.
  - unfold SFsub. cbv zeta. rewrite Z.sub_diag. reflexivity.
Qed.

Lemma sub_diag (x : float) : is_finite x = true -> Prim2SF (x - x) = S754_zero false.
Proof.
  unfold is_finite. intros H. rewrite sub_spec. apply SFsub_diag.
  destruct (Prim2SF x); try discriminate; exact I.
Qed.

Lemma zero_div (z d : float) :
  Prim2SF z = S754_zero false -> is_step d = true ->
  PrimFloat.eqb (z / d) 0 = true.
Proof.
  unfold is_step. intros Hz Hd.
  rewrite eqb_spec, div_spec, Hz.
  change (Prim2SF 0) with (S754_zero false).
  destruct (Prim2SF d) as [s | s | | s m e]; try discriminate; reflexivity.
Qed.

Lemma list_index_range (len ix : Z) (i : nat) :
  list_index len ix = Some i -> (Z.of_nat i < len).
Proof.
  unfold list_index. cbv zeta.
  destruct (Z.ltb_spec ix 0);
    destruct (Z.leb_spec 0 (ix + len)); destruct (Z.ltb_spec (ix + len) len);
    destruct (Z.leb_spec 0 ix); destruct (Z.ltb_spec ix len);
    simpl; intros E; try discriminate; injection E as <-; lia.
Qed.

Lemma getitem_Ok (l : list float) (ix : Z) (i : nat) :
  list_index (Z.of_nat (List.length l)) ix = Some i ->
  exists x, getitem l ix = Ok x.
Proof.
  intros E. unfold getitem. rewrite E.
  apply list_index_range in E.
  destruct (nth_error l i) as [x |] eqn:N; [now exists x |].
  apply nth_error_None in N. lia.
Qed.

(** X23.  An index outside the list is refused with IndexError before
    [f] is evaluated: whatever [f] is, the outcome is that error.  An index
    from [-len(args)] to [-1] is inside: it counts from the end. *)
Theorem numeric_partial_index (f : list float -> result float)
  (args : list float) (ix : Z) (delta : float) :
  ix < - Z.of_nat (List.length args) \/ Z.of_nat (List.length args) <= ix ->
  numeric_partial f args ix delta = Raise (IndexError "list index out of range").
Proof.
  intros H. unfold numeric_partial, getitem, list_index. cbv zeta.
  set (n := Z.of_nat (List.length args)) in *.
  destruct (Z.ltb_spec ix 0).
  - destruct (Z.leb_spec 0 (ix + n)); destruct (Z.ltb_spec (ix + n) n);
      simpl; try reflexivity; lia.
  - destruct (Z.leb_spec 0 ix); destruct (Z.ltb_spec ix n);
      simpl; try reflexivity; lia.
Qed.

Lemma numeric_partial_index_witness :
  numeric_partial (fun _ => Ok 0%float) [1; 2]%float 2 0x1p-20
  = Raise (IndexError "list index out of range").
Proof.
  apply (numeric_partial_index (fun _ => Ok 0%float) [1; 2]%float 2 0x1p-20).
  right. simpl. lia.
Defined.

(** X24.  Where [f] does not depend on the argument at the index and its
    value is finite, the derivative is zero exactly, for every step that
    is not zero (nor NaN): no rounding error enters. *)
Theorem numeric_partial_constant (f : list float -> result float)
  (args : list float) (ix : Z) (i : nat) (delta r : float) :
  list_index (Z.of_nat (List.length args)) ix = Some i ->
  ignores f args i r -> is_finite r = true -> is_step delta = true ->
  exists d, numeric_partial f args ix delta = Ok d
            /\ PrimFloat.eqb d 0 = true.
Proof.
  intros Hi Hf Hr Hd.
  destruct (getitem_Ok args ix i Hi) as [x Hx].
  unfold numeric_partial. rewrite Hx, !bind_Ok.
  unfold setitem. rewrite Hi, !bind_Ok.
  exists ((r - r) / delta)%float. split.
  - rewrite (Hf (x + delta / 2)%float). cbn [bind].
    now rewrite (Hf (x - delta / 2)%float).
  - apply zero_div; [now apply sub_diag | exact Hd].
Qed.

Lemma numeric_partial_constant_witness :
  exists d, numeric_partial (fun a => Ok (nth 0 a 0)%float) [3; 5]%float (-1) 0x1p-20
            = Ok d
            /\ PrimFloat.eqb d 0 = true.
Proof.
  apply (numeric_partial_constant (fun a => Ok (nth 0 a 0)%float)
           [3; 5]%float (-1) 1 0x1p-20 3);
    try reflexivity.
  intros v. reflexivity.
Defined.

Lemma mapM_all_Ok {A B : Type} (f : A -> result B) (l : list A) :
  (forall a, In a l -> exists b, f a = Ok b) ->
  exists out, mapM f l = Ok out.
Proof.
  induction l as [| a l IH]; intros H; [now exists [] |].
  destruct (H a (or_introl eq_refl)) as [b Hb].
  destruct IH as [out Hout]; [intros a' Hin; apply H; now right |].
  exists (b :: out). simpl. now rewrite Hb, bind_Ok, Hout.
Qed.

Lemma update_length (i : nat) (v : float) (l : list float) :
  List.length (update i v l) = List.length l.
Proof.
  revert i. induction l as [| x l IH]; intros [| i]; simpl; auto.
Qed.

(** X25.  Where [f] returns on every list of as many arguments,
    [numeric_partials] returns one derivative for each argument: the
    indices it uses are all inside the list. *)
Theorem numeric_partials_all (f : list float -> result float)
  (args : list float) (delta : float) :
  (forall a, List.length a = List.length args -> exists r, f a = Ok r) ->
  exists out, numeric_partials f args delta = Ok out
              /\ List.length out = List.length args.
Proof.
  intros Hf. unfold numeric_partials.
  destruct (mapM_all_Ok
              (fun i => numeric_partial f args (Z.of_nat i) delta)
              (seq 0 (List.length args))) as [out Hout].
  - intros i Hin. apply in_seq in Hin.
    assert (Hi : list_index (Z.of_nat (List.length args)) (Z.of_nat i) = Some i).
    { unfold list_index. cbv zeta.
      destruct (Z.ltb_spec (Z.of_nat i) 0); [lia |].
      destruct (Z.leb_spec 0 (Z.of_nat i)); [| lia].
      destruct (Z.ltb_spec (Z.of_nat i) (Z.of_nat (List.length args))); [| lia].
      simpl. now rewrite Nat2Z.id. }
    destruct (getitem_Ok args _ i Hi) as [x Hx].
    unfold numeric_partial. rewrite Hx, !bind_Ok.
    unfold setitem. rewrite Hi, !bind_Ok.
    destruct (Hf (update i (x + delta / 2)%float args) (update_length _ _ _))
      as [r2 ->].
    cbn [bind].
    destruct (Hf (update i (x - delta / 2)%float args) (update_length _ _ _))
      as [r3 ->].
    cbn [bind]. eauto.
  - exists out. split; [exact Hout |].
    rewrite (MjdArrayFacts.mapM_length _ _ _ Hout). apply length_seq.
Qed.

Lemma numeric_partials_all_witness :
  exists out, numeric_partials (fun a => Ok (nth 0 a 0)%float) [3; 5]%float 0x1p-20
              = Ok out
              /\ List.length out = 2%nat.
Proof.
  apply (numeric_partials_all (fun a => Ok (nth 0 a 0)%float) [3; 5]%float 0x1p-20).
  intros a _. eauto.
Defined.

End PartialFacts.

(** ** Sums of arrays *)

Module PosVelArraysFacts.

Import PosVelArrays.


Lemma stretch_same {A : Type} (l : list A) : stretch (List.length l) l = l.
Proof. destruct l as [| x [| y l]]; reflexivity. Qed.



Section Astropy.

Variable quantity_add : value -> value -> result value.



(** On arrays of shape (3,) the class is [PosVel]. *)
Lemma of_vectors_add (A B : PosVel.t) :
  PosVel.valid A -> PosVel.valid B ->
  __add__ quantity_add (of_vectors A) (of_vectors B)
  = map_result of_vectors (PosVel.__add__ A B).
Proof.
  intros [HpA HvA] [HpB HvB].
  assert (Hsum : forall x y : list float,
             List.length x = 3%nat -> List.length y = 3%nat ->
             array_add (Arr1 x) (Arr1 y) = Ok (Arr1 (PosVel.vadd x y))).
  { intros x y Hx Hy. cbn [array_add]. rewrite Hx, Hy.
    change (broadcast_dim 3 3) with (Some 3%nat). cbv iota.
    unfold add_vectors.
    rewrite <- Hx at 1. rewrite stretch_same.
    rewrite <- Hy. now rewrite stretch_same. }
  unfold __add__, PosVel.__add__, of_vectors, _has_labels, PosVel._has_labels.
  cbn [pos vel obj origin].
  destruct (match PosVel.obj A with Some _ => _ | None => false end
            && match PosVel.obj B with Some _ => _ | None => false end).
  - destruct (PosVel.label_eqb (PosVel.obj A) (PosVel.origin B)).
    + cbn [bind value_add].
      rewrite (Hsum _ _ HpA HpB). cbn [bind].
      rewrite (Hsum _ _ HvA HvB). cbn [bind].
      unfold __init__, PosVel.__init__. cbn [len array_len].
      rewrite !PosVelFacts.vadd_length by assumption. reflexivity.
    + destruct (PosVel.label_eqb (PosVel.origin A) (PosVel.obj B));
        [| reflexivity].
      cbn [bind value_add].
      rewrite (Hsum _ _ HpA HpB). cbn [bind].
      rewrite (Hsum _ _ HvA HvB). cbn [bind].
      unfold __init__, PosVel.__init__. cbn [len array_len].
      rewrite !PosVelFacts.vadd_length by assumption. reflexivity.
  - cbn [bind value_add].
    rewrite (Hsum _ _ HpA HpB). cbn [bind].
    rewrite (Hsum _ _ HvA HvB). cbn [bind].
    unfold __init__, PosVel.__init__. cbn [len array_len].
    rewrite !PosVelFacts.vadd_length by assumption. reflexivity.
Qed.

End Astropy.



End PosVelArraysFacts.
